(** * main_rag_app.py: session registry, ingestion and chat streaming

    A shallow embedding of [src/main_rag_app.py] (the FastAPI front of the
    Enhanced RAG service) and the properties of its three stateful parts:
    the per-tenant registry [active_rag_sessions], the ingestion paths that
    store documents and call the engine's index update, and the
    server-sent-event generator of [/chat-stream].

    Conventions.
    - A Python [str] is a Rocq [string], one character per code point
      (code points above 255 are outside the model; the pictographs in
      the log lines of [chat_stream] are written as their UTF-8 bytes).
      [Optional[T]] is [option T]; [None] is Python's [None].
    - Objects with identity (the [EnhancedRAG] instances) live in a heap
      and are referred to by location, so that two holders of the same
      handle observe each other's attribute writes.
    - Effects are threaded through a state-and-exception monad over
      [world]; the collaborators that are not part of this file
      ([storage.CloudflareR2Storage], the engine methods of
      [rag.EnhancedRAG]) are oracles, the variables of the section [App].
    - Library calls whose result depends on the interpreter or on the
      operating system are oracles as well: whether [json.dumps] raises on
      a fragment, what [str.format] makes of braces that are not those of
      its field, and what [os.path.exists] and [shutil.rmtree] find and do
      on the local disk.  [print] does not fail.
    - Where two records of the source have a field of the same name, the
      fields carry a prefix ([setup_], [chat_], [req_], [call_], [q_],
      [info_]). *)

From Stdlib Require Import ZArith Lia Ascii.
From stdpp Require Import gmap strings list pretty.

(** ** Python values *)

(** Truthiness of an [Optional[str]]: [None] and the empty string are falsy. *)
Definition truthy (o : option string) : bool :=
  match o with
  | Some s => negb (String.eqb s EmptyString)
  | None => false
  end.

(** [a or b] for an [Optional[str]] on the left and a [str] on the right. *)
Definition py_or (a : option string) (b : string) : string :=
  match a with
  | Some s => if truthy a then s else b
  | None => b
  end.

(** [s.startswith(p)]. *)
Definition startswith (s p : string) : bool := String.prefix p s.

Fixpoint map_chars (f : Ascii.ascii -> Ascii.ascii) (s : string) : string :=
  match s with
  | EmptyString => EmptyString
  | String c r => String (f c) (map_chars f r)
  end.

(** [s.replace(a, b)] for one-character [a] and [b]. *)
Definition replace_char (a b : Ascii.ascii) (s : string) : string :=
  map_chars (fun c => if Ascii.eqb c a then b else c) s.

(** [str.lower] on code points below 256: A-Z and the Latin-1 capitals
    U+00C0..U+00DE (without the multiplication sign U+00D7) move up by 32. *)
Definition lower_char (c : Ascii.ascii) : Ascii.ascii :=
  let n := Ascii.N_of_ascii c in
  if ((65 <=? n) && (n <=? 90) ||
      (192 <=? n) && (n <=? 222) && negb (n =? 215))%N
  then Ascii.ascii_of_N (n + 32) else c.

Definition lower (s : string) : string := map_chars lower_char s.

(** [os.path.join(a, b)] on a POSIX system. *)
Definition path_join (a b : string) : string :=
  if startswith b "/" then b
  else if String.eqb a EmptyString then b
  else if String.eqb (String.substring (String.length a - 1) 1 a) "/" then a +:+ b
  else a +:+ "/" +:+ b.

(** ** JSON values and [json.dumps]

    The chunks of the engine's stream, the error chunk built by the
    generator and the bodies of the responses are Python values made of
    [None], booleans, integers, strings, lists and dictionaries with
    string keys.  Dictionaries keep insertion order, hence association
    lists.  Floats are not modelled. *)

#[warnings="-register-all"]
Inductive json :=
| JNull
| JBool (b : bool)
| JInt (z : Z)
| JStr (s : string)
| JList (items : list json)
| JDict (members : list (string * json)).

(** The double quote and the line feed, as one-character strings. *)
Definition DQ : string := String (Ascii.ascii_of_N 34) EmptyString.
Definition LF : string := String (Ascii.ascii_of_N 10) EmptyString.

Definition hex_digit (n : N) : Ascii.ascii :=
  Ascii.ascii_of_N (if (n <? 10)%N then 48 + n else 87 + n).

(** One character of a string under [ensure_ascii=True]
    ([json.encoder.py_encode_basestring_ascii]). *)
Definition escape_char (c : Ascii.ascii) : string :=
  let n := Ascii.N_of_ascii c in
  if (n =? 34)%N then "\" +:+ DQ
  else if (n =? 92)%N then "\\"
  else if (n =? 8)%N then "\b"
  else if (n =? 12)%N then "\f"
  else if (n =? 10)%N then "\n"
  else if (n =? 13)%N then "\r"
  else if (n =? 9)%N then "\t"
  else if ((32 <=? n) && (n <=? 126))%N then String c EmptyString
  else "\u00" +:+ String (hex_digit (n / 16)) (String (hex_digit (n mod 16)) EmptyString).

Fixpoint escape_string (s : string) : string :=
  match s with
  | EmptyString => EmptyString
  | String c r => escape_char c +:+ escape_string r
  end.

Definition quote (s : string) : string := DQ +:+ escape_string s +:+ DQ.

(** [sep.join(parts)]. *)
Fixpoint str_join (sep : string) (parts : list string) : string :=
  match parts with
  | [] => EmptyString
  | [p] => p
  | p :: rest => p +:+ sep +:+ str_join sep rest
  end.

(** [json.dumps(v)] with the default separators [", "] and [": "]: the
    text that the call returns when it returns (for when it raises, see
    [json_dumps_raises]). *)
Fixpoint json_dumps (v : json) : string :=
  match v with
  | JNull => "null"
  | JBool true => "true"
  | JBool false => "false"
  | JInt z => pretty z
  | JStr s => quote s
  | JList items => "[" +:+ str_join ", " (List.map json_dumps items) +:+ "]"
  | JDict members =>
      "{" +:+ str_join ", " (List.map (fun kv => quote (fst kv) +:+ ": " +:+ json_dumps (snd kv)) members) +:+ "}"
  end.

(** A text without line feed. *)
Fixpoint one_line (s : string) : bool :=
  match s with
  | EmptyString => true
  | String c r => negb (N.eqb (Ascii.N_of_ascii c) 10) && one_line r
  end.

(** One server-sent event: a [data:] line and the blank line that ends it. *)
Definition one_event (frame : string) : Prop :=
  exists body, frame = "data: " +:+ body +:+ LF +:+ LF /\ one_line body = true.

(** [template.format(gpt_id=g)] for a template whose only braces are those
    of fields [{gpt_id}] (see [plain_template]): each occurrence of the
    field becomes [g].  [skip] counts the characters of a field still to be
    passed over. *)
Fixpoint format_field (skip : nat) (template g : string) : string :=
  match template with
  | EmptyString => EmptyString
  | String c r =>
      match skip with
      | S k => format_field k r g
      | O =>
          if String.prefix "{gpt_id}" template
          then g +:+ format_field 7 r g
          else String c (format_field 0 r g)
      end
  end.

Definition format_gpt_id (template g : string) : string := format_field 0 template g.

(** The templates on which [format_gpt_id] is [str.format]: every brace
    belongs to a field [{gpt_id}].  On any other brace [str.format] does
    something else: it unescapes [{{] and [}}], applies a conversion or a
    format specification, or raises ([KeyError] for another field name,
    [IndexError] for a positional field, [ValueError] for a single brace). *)
Fixpoint plain_template (skip : nat) (template : string) : bool :=
  match template with
  | EmptyString => true
  | String c r =>
      match skip with
      | S k => plain_template k r
      | O =>
          if String.prefix "{gpt_id}" template
          then plain_template 7 r
          else negb (Ascii.eqb c "{") && negb (Ascii.eqb c "}") && plain_template 0 r
      end
  end.

(** [str(b)] and [len(xs)] inside an f-string. *)
Definition str_bool (b : bool) : string := if b then "True" else "False".
Definition str_len {A} (xs : list A) : string := pretty (length xs).

(** ** Identifier derivation *)

(** [get_session_id]: ['@'] and ['.'] of the e-mail become ['_']. *)
Definition get_session_id (user_email gpt_id : string) : string :=
  let email_part := replace_char "."%char "_"%char (replace_char "@"%char "_"%char user_email) in
  "user_" +:+ email_part +:+ "_gpt_" +:+ gpt_id.

(** ** The engine handle

    Modelled from the spec: the class [rag.EnhancedRAG] is not part of this
    file.  An instance is the record of its constructor's keyword arguments;
    the three [default_*] attributes are the ones the registry assigns to
    on a later resolve (the "mutable defaults" of a TenantSession). *)

Record EnhancedRAG := {
  gpt_id : string;
  openai_api_key : string;
  default_llm_model_name : string;
  qdrant_url : string;
  qdrant_api_key : option string;
  temp_processing_path : string;
  default_system_prompt : option string;
  default_use_hybrid_search : option bool }.

Definition set_default_llm_model_name (v : string) (r : EnhancedRAG) : EnhancedRAG :=
  {| gpt_id := gpt_id r; openai_api_key := openai_api_key r;
     default_llm_model_name := v;
     qdrant_url := qdrant_url r; qdrant_api_key := qdrant_api_key r;
     temp_processing_path := temp_processing_path r;
     default_system_prompt := default_system_prompt r;
     default_use_hybrid_search := default_use_hybrid_search r |}.

Definition set_default_system_prompt (v : option string) (r : EnhancedRAG) : EnhancedRAG :=
  {| gpt_id := gpt_id r; openai_api_key := openai_api_key r;
     default_llm_model_name := default_llm_model_name r;
     qdrant_url := qdrant_url r; qdrant_api_key := qdrant_api_key r;
     temp_processing_path := temp_processing_path r;
     default_system_prompt := v;
     default_use_hybrid_search := default_use_hybrid_search r |}.

Definition set_default_use_hybrid_search (v : option bool) (r : EnhancedRAG) : EnhancedRAG :=
  {| gpt_id := gpt_id r; openai_api_key := openai_api_key r;
     default_llm_model_name := default_llm_model_name r;
     qdrant_url := qdrant_url r; qdrant_api_key := qdrant_api_key r;
     temp_processing_path := temp_processing_path r;
     default_system_prompt := default_system_prompt r;
     default_use_hybrid_search := v |}.

(** ** The process state *)

(** Object identity of an [EnhancedRAG] instance. *)
Definition loc := nat.

(** What the process does to the outside, in the order it does it. *)
Inductive event :=
| Printed (line : string)
| Constructed (l : loc) (g : string)
| Downloaded (url : string)
| Uploaded (filename : string) (is_user_doc : bool)
| UpdateKnowledgeBase (l : loc) (keys : list string)
| UpdateUserDocuments (l : loc) (session_id : string) (keys : list string)
| ClearAllContext (l : loc)
| Rmtree (path : string).

Record world := {
  environ : gmap string string;          (* os.environ *)
  active_rag_sessions : gmap string loc; (* the module-level dict *)
  heap : gmap loc EnhancedRAG;           (* the instances, by identity *)
  next_loc : loc;                        (* the next fresh identity *)
  fs : gset string;                      (* the local disk: its entries, by path *)
  trace : list event }.

Definition with_sessions (m : gmap string loc) (w : world) : world :=
  {| environ := environ w; active_rag_sessions := m; heap := heap w;
     next_loc := next_loc w; fs := fs w; trace := trace w |}.

Definition with_heap (h : gmap loc EnhancedRAG) (n : loc) (w : world) : world :=
  {| environ := environ w; active_rag_sessions := active_rag_sessions w; heap := h;
     next_loc := n; fs := fs w; trace := trace w |}.

Definition with_fs (f : gset string) (w : world) : world :=
  {| environ := environ w; active_rag_sessions := active_rag_sessions w; heap := heap w;
     next_loc := next_loc w; fs := f; trace := trace w |}.

Definition with_trace (t : list event) (w : world) : world :=
  {| environ := environ w; active_rag_sessions := active_rag_sessions w; heap := heap w;
     next_loc := next_loc w; fs := fs w; trace := t |}.

(** The world after some more events. *)
Definition log (evs : list event) (w : world) : world :=
  with_trace (trace w ++ evs) w.

(** ** Exceptions and the monad *)

(** The exceptions that the code raises or catches, with what [str(e)]
    needs.  [Exception] stands for an exception of any other class below
    [Exception] ([OSError], [TypeError], [RecursionError], an error of the
    engine or of the store), with its text. *)
Inductive exn :=
| ValueError (msg : string)
| KeyError (key : string)
| Exception (msg : string).

(** [repr(s)] of a [str]: between double quotes when the text holds a
    single quote and no double quote, between single quotes otherwise; the
    quote in use, the backslash, tab, line feed and carriage return are
    escaped, and so is every character that [str.isprintable] rejects
    (below 256: the controls, U+007F to U+00A0 and U+00AD). *)
Fixpoint contains_char (c : Ascii.ascii) (s : string) : bool :=
  match s with
  | EmptyString => false
  | String d r => Ascii.eqb c d || contains_char c r
  end.

Definition repr_char (q c : Ascii.ascii) : string :=
  let n := Ascii.N_of_ascii c in
  if Ascii.eqb c q then String "\"%char (String q EmptyString)
  else if (n =? 92)%N then "\\"
  else if (n =? 9)%N then "\t"
  else if (n =? 10)%N then "\n"
  else if (n =? 13)%N then "\r"
  else if ((n <? 32) || (n =? 127) || (128 <=? n) && (n <=? 160) || (n =? 173))%N
  then "\x" +:+ String (hex_digit (n / 16)) (String (hex_digit (n mod 16)) EmptyString)
  else String c EmptyString.

Fixpoint repr_chars (q : Ascii.ascii) (s : string) : string :=
  match s with
  | EmptyString => EmptyString
  | String c r => repr_char q c +:+ repr_chars q r
  end.

Definition py_repr (s : string) : string :=
  let q := if contains_char "'" s && negb (contains_char (Ascii.ascii_of_N 34) s)
           then Ascii.ascii_of_N 34 else "'"%char in
  String q (repr_chars q s +:+ String q EmptyString).

(** [str(e)]; the text of a [KeyError] is the [repr] of its key. *)
Definition str_exn (e : exn) : string :=
  match e with
  | ValueError msg => msg
  | KeyError key => py_repr key
  | Exception msg => msg
  end.

Inductive outcome (A : Type) :=
| Returned (a : A)
| Raised (e : exn).
Arguments Returned {A} a.
Arguments Raised {A} e.

(** A computation runs in a world; what it did before raising stays done. *)
Definition M (A : Type) : Type := world -> outcome A * world.

Definition ret {A} (a : A) : M A := fun w => (Returned a, w).

Definition bind {A B} (k : A -> M B) (m : M A) : M B :=
  fun w =>
    match m w with
    | (Returned a, w') => k a w'
    | (Raised e, w') => (Raised e, w')
    end.

#[global] Instance M_ret : MRet M := @ret.
#[global] Instance M_bind : MBind M := @bind.

Definition raise {A} (e : exn) : M A := fun w => (Raised e, w).

(** [try: m  except Exception as e: h e]. *)
Definition try_except {A} (m : M A) (h : exn -> M A) : M A :=
  fun w =>
    match m w with
    | (Returned a, w') => (Returned a, w')
    | (Raised e, w') => h e w'
    end.

Definition get_world : M world := fun w => (Returned w, w).
Definition modify (f : world -> world) : M unit := fun w => (Returned tt, f w).
Definition emit (e : event) : M unit := modify (log [e]).
Definition print (line : string) : M unit := emit (Printed line).

(** [os.getenv(name)] and [os.getenv(name, default)]. *)
Definition getenv (name : string) : M (option string) :=
  w ← get_world; mret (environ w !! name).

Definition getenv_default (name dflt : string) : M string :=
  w ← get_world; mret (default dflt (environ w !! name)).

(** A keyword argument of a call: left out, or given a value.  A parameter
    that is left out takes the default of the [def] line. *)
Inductive arg (A : Type) :=
| Omitted
| Given (a : A).
Arguments Omitted {A}.
Arguments Given {A} a.

Definition arg_default {A} (dflt : A) (a : arg A) : A :=
  match a with
  | Omitted => dflt
  | Given v => v
  end.

(** ** SessionRegistry: [get_or_create_rag_instance] *)

Section App.

(** [LOCAL_DATA_BASE_PATH], read from the environment once, at import. *)
Variable LOCAL_DATA_BASE_PATH : string.

Definition LOCAL_KB_INDEX_PATH_TEMPLATE : string :=
  path_join (path_join LOCAL_DATA_BASE_PATH "kb_indexes") "{gpt_id}".
Definition TEMP_DOWNLOAD_PATH : string :=
  path_join LOCAL_DATA_BASE_PATH "temp_downloads".

(** [active_rag_sessions[gpt_id]]. *)
Definition sessions_getitem (gpt_id : string) : M loc :=
  w ← get_world;
  match active_rag_sessions w !! gpt_id with
  | Some l => mret l
  | None => raise (KeyError gpt_id)
  end.

(** [active_rag_sessions[gpt_id] = EnhancedRAG(...)]: a new object, then
    the dict entry. *)
Definition sessions_setitem_new (gpt_id : string) (r : EnhancedRAG) : M unit :=
  w ← get_world;
  let l := next_loc w in
  modify (with_heap (<[l := r]> (heap w)) (S l));;
  emit (Constructed l gpt_id);;
  modify (fun w => with_sessions (<[gpt_id := l]> (active_rag_sessions w)) w).

(** [obj.attr = v] through a setter. *)
Definition setattr (l : loc) (f : EnhancedRAG -> EnhancedRAG) : M unit :=
  modify (fun w => with_heap (alter f l (heap w)) (next_loc w) w).

Definition when (b : bool) (m : M unit) : M unit := if b then m else mret tt.

(** The body of [async with sessions_lock:].  It contains no [await], so
    once the lock is taken it runs to its end without interleaving. *)
Definition get_or_create_rag_instance
    (user_email gpt_id : string)
    (gpt_name : arg (option string))
    (default_model : arg (option string))
    (default_system_prompt : arg (option string))
    (default_use_hybrid_search : arg (option bool)) : M loc :=
  let gpt_name := arg_default (Some "default_gpt") gpt_name in
  let default_model := arg_default None default_model in
  let default_system_prompt := arg_default None default_system_prompt in
  let default_use_hybrid_search := arg_default (Some false) default_use_hybrid_search in
  w ← get_world;
  match active_rag_sessions w !! gpt_id with
  | None =>
      print ("Creating new EnhancedRAG instance for gpt_id: " +:+ gpt_id);;
      openai_api_key ← getenv "OPENAI_API_KEY";
      if negb (truthy openai_api_key)
      then raise (ValueError "OPENAI_API_KEY not set in environment.")
      else
        qdrant_url ← getenv "QDRANT_URL";
        qdrant_api_key ← getenv "QDRANT_API_KEY";
        if negb (truthy qdrant_url)
        then raise (ValueError "QDRANT_URL not set in environment.")
        else
          fallback_model ← getenv_default "DEFAULT_OPENAI_MODEL" "gpt-4o";
          sessions_setitem_new gpt_id
            {| gpt_id := gpt_id;
               openai_api_key := default EmptyString openai_api_key;
               default_llm_model_name := py_or default_model fallback_model;
               qdrant_url := default EmptyString qdrant_url;
               qdrant_api_key := qdrant_api_key;
               temp_processing_path := TEMP_DOWNLOAD_PATH;
               default_system_prompt := default_system_prompt;
               default_use_hybrid_search := default_use_hybrid_search |}
  | Some rag_instance =>
      when (truthy default_model)
        (setattr rag_instance (set_default_llm_model_name (default EmptyString default_model)));;
      when (truthy default_system_prompt)
        (setattr rag_instance (set_default_system_prompt default_system_prompt));;
      when (bool_decide (default_use_hybrid_search <> None))
        (setattr rag_instance (set_default_use_hybrid_search default_use_hybrid_search));;
      print ("Reusing EnhancedRAG instance for gpt_id: " +:+ gpt_id +:+ ". Updated defaults if provided.")
  end;;
  sessions_getitem gpt_id.

(** ** Collaborators

    [storage.CloudflareR2Storage] and the engine methods of [EnhancedRAG]
    are outside this file; each is an oracle for what the call returns or
    raises.  What a call does inside the store or the engine, to their own
    state or to their files, is not part of the model: the state of
    [world] changes only by what this file does to it.  The two storage
    calls return a pair [(success, path_or_error)]. *)

Variable upload_file : string -> string -> bool -> outcome (bool * string).
Variable download_file_from_url : string -> bool * string.
Variable update_knowledge_base_from_r2 : loc -> list string -> outcome unit.
Variable update_user_documents_from_r2 : loc -> string -> list string -> outcome unit.
Variable clear_all_context : loc -> outcome unit.

Definition lift {A} (o : outcome A) : M A := fun w => (o, w).

(** [rag.gpt_id]. *)
Definition getattr_gpt_id (l : loc) : M string :=
  w ← get_world; mret (default EmptyString (gpt_id <$> heap w !! l)).

Definition call_update_knowledge_base (rag : loc) (keys : list string) : M unit :=
  emit (UpdateKnowledgeBase rag keys);;
  lift (update_knowledge_base_from_r2 rag keys).

Definition call_update_user_documents (rag : loc) (session_id : string) (keys : list string) : M unit :=
  emit (UpdateUserDocuments rag session_id keys);;
  lift (update_user_documents_from_r2 rag session_id keys).

(** A [for] loop that threads the loop's local variables. *)
Fixpoint for_each {A B} (xs : list A) (body : B -> A -> M B) (acc : B) : M B :=
  match xs with
  | [] => mret acc
  | x :: rest => acc' ← body acc x; for_each rest body acc'
  end.

(** ** IngestionPipeline *)

(** A [fastapi.UploadFile]: its name and what [await file.read()] gives. *)
Record UploadFile := {
  filename : string;
  read : outcome string }.

Record FileUploadInfoResponse := {
  info_filename : string;
  stored_url_or_key : string;
  status : string;
  error_message : option string }.

Definition _process_uploaded_file_to_r2 (file : UploadFile) (is_user_doc : bool)
  : M FileUploadInfoResponse :=
  try_except
    (file_content ← lift (read file);
     emit (Uploaded (filename file) is_user_doc);;
     r ← lift (upload_file file_content (filename file) is_user_doc);
     let '(success, r2_path_or_error) := r in
     if success : bool then
       print ("File '" +:+ filename file +:+ "' (is_user_doc=" +:+ str_bool is_user_doc
              +:+ ") stored at: " +:+ r2_path_or_error);;
       mret {| info_filename := filename file; stored_url_or_key := r2_path_or_error;
               status := "success"; error_message := None |}
     else
       print ("Failed to store file '" +:+ filename file +:+ "'. Error: " +:+ r2_path_or_error);;
       mret {| info_filename := filename file; stored_url_or_key := EmptyString;
               status := "failure"; error_message := Some r2_path_or_error |})
    (fun e =>
       print ("Exception processing file '" +:+ filename file +:+ "': " +:+ str_exn e);;
       mret {| info_filename := filename file; stored_url_or_key := EmptyString;
               status := "failure"; error_message := Some (str_exn e) |}).

(** What an endpoint hands back: a JSON response with its status code. *)
Record response := {
  status_code : Z;
  content : json }.

(** An endpoint returns its response together with the tasks it gave to
    [background_tasks.add_task]; they run after the response is sent, one
    after the other, and what they raise does not reach the caller. *)
Definition handled : Type := response * list (M unit).

(** What a caller sees as a hard failure of a request: an exception that
    escapes the handler, or a response with a 4xx or 5xx status. *)
Definition hard_failure (o : outcome response) : bool :=
  match o with
  | Raised _ => true
  | Returned r => (400 <=? status_code r)%Z
  end.

Definition serve (endpoint : M handled) : M response :=
  h ← endpoint;
  try_except (for_each (snd h) (fun _ task => task) tt) (fun _ => mret tt);;
  mret (fst h).

Record GptContextSetupRequest := {
  setup_user_email : string;
  setup_gpt_id : string;
  setup_gpt_name : option string;
  kb_document_urls : option (list string);
  default_model : option string;
  setup_default_system_prompt : option string;
  setup_default_use_hybrid_search : option bool }.

Definition valid_kb_url (url : string) : bool :=
  startswith url "http://" || startswith url "https://".


(** One round of the loop of [_process_kb_urls_task]; the loop variable
    is the list [r2_kb_keys_or_urls_for_indexing]. *)
Definition kb_url_round (keys : list string) (url : string) : M (list string) :=
  if negb (valid_kb_url url) then
    print ("Skipping invalid KB URL: " +:+ url);;
    mret keys
  else
    emit (Downloaded url);;
    let '(success, r2_path) := download_file_from_url url in
    if success : bool then
      print ("KB URL '" +:+ url +:+ "' processed to R2: " +:+ r2_path);;
      mret (keys ++ [r2_path])
    else
      print ("Failed to process KB URL '" +:+ url +:+ "'. Error: " +:+ r2_path);;
      mret keys.

(** The task of [setup_gpt_context_endpoint]. *)
Definition _process_kb_urls_task (urls : list string) (rag : loc) : M unit :=
  g ← getattr_gpt_id rag;
  print ("BG Task: Processing " +:+ str_len urls +:+ " KB URLs for gpt_id '" +:+ g +:+ "'...");;
  r2_kb_keys_or_urls_for_indexing ← for_each urls kb_url_round [];
  match r2_kb_keys_or_urls_for_indexing with
  | [] => mret tt
  | _ :: _ =>
      try_except
        (call_update_knowledge_base rag r2_kb_keys_or_urls_for_indexing)
        (fun e =>
           g ← getattr_gpt_id rag;
           print ("Error indexing KB documents for gpt_id '" +:+ g +:+ "': " +:+ str_exn e))
  end.

Definition setup_gpt_context_endpoint (request : GptContextSetupRequest) : M handled :=
  rag_instance ← get_or_create_rag_instance
    (setup_user_email request) (setup_gpt_id request)
    (Given (setup_gpt_name request))
    (Given (default_model request))
    (Given (setup_default_system_prompt request))
    (Given (setup_default_use_hybrid_search request));
  match kb_document_urls request with
  | Some (u :: us) =>
      let urls := u :: us in
      mret ({| status_code := 202;
               content := JDict
                 [("message", JStr ("KB processing for gpt_id '" +:+ setup_gpt_id request
                                    +:+ "' initiated for " +:+ str_len urls +:+ " URLs."));
                  ("gpt_id", JStr (setup_gpt_id request))] |},
            [_process_kb_urls_task urls rag_instance])
  | _ =>
      mret ({| status_code := 200;
               content := JDict
                 [("message", JStr ("No KB URLs provided. RAG instance for gpt_id '"
                                    +:+ setup_gpt_id request +:+ "' is ready."));
                  ("gpt_id", JStr (setup_gpt_id request))] |},
            [])
  end.

(** [r.model_dump()]. *)
Definition model_dump (r : FileUploadInfoResponse) : json :=
  JDict [("filename", JStr (info_filename r));
         ("stored_url_or_key", JStr (stored_url_or_key r));
         ("status", JStr (status r));
         ("error_message", match error_message r with Some m => JStr m | None => JNull end)].

(** [result.status == "success" and result.stored_url_or_key]. *)
Definition stored (result : FileUploadInfoResponse) : bool :=
  String.eqb (status result) "success" && negb (String.eqb (stored_url_or_key result) EmptyString).

Definition doc_type (is_user_specific : bool) : string :=
  if is_user_specific then "user-specific" else "knowledge base".

(** One round of the upload loop of [upload_documents_endpoint]; the loop
    variables are [processing_results] and [r2_keys_or_urls_for_indexing]. *)
Definition upload_round (is_user_doc_bool : bool)
    (acc : list FileUploadInfoResponse * list string) (file_upload : UploadFile)
  : M (list FileUploadInfoResponse * list string) :=
  result ← _process_uploaded_file_to_r2 file_upload is_user_doc_bool;
  let processing_results := fst acc ++ [result] in
  mret (processing_results,
        if stored result then snd acc ++ [stored_url_or_key result] else snd acc).

Definition _index_documents_task (rag : loc) (keys_or_urls : list string)
    (is_user_specific : bool) (u_email g_id : string) : M unit :=
  let s_id := get_session_id u_email g_id in
  g ← getattr_gpt_id rag;
  print ("BG Task: Indexing " +:+ str_len keys_or_urls +:+ " " +:+ doc_type is_user_specific
         +:+ " documents for gpt_id '" +:+ g +:+ "' (session '" +:+ s_id +:+ "')...");;
  try_except
    ((if is_user_specific
      then call_update_user_documents rag s_id keys_or_urls
      else call_update_knowledge_base rag keys_or_urls);;
     print ("BG Task: Indexing complete for " +:+ doc_type is_user_specific +:+ " documents."))
    (fun e =>
       g ← getattr_gpt_id rag;
       print ("BG Task: Error indexing " +:+ doc_type is_user_specific
              +:+ " documents for gpt_id '" +:+ g +:+ "': " +:+ str_exn e)).

Definition upload_documents_endpoint (files : list UploadFile)
    (user_email gpt_id is_user_document : string) : M handled :=
  let is_user_doc_bool := String.eqb (lower is_user_document) "true" in
  acc ← for_each files (upload_round is_user_doc_bool) ([], []);
  let '(processing_results, r2_keys_or_urls_for_indexing) := acc in
  match r2_keys_or_urls_for_indexing with
  | [] =>
      mret ({| status_code := 400;
               content := JDict
                 [("message", JStr "No files were successfully uploaded to R2.");
                  ("upload_results", JList (List.map model_dump processing_results))] |},
            [])
  | _ :: _ =>
      rag_instance ← get_or_create_rag_instance user_email gpt_id Omitted Omitted Omitted Omitted;
      mret ({| status_code := 202;
               content := JDict
                 [("message", JStr (str_len r2_keys_or_urls_for_indexing +:+ " files accepted for "
                                    +:+ doc_type is_user_doc_bool
                                    +:+ " indexing. Processing in background."));
                  ("upload_results", JList (List.map model_dump processing_results))] |},
            [_index_documents_task rag_instance r2_keys_or_urls_for_indexing
               is_user_doc_bool user_email gpt_id])
  end.

(** One round of the upload loop of [upload_chat_files_endpoint]. *)
Definition chat_upload_round (is_user_doc_bool : bool)
    (acc : list FileUploadInfoResponse * list string) (file_upload : UploadFile)
  : M (list FileUploadInfoResponse * list string) :=
  result ← _process_uploaded_file_to_r2 file_upload is_user_doc_bool;
  let file_urls := if stored result then snd acc ++ [stored_url_or_key result] else snd acc in
  mret (fst acc ++ [result], file_urls).

Definition JStrs (xs : list string) : json := JList (List.map JStr xs).

Definition ok (body : json) : response := {| status_code := 200; content := body |}.

Definition upload_chat_files_endpoint (files : list UploadFile)
    (user_email gpt_id gpt_name collection_name
     is_user_document use_hybrid_search optimize_pdfs : string) : M handled :=
  let is_user_doc_bool := String.eqb (lower is_user_document) "true" in
  acc ← for_each files (chat_upload_round is_user_doc_bool) ([], []);
  let file_urls := snd acc in
  rag_instance ← get_or_create_rag_instance user_email gpt_id
                   (Given (Some gpt_name)) Omitted Omitted Omitted;
  let finish : M handled :=
    mret (ok (JDict [("success", JBool true);
                     ("message", JStr ("Processed and indexed " +:+ str_len file_urls +:+ " files"));
                     ("file_urls", JStrs file_urls);
                     ("processing", JBool (0 <? length file_urls)%nat)]),
          []) in
  match file_urls with
  | [] => finish
  | _ :: _ =>
      let session_id := get_session_id user_email gpt_id in
      indexed ← try_except
        ((if is_user_doc_bool
          then call_update_user_documents rag_instance session_id file_urls
          else call_update_knowledge_base rag_instance file_urls);;
         print ("Indexing complete for " +:+ str_len file_urls +:+ " " +:+ doc_type is_user_doc_bool
                +:+ " documents for session '" +:+ session_id +:+ "'.");;
         mret (None : option exn))
        (fun e =>
           print ("Error indexing chat files for session '" +:+ session_id +:+ "': " +:+ str_exn e);;
           mret (Some e));
      match indexed with
      | Some e =>
          mret (ok (JDict [("success", JBool false);
                           ("message", JStr ("Failed to index " +:+ str_len file_urls
                                             +:+ " files: " +:+ str_exn e));
                           ("file_urls", JStrs file_urls);
                           ("processing", JBool false)]),
                [])
      | None => finish
      end
  end.

(** The task of [gpt_opened_endpoint]: the same loop without the log lines. *)
Definition opened_url_round (keys : list string) (url : string) : M (list string) :=
  if valid_kb_url url then
    emit (Downloaded url);;
    let '(success, r2_path) := download_file_from_url url in
    mret (if success : bool then keys ++ [r2_path] else keys)
  else mret keys.

Definition _process_kb_urls_task_opened (urls : list string) (rag : loc) : M unit :=
  r2_kb_keys_or_urls_for_indexing ← for_each urls opened_url_round [];
  match r2_kb_keys_or_urls_for_indexing with
  | [] => mret tt
  | _ :: _ =>
      try_except
        (call_update_knowledge_base rag r2_kb_keys_or_urls_for_indexing)
        (fun e =>
           g ← getattr_gpt_id rag;
           print ("Error indexing KB documents for gpt_id '" +:+ g +:+ "': " +:+ str_exn e))
  end.

(** ** StreamingChatController *)

(** The engine's [query_stream] is an asynchronous generator.  Its run is
    finite: the chunks it yields, then either normal exhaustion or an
    exception. *)
Inductive ending :=
| Completes
| Fails (e : exn).

Record engine_stream := {
  chunks : list json;
  ending_of : ending }.

Inductive pulled :=
| Yield (chunk : json)
| StopAsyncIteration
| Throw (e : exn).

(** [await stream.__anext__()]; an exhausted or failed generator stays
    exhausted. *)
Definition engine_anext (s : engine_stream) : pulled * engine_stream :=
  match chunks s with
  | chunk :: rest => (Yield chunk, {| chunks := rest; ending_of := ending_of s |})
  | [] =>
      match ending_of s with
      | Completes => (StopAsyncIteration, s)
      | Fails e => (Throw e, {| chunks := []; ending_of := Completes |})
      end
  end.

Record query_kwargs := {
  q_session_id : string;
  q_query : string;
  q_chat_history : option (list (list (string * string)));
  q_user_r2_document_keys : option (list string);
  q_use_hybrid_search : option bool;
  q_llm_model_name : option string;
  q_system_prompt_override : option string;
  q_enable_web_search : option bool }.

Variable query_stream : loc -> query_kwargs -> engine_stream.

Record ChatStreamRequest := {
  chat_user_email : string;
  chat_gpt_id : string;
  chat_gpt_name : option string;
  message : string;
  history : option (list (list (string * string)));
  user_document_keys : option (list string);
  use_hybrid_search : option bool;
  model : option string;
  system_prompt : option string;
  web_search_enabled : option bool;
  memory : option (list (list (string * string))) }.

(** [json.dumps(chunk)] at line 310 can raise even on a value of [json]:
    a [ValueError] for an integer of more than 4300 digits (the limit of
    the interpreter on the conversion of integers to text), a
    [RecursionError] for a value nested deeper than the stack allows; and
    the engine may yield a fragment that is no JSON value at all, for which
    the call raises a [TypeError].  What the call raises on a fragment, if
    anything, is an oracle; such a fragment stands in [chunks] as any value
    on which the oracle answers with the error.  When the call raises
    nothing its result is [json_dumps chunk].  On the error chunk of the
    handler, a dictionary of strings two levels deep, the call returns. *)
Variable json_dumps_raises : json -> option exn.

(** [f"data: {json.dumps(chunk)}\n\n"]. *)
Definition sse_frame (chunk : json) : string :=
  "data: " +:+ json_dumps chunk +:+ LF +:+ LF.

Definition error_chunk (e : exn) : json :=
  JDict [("type", JStr "error"); ("data", JDict [("error", JStr (str_exn e))])].

(** Where the coroutine of [generate] stands: not started, suspended at
    the [yield] of the loop body (inside the [try]), suspended at the
    [yield] of the [except] handler, or past its end. *)
Inductive gen_pc :=
| NotStarted
| InLoop
| InHandler
| Closed.

Record generator := {
  pc : gen_pc;
  inner : engine_stream }.

Definition generate (rag_instance : loc) (session_id : string) (request : ChatStreamRequest)
  : generator :=
  {| pc := NotStarted;
     inner := query_stream rag_instance
       {| q_session_id := session_id;
          q_query := message request;
          q_chat_history := history request;
          q_user_r2_document_keys := user_document_keys request;
          q_use_hybrid_search := use_hybrid_search request;
          q_llm_model_name := model request;
          q_system_prompt_override := system_prompt request;
          q_enable_web_search := web_search_enabled request |} |}.

(** [await gen.__anext__()]: run [generate] up to its next [yield].  The
    frame is [None] when the generator is exhausted.  An exception of the
    engine's generator and an exception of [json.dumps] on the fragment it
    gave are both raised inside the [try]: the handler yields the error
    frame, and the loop is left for good.  The handler's [print] goes to
    the log, not to the stream, and is left out. *)
Definition anext (g : generator) : option string * generator :=
  match pc g with
  | NotStarted | InLoop =>
      match engine_anext (inner g) with
      | (Yield chunk, s) =>
          match json_dumps_raises chunk with
          | None => (Some (sse_frame chunk), {| pc := InLoop; inner := s |})
          | Some e => (Some (sse_frame (error_chunk e)), {| pc := InHandler; inner := s |})
          end
      | (StopAsyncIteration, s) => (None, {| pc := Closed; inner := s |})
      | (Throw e, s) => (Some (sse_frame (error_chunk e)), {| pc := InHandler; inner := s |})
      end
  | InHandler => (None, {| pc := Closed; inner := inner g |})
  | Closed => (None, g)
  end.

(** What can be raised at the point where the generator stands:
    [GeneratorExit] and [asyncio.CancelledError] derive from
    [BaseException] only, the others are [Exception]s. *)
Inductive thrown :=
| GeneratorExit
| CancelledError
| Error (e : exn).

(** [await gen.athrow(t)].  Only at the [yield] of the loop body is the
    generator inside the [try], and [except Exception] takes an [Error]
    alone: the handler then yields its frame.  Everything else leaves the
    generator, which is then finished.  The engine's stream is not stepped. *)
Definition athrow (t : thrown) (g : generator) : option string * generator :=
  match pc g, t with
  | InLoop, Error e => (Some (sse_frame (error_chunk e)), {| pc := InHandler; inner := inner g |})
  | Closed, _ => (None, g)
  | _, _ => (None, {| pc := Closed; inner := inner g |})
  end.

(** [await gen.aclose()]: what ends a generator whose consumer is gone. *)
Definition aclose (g : generator) : option string * generator := athrow GeneratorExit g.

(** The consumer of the response body: read at most [n] frames. *)
Fixpoint consume (n : nat) (g : generator) : list string * generator :=
  match n with
  | O => ([], g)
  | S n' =>
      match anext g with
      | (Some frame, g') =>
          let '(frames, g'') := consume n' g' in (frame :: frames, g'')
      | (None, g') => ([], g')
      end
  end.

(** Read [n] frames, then disconnect; a frame that the closing produced
    would count as emitted. *)
Definition consume_then_disconnect (n : nat) (g : generator) : list string * generator :=
  let '(frames, g') := consume n g in
  let '(last, g'') := aclose g' in
  (frames ++ option_list last, g'').

Inductive chat_stream_result :=
| JSONResponse (r : response)
| StreamingResponse (body : generator) (headers : list (string * string)).

(** [s * n] for a string [s]. *)
Fixpoint str_mul (s : string) (n : nat) : string :=
  match n with
  | O => EmptyString
  | S k => s +:+ str_mul s k
  end.

(** Truthiness of an [Optional[bool]]. *)
Definition truthy_bool (o : option bool) : bool := default false o.

(** The handler of [/chat-stream].  The banner is printed once the tenant
    is resolved; its pictographs are above code point 255 and stand in the
    log as their UTF-8 bytes. *)
Definition chat_stream (request : ChatStreamRequest) : M chat_stream_result :=
  try_except
    (rag_instance ← get_or_create_rag_instance
       (chat_user_email request) (chat_gpt_id request)
       (Given (chat_gpt_name request))
       (Given (model request))
       (Given (system_prompt request))
       (Given (use_hybrid_search request));
     let session_id := get_session_id (chat_user_email request) (chat_gpt_id request) in
     print (LF +:+ str_mul "=" 40);;
     print ("📝 New chat request from user: " +:+ chat_user_email request);;
     print ("🔍 GPT ID: " +:+ chat_gpt_id request);;
     print ("💬 Query: '" +:+ message request +:+ "'");;
     (if truthy_bool (web_search_enabled request)
      then print "🌐 Web search requested: ENABLED"
      else print "🌐 Web search requested: DISABLED");;
     print (str_mul "=" 40 +:+ LF);;
     let headers := [("Content-Type", "text/event-stream");
                     ("Cache-Control", "no-cache");
                     ("Connection", "keep-alive")] in
     mret (StreamingResponse (generate rag_instance session_id request) headers))
    (fun e =>
       print ("❌ Error in /chat-stream endpoint: " +:+ str_exn e);;
       mret (JSONResponse
               {| status_code := 500;
                  content := JDict [("success", JBool false); ("error", JStr (str_exn e))] |})).

(** ** Reset *)

(** [active_rag_sessions.pop(gpt_id)]. *)
Definition sessions_pop (gpt_id : string) : M loc :=
  l ← sessions_getitem gpt_id;
  modify (fun w => with_sessions (delete gpt_id (active_rag_sessions w)) w);;
  mret l.

Definition call_clear_all_context (rag : loc) : M unit :=
  emit (ClearAllContext rag);;
  lift (clear_all_context rag).

(** [LOCAL_KB_INDEX_PATH_TEMPLATE.format(gpt_id=gpt_id)].  The template
    ends with the field [{gpt_id}]; it holds other braces when
    [LOCAL_DATA_BASE_PATH] does, and what [str.format] makes of those, a
    text or an exception, is an oracle. *)
Variable format_other : string -> string -> outcome string.

Definition str_format (template gpt_id : string) : outcome string :=
  if plain_template 0 template
  then Returned (format_gpt_id template gpt_id)
  else format_other template gpt_id.

(** [os.path.exists(path)] and [shutil.rmtree(path)].  How the operating
    system reads a path text on the disk (a relative path, [..], a
    trailing slash, a link) and what the removal does to the disk are
    oracles.  [shutil.rmtree] raises an [OSError] when the path is a file
    and no directory or when an entry cannot be removed; what it removed
    before it raised stays removed, so it gives the disk it leaves in both
    cases. *)
Variable os_path_exists : string -> gset string -> bool.
Variable shutil_rmtree : string -> gset string -> outcome unit * gset string.

Definition path_exists (path : string) : M bool :=
  w ← get_world; mret (os_path_exists path (fs w)).

Definition rmtree (path : string) : M unit :=
  emit (Rmtree path);;
  w ← get_world;
  modify (with_fs (shutil_rmtree path (fs w)).2);;
  lift (shutil_rmtree path (fs w)).1.

Definition dev_reset_gpt_context_endpoint (gpt_id : string) : M response :=
  environment_type ← getenv_default "ENVIRONMENT_TYPE" "production";
  if negb (String.eqb (lower environment_type) "development") then
    mret {| status_code := 403;
            content := JDict [("error", JStr "Endpoint only available in development.")] |}
  else
    w ← get_world;
    match active_rag_sessions w !! gpt_id with
    | Some _ =>
        try_except
          (rag_instance_to_reset ← sessions_pop gpt_id;
           call_clear_all_context rag_instance_to_reset;;
           kb_index_path_to_delete ← lift (str_format LOCAL_KB_INDEX_PATH_TEMPLATE gpt_id);
           there ← path_exists kb_index_path_to_delete;
           when there (rmtree kb_index_path_to_delete);;
           print ("DEV: Cleared in-memory RAG context and local KB index for gpt_id '"
                  +:+ gpt_id +:+ "'. R2 files not deleted.");;
           mret (ok (JDict [("status", JStr "success");
                            ("message", JStr ("RAG context for gpt_id '" +:+ gpt_id
                                              +:+ "' cleared from memory and local disk."))])))
          (fun e =>
             print ("DEV: Error clearing context for gpt_id '" +:+ gpt_id +:+ "': " +:+ str_exn e);;
             mret {| status_code := 500;
                     content := JDict [("status", JStr "error"); ("message", JStr (str_exn e))] |})
    | None =>
        mret {| status_code := 404;
                content := JDict [("status", JStr "not_found");
                                  ("message", JStr ("No active RAG context for gpt_id '"
                                                    +:+ gpt_id +:+ "'."))] |}
    end.

(** ** Concurrent resolves

    Request handlers are asyncio tasks; one runs until it awaits.  A call
    of [get_or_create_rag_instance] awaits only to take [sessions_lock];
    with the lock in hand its body runs to the end and the lock is given
    back.  A scheduler step therefore picks any waiting call, provided the
    lock is free, and runs it whole. *)

Record resolve_call := {
  call_user_email : string;
  call_gpt_id : string;
  call_gpt_name : arg (option string);
  call_default_model : arg (option string);
  call_default_system_prompt : arg (option string);
  call_default_use_hybrid_search : arg (option bool) }.

Definition run_call (c : resolve_call) : M loc :=
  get_or_create_rag_instance (call_user_email c) (call_gpt_id c) (call_gpt_name c)
    (call_default_model c) (call_default_system_prompt c) (call_default_use_hybrid_search c).

Inductive task :=
| Waiting (c : resolve_call)
| Finished (c : resolve_call) (r : outcome loc).

(** [sessions_lock] is true while some task holds the lock.  Between two
    steps of a pool of resolves it never is; the reset endpoint, the only
    other user of the lock, keeps it over its [await], and a reset between
    two resolves of a key makes them return different handles, which is why
    the pool holds resolves only. *)
Record sched := {
  sessions_lock : bool;
  tasks : list task;
  now : world }.

Inductive step : sched -> sched -> Prop :=
| step_resolve (sc : sched) (i : nat) (c : resolve_call) :
    sessions_lock sc = false ->
    tasks sc !! i = Some (Waiting c) ->
    step sc {| sessions_lock := false;
               tasks := <[i := Finished c (run_call c (now sc)).1]> (tasks sc);
               now := (run_call c (now sc)).2 |}.

Definition steps : sched -> sched -> Prop := rtc step.

(** A scheduler that follows a given order: [run_task i] runs task [i] if
    it is waiting and the lock is free, and [run_schedule] does so for each
    index of the order in turn. *)
Definition run_task (i : nat) (sc : sched) : sched :=
  match sessions_lock sc, tasks sc !! i with
  | false, Some (Waiting c) =>
      {| sessions_lock := false;
         tasks := <[i := Finished c (run_call c (now sc)).1]> (tasks sc);
         now := (run_call c (now sc)).2 |}
  | _, _ => sc
  end.

Fixpoint run_schedule (order : list nat) (sc : sched) : sched :=
  match order with
  | [] => sc
  | i :: rest => run_schedule rest (run_task i sc)
  end.

Definition is_waiting (t : task) : bool :=
  match t with
  | Waiting _ => true
  | Finished _ _ => false
  end.

(** ** Resets among the resolves

    The reset endpoint takes [sessions_lock] too, and unlike a resolve it
    awaits inside: the lock is held from the lookup of the key, over the
    [await] of [clear_all_context], to the end of the handler.  A reset is
    therefore two scheduler steps, cut at the [await]. *)

(** The gate stands before the lock. *)
Definition gate_open (w : world) : bool :=
  String.eqb (lower (default "production" (environ w !! "ENVIRONMENT_TYPE"))) "development".

Definition gate_closed : response :=
  {| status_code := 403;
     content := JDict [("error", JStr "Endpoint only available in development.")] |}.

(** The handler up to its [await]: the gate, then, with the lock, the
    lookup and the [pop]; the call of [clear_all_context] is made and the
    task is suspended.  The answer is there already when the gate or the
    lookup says no. *)
Definition reset_enter (gpt_id : string) (w : world) : (response + loc) * world :=
  if negb (gate_open w) then (inl gate_closed, w)
  else
    match active_rag_sessions w !! gpt_id with
    | Some rag_instance_to_reset =>
        (inr rag_instance_to_reset,
         log [ClearAllContext rag_instance_to_reset]
           (with_sessions (delete gpt_id (active_rag_sessions w)) w))
    | None =>
        (inl {| status_code := 404;
                content := JDict [("status", JStr "not_found");
                                  ("message", JStr ("No active RAG context for gpt_id '"
                                                    +:+ gpt_id +:+ "'."))] |},
         w)
    end.

(** The handler from the [await] on: what [clear_all_context] returned or
    raised, the purge of the index directory, the answer. *)
Definition reset_leave (gpt_id : string) (rag_instance_to_reset : loc) : M response :=
  try_except
    (lift (clear_all_context rag_instance_to_reset);;
     kb_index_path_to_delete ← lift (str_format LOCAL_KB_INDEX_PATH_TEMPLATE gpt_id);
     there ← path_exists kb_index_path_to_delete;
     when there (rmtree kb_index_path_to_delete);;
     print ("DEV: Cleared in-memory RAG context and local KB index for gpt_id '"
            +:+ gpt_id +:+ "'. R2 files not deleted.");;
     mret (ok (JDict [("status", JStr "success");
                      ("message", JStr ("RAG context for gpt_id '" +:+ gpt_id
                                        +:+ "' cleared from memory and local disk."))])))
    (fun e =>
       print ("DEV: Error clearing context for gpt_id '" +:+ gpt_id +:+ "': " +:+ str_exn e);;
       mret {| status_code := 500;
               content := JDict [("status", JStr "error"); ("message", JStr (str_exn e))] |}).

Inductive job :=
| Resolving (c : resolve_call)
| Resetting (g : string).

(** A job is waiting, or it is a reset suspended at its [await] with the
    handle it popped, or it has its result.  A reset outside development
    mode is answered at the gate, whoever has the lock. *)
Inductive job_state :=
| Pending (j : job)
| Tearing (g : string) (l : loc)
| Resolved (c : resolve_call) (r : outcome loc)
| Answered (g : string) (r : outcome response).

(** [holder] is the job that has [sessions_lock], if any. *)
Record pool := {
  holder : option nat;
  jobs : list job_state;
  current : world }.

Inductive pstep : pool -> pool -> Prop :=
| pstep_resolve (p : pool) (i : nat) (c : resolve_call) :
    holder p = None ->
    jobs p !! i = Some (Pending (Resolving c)) ->
    pstep p {| holder := None;
               jobs := <[i := Resolved c (run_call c (current p)).1]> (jobs p);
               current := (run_call c (current p)).2 |}
| pstep_gate (p : pool) (i : nat) (g : string) :
    jobs p !! i = Some (Pending (Resetting g)) ->
    gate_open (current p) = false ->
    pstep p {| holder := holder p;
               jobs := <[i := Answered g (Returned gate_closed)]> (jobs p);
               current := current p |}
| pstep_enter (p : pool) (i : nat) (g : string) :
    holder p = None ->
    jobs p !! i = Some (Pending (Resetting g)) ->
    pstep p match reset_enter g (current p) with
            | (inl r, w) =>
                {| holder := None;
                   jobs := <[i := Answered g (Returned r)]> (jobs p);
                   current := w |}
            | (inr l, w) =>
                {| holder := Some i;
                   jobs := <[i := Tearing g l]> (jobs p);
                   current := w |}
            end
| pstep_leave (p : pool) (i : nat) (g : string) (l : loc) :
    holder p = Some i ->
    jobs p !! i = Some (Tearing g l) ->
    pstep p {| holder := None;
               jobs := <[i := Answered g (reset_leave g l (current p)).1]> (jobs p);
               current := (reset_leave g l (current p)).2 |}.

Definition psteps : pool -> pool -> Prop := rtc pstep.

(** A scheduler that follows a given order: [run_job i] lets job [i] make
    its next step if it can. *)
Definition run_job (i : nat) (p : pool) : pool :=
  match jobs p !! i, holder p with
  | Some (Pending (Resolving c)), None =>
      {| holder := None;
         jobs := <[i := Resolved c (run_call c (current p)).1]> (jobs p);
         current := (run_call c (current p)).2 |}
  | Some (Pending (Resetting g)), None =>
      match reset_enter g (current p) with
      | (inl r, w) =>
          {| holder := None;
             jobs := <[i := Answered g (Returned r)]> (jobs p);
             current := w |}
      | (inr l, w) =>
          {| holder := Some i;
             jobs := <[i := Tearing g l]> (jobs p);
             current := w |}
      end
  | Some (Pending (Resetting g)), Some _ =>
      if gate_open (current p) then p
      else {| holder := holder p;
              jobs := <[i := Answered g (Returned gate_closed)]> (jobs p);
              current := current p |}
  | Some (Tearing g l), Some k =>
      if bool_decide (k = i)
      then {| holder := None;
              jobs := <[i := Answered g (reset_leave g l (current p)).1]> (jobs p);
              current := (reset_leave g l (current p)).2 |}
      else p
  | _, _ => p
  end.

Fixpoint run_jobs (order : list nat) (p : pool) : pool :=
  match order with
  | [] => p
  | i :: rest => run_jobs rest (run_job i p)
  end.

(** ** Non-streaming chat *)

(** The engine's [query]: what the awaited call returns, a JSON value, or
    what it raises. *)
Variable query : loc -> query_kwargs -> outcome json.

Record ChatRequest := {
  req_user_email : string;
  req_gpt_id : string;
  req_gpt_name : option string;
  req_message : string;
  req_history : option (list (list (string * string)));
  req_user_document_keys : option (list string);
  req_use_hybrid_search : option bool;
  req_model : option string;
  req_system_prompt : option string;
  req_web_search_enabled : option bool }.

(** The handler of [/chat].  The resolve stands before the [try]. *)
Definition chat_endpoint (request : ChatRequest) : M response :=
  rag_instance ← get_or_create_rag_instance
    (req_user_email request) (req_gpt_id request)
    (Given (req_gpt_name request))
    (Given (req_model request))
    (Given (req_system_prompt request))
    (Given (req_use_hybrid_search request));
  let session_id := get_session_id (req_user_email request) (req_gpt_id request) in
  try_except
    (response_data ← lift (query rag_instance
       {| q_session_id := session_id;
          q_query := req_message request;
          q_chat_history := req_history request;
          q_user_r2_document_keys := req_user_document_keys request;
          q_use_hybrid_search := req_use_hybrid_search request;
          q_llm_model_name := req_model request;
          q_system_prompt_override := req_system_prompt request;
          q_enable_web_search := req_web_search_enabled request |});
     mret (ok (JDict [("success", JBool true); ("data", response_data)])))
    (fun e =>
       print ("Error in /chat endpoint: " +:+ str_exn e);;
       mret {| status_code := 500;
               content := JDict [("success", JBool false); ("error", JStr (str_exn e))] |}).

(** ** The collection name of [gpt_opened_endpoint] *)

Definition sanitized_email (user_email : string) : string :=
  replace_char "."%char "_"%char (replace_char "@"%char "_"%char user_email).

(** [(gpt_name or 'gpt').replace(' ', '_').replace('-', '_')]. *)
Definition sanitized_gpt_name (gpt_name : string) : string :=
  replace_char "-"%char "_"%char (replace_char " "%char "_"%char (py_or (Some gpt_name) "gpt")).

Definition collection_name (user_email gpt_name gpt_id : string) : string :=
  "kb_" +:+ sanitized_email user_email +:+ "_" +:+ sanitized_gpt_name gpt_name +:+ "_" +:+ gpt_id.

(** * The vocabulary of the properties *)

(** The environment has what a first resolve needs. *)
Definition configured (w : world) : bool :=
  truthy (environ w !! "OPENAI_API_KEY") && truthy (environ w !! "QDRANT_URL").

(** The instance a first resolve of [g] constructs in [w]. *)
Definition new_instance (g : string) (default_model default_system_prompt : option string)
    (default_use_hybrid_search : option bool) (w : world) : EnhancedRAG :=
  {| gpt_id := g;
     openai_api_key := default EmptyString (environ w !! "OPENAI_API_KEY");
     default_llm_model_name :=
       py_or default_model (default "gpt-4o" (environ w !! "DEFAULT_OPENAI_MODEL"));
     qdrant_url := default EmptyString (environ w !! "QDRANT_URL");
     qdrant_api_key := environ w !! "QDRANT_API_KEY";
     temp_processing_path := TEMP_DOWNLOAD_PATH;
     default_system_prompt := default_system_prompt;
     default_use_hybrid_search := default_use_hybrid_search |}.

(** The world after a first resolve of [g] in a configured [w]. *)
Definition created (g : string) (r : EnhancedRAG) (w : world) : world :=
  {| environ := environ w;
     active_rag_sessions := <[g := next_loc w]> (active_rag_sessions w);
     heap := <[next_loc w := r]> (heap w);
     next_loc := S (next_loc w);
     fs := fs w;
     trace := trace w ++ [Printed ("Creating new EnhancedRAG instance for gpt_id: " +:+ g);
                          Constructed (next_loc w) g] |}.

(** The merge of the overrides into an instance: the [else] branch. *)
Definition merge_defaults (default_model default_system_prompt : option string)
    (default_use_hybrid_search : option bool) (r : EnhancedRAG) : EnhancedRAG :=
  let r1 := if truthy default_model
            then set_default_llm_model_name (default EmptyString default_model) r else r in
  let r2 := if truthy default_system_prompt
            then set_default_system_prompt default_system_prompt r1 else r1 in
  if bool_decide (default_use_hybrid_search <> None)
  then set_default_use_hybrid_search default_use_hybrid_search r2 else r2.

(** The message of the [ValueError] a first resolve raises. *)
Definition configuration_error (w : world) : string :=
  if truthy (environ w !! "OPENAI_API_KEY")
  then "QDRANT_URL not set in environment."
  else "OPENAI_API_KEY not set in environment.".

(** How many times the constructor ran for tenant [g]. *)
Fixpoint constructions (g : string) (t : list event) : nat :=
  match t with
  | [] => 0
  | Constructed _ g' :: rest =>
      (if String.eqb g g' then 1 else 0) + constructions g rest
  | _ :: rest => constructions g rest
  end.

(** Was [g] registered between the worlds [w0] and [w]? *)
Definition registered_since (w0 w : world) (g : string) : bool :=
  bool_decide (active_rag_sessions w0 !! g = None) &&
  bool_decide (is_Some (active_rag_sessions w !! g)).

(** What a run of calls keeps true, from its first world [w0] on. *)
Record run_inv (w0 : world) (sc : sched) : Prop := {
  inv_lock : sessions_lock sc = false;
  inv_grows : active_rag_sessions w0 ⊆ active_rag_sessions (now sc);
  inv_returned : forall i c l,
    tasks sc !! i = Some (Finished c (Returned l)) ->
    active_rag_sessions (now sc) !! call_gpt_id c = Some l;
  inv_constructions : forall g,
    constructions g (trace (now sc))
    = constructions g (trace w0) + (if registered_since w0 (now sc) g then 1 else 0);
  inv_environ : environ (now sc) = environ w0;
  inv_no_failure : configured w0 = true ->
    forall i c r, tasks sc !! i = Some (Finished c r) -> exists l, r = Returned l }.

(** The result and the events of storing one uploaded file. *)
Definition upload_result (is_user_doc : bool) (file : UploadFile) : FileUploadInfoResponse :=
  let failure msg :=
    {| info_filename := filename file; stored_url_or_key := EmptyString;
       status := "failure"; error_message := Some msg |} in
  match read file with
  | Raised e => failure (str_exn e)
  | Returned file_content =>
      match upload_file file_content (filename file) is_user_doc with
      | Raised e => failure (str_exn e)
      | Returned (true, path) =>
          {| info_filename := filename file; stored_url_or_key := path;
             status := "success"; error_message := None |}
      | Returned (false, err) => failure err
      end
  end.

Definition upload_events (is_user_doc : bool) (file : UploadFile) : list event :=
  let raised e :=
    Printed ("Exception processing file '" +:+ filename file +:+ "': " +:+ str_exn e) in
  match read file with
  | Raised e => [raised e]
  | Returned file_content =>
      Uploaded (filename file) is_user_doc ::
      match upload_file file_content (filename file) is_user_doc with
      | Raised e => [raised e]
      | Returned (true, path) =>
          [Printed ("File '" +:+ filename file +:+ "' (is_user_doc=" +:+ str_bool is_user_doc
                    +:+ ") stored at: " +:+ path)]
      | Returned (false, err) =>
          [Printed ("Failed to store file '" +:+ filename file +:+ "'. Error: " +:+ err)]
      end
  end.

(** The aggregate list of an upload: the locations of the files that were
    stored, in the order of the files. *)
Definition stored_locations (is_user_doc : bool) (files : list UploadFile) : list string :=
  List.map stored_url_or_key (List.filter stored (List.map (upload_result is_user_doc) files)).

(** The aggregate list of a URL fetch: the locations of the URLs with an
    http or https scheme whose download succeeded, in the order of the URLs. *)
Definition fetched (url : string) : list string :=
  if valid_kb_url url then
    match download_file_from_url url with
    | (true, r2_path) => [r2_path]
    | (false, _) => []
    end
  else [].

Definition fetched_locations (urls : list string) : list string :=
  flat_map fetched urls.

Definition url_events (url : string) : list event :=
  if valid_kb_url url then
    Downloaded url ::
    match download_file_from_url url with
    | (true, r2_path) => [Printed ("KB URL '" +:+ url +:+ "' processed to R2: " +:+ r2_path)]
    | (false, err) => [Printed ("Failed to process KB URL '" +:+ url +:+ "'. Error: " +:+ err)]
    end
  else [Printed ("Skipping invalid KB URL: " +:+ url)].

(** The engine calls among some events. *)
Definition is_engine_update (e : event) : bool :=
  match e with
  | UpdateKnowledgeBase _ _ | UpdateUserDocuments _ _ _ => true
  | _ => false
  end.

Definition engine_updates (evs : list event) : list event := List.filter is_engine_update evs.

(** The URLs that were downloaded, among some events. *)
Definition downloads (evs : list event) : list string :=
  flat_map (fun e => match e with Downloaded url => [url] | _ => [] end) evs.

(** The log lines that record an item of a URL fetch as failed: skipped
    for its scheme, or not fetched. *)
Definition is_item_failure (e : event) : bool :=
  match e with
  | Printed line =>
      startswith line "Skipping invalid KB URL: " || startswith line "Failed to process KB URL '"
  | _ => false
  end.

Definition item_failures (evs : list event) : list event := List.filter is_item_failure evs.

(** The URLs that the log records as skipped for their scheme. *)
Definition skipped (evs : list event) : list string :=
  flat_map (fun e =>
    match e with
    | Printed line =>
        if startswith line "Skipping invalid KB URL: "
        then [String.substring 25 (String.length line - 25) line] else []
    | _ => []
    end) evs.

(** The events of the indexing phase of a URL task. *)
Definition kb_index_events (rag : loc) (locs : list string) (w : world) : list event :=
  match locs with
  | [] => []
  | _ :: _ =>
      UpdateKnowledgeBase rag locs ::
      match update_knowledge_base_from_r2 rag locs with
      | Returned _ => []
      | Raised e =>
          [Printed ("Error indexing KB documents for gpt_id '"
                    +:+ default EmptyString (gpt_id <$> heap w !! rag)
                    +:+ "': " +:+ str_exn e)]
      end
  end.

Definition kb_task_events (urls : list string) (rag : loc) (w : world) : list event :=
  Printed ("BG Task: Processing " +:+ str_len urls +:+ " KB URLs for gpt_id '"
           +:+ default EmptyString (gpt_id <$> heap w !! rag) +:+ "'...")
  :: flat_map url_events urls ++ kb_index_events rag (fetched_locations urls) w.

Definition opened_url_events (url : string) : list event :=
  if valid_kb_url url then [Downloaded url] else [].

(** A resolve of [g] in [w] succeeds: the key is registered, or the
    configuration allows the construction. *)
Definition resolves (w : world) (g : string) : bool :=
  bool_decide (is_Some (active_rag_sessions w !! g)) || configured w.

(** The handle such a resolve returns. *)
Definition resolved_handle (w : world) (g : string) : loc :=
  default (next_loc w) (active_rag_sessions w !! g).

(** The index update that [upload_chat_files_endpoint] awaits. *)
Definition chat_index_call (is_user_doc : bool) (rag : loc) (session_id : string)
    (locs : list string) : outcome unit :=
  if is_user_doc
  then update_user_documents_from_r2 rag session_id locs
  else update_knowledge_base_from_r2 rag locs.

Definition chat_index_event (is_user_doc : bool) (rag : loc) (session_id : string)
    (locs : list string) : event :=
  if is_user_doc
  then UpdateUserDocuments rag session_id locs
  else UpdateKnowledgeBase rag locs.

(** A fragment that [json.dumps] encodes. *)
Definition encodes (chunk : json) : bool :=
  match json_dumps_raises chunk with
  | None => true
  | Some _ => false
  end.

(** The frames of a stream read to its end: one per chunk up to the first
    chunk that [json.dumps] rejects, whose place the error frame takes;
    after the last chunk, the error frame if the engine failed. *)
Definition terminal_frames (e : ending) : list string :=
  match e with
  | Completes => []
  | Fails err => [sse_frame (error_chunk err)]
  end.

Fixpoint fragment_frames (cs : list json) (e : ending) : list string :=
  match cs with
  | [] => terminal_frames e
  | c :: rest =>
      match json_dumps_raises c with
      | None => sse_frame c :: fragment_frames rest e
      | Some err => [sse_frame (error_chunk err)]
      end
  end.

Definition full_frames (s : engine_stream) : list string :=
  fragment_frames (chunks s) (ending_of s).

(** The exception that ends the [try] of [generate], if there is one, and
    the number of fragments that were emitted before it: the first
    fragment that [json.dumps] rejects, or else the failure of the engine
    after its last fragment. *)
Fixpoint stream_error (cs : list json) (e : ending) : option (nat * exn) :=
  match cs with
  | [] =>
      match e with
      | Completes => None
      | Fails err => Some (0, err)
      end
  | c :: rest =>
      match json_dumps_raises c with
      | Some err => Some (0, err)
      | None =>
          match stream_error rest e with
          | Some (k, err) => Some (S k, err)
          | None => None
          end
      end
  end.

(** A frame whose JSON object opens with the member ["type": "error"]. *)
Definition is_error_frame (frame : string) : bool :=
  startswith frame ("data: {" +:+ DQ +:+ "type" +:+ DQ +:+ ": " +:+ DQ +:+ "error" +:+ DQ).

(** A generator that has its [try] still before or around it. *)
Definition active (p : gen_pc) : bool :=
  match p with
  | NotStarted | InLoop => true
  | InHandler | Closed => false
  end.

Definition running (s : engine_stream) : generator := {| pc := NotStarted; inner := s |}.

(** The gate of the reset endpoint: [ENVIRONMENT_TYPE], lower-cased, is
    ["development"]; unset counts as ["production"]. *)
Definition development (w : world) : bool :=
  String.eqb (lower (default "production" (environ w !! "ENVIRONMENT_TYPE"))) "development".

Definition kb_index_path (g : string) : string :=
  format_gpt_id LOCAL_KB_INDEX_PATH_TEMPLATE g.

(** Every registered handle was allocated before. *)
Definition registry_wf (w : world) : Prop :=
  forall g l, active_rag_sessions w !! g = Some l -> l < next_loc w.

Definition forbidden : response :=
  {| status_code := 403;
     content := JDict [("error", JStr "Endpoint only available in development.")] |}.

Definition not_found (g : string) : response :=
  {| status_code := 404;
     content := JDict [("status", JStr "not_found");
                       ("message", JStr ("No active RAG context for gpt_id '" +:+ g +:+ "'."))] |}.

(** The world after the entry of [g] was popped and [evs] were logged,
    with the paths [paths] left on the disk. *)
Definition popped (g : string) (paths : gset string) (evs : list event) (w : world) : world :=
  {| environ := environ w;
     active_rag_sessions := delete g (active_rag_sessions w);
     heap := heap w;
     next_loc := next_loc w;
     fs := paths;
     trace := trace w ++ evs |}.

(** ** Runs of registry operations *)

(** The process as the module leaves it at import: the registry is the
    empty dict, nothing has been constructed or logged. *)
Definition boot (env : gmap string string) (disk : gset string) : world :=
  {| environ := env;
     active_rag_sessions := ∅;
     heap := ∅;
     next_loc := 0;
     fs := disk;
     trace := [] |}.

(** The two operations that take [sessions_lock].  A resolve runs whole
    under the lock; a reset keeps the lock from its [pop] to its end, so at
    the level of the registry a run of the process is a sequence of whole
    operations. *)
Inductive registry_op :=
| OpResolve (c : resolve_call)
| OpReset (g : string).

Definition run_op (o : registry_op) (w : world) : world :=
  match o with
  | OpResolve c => (run_call c w).2
  | OpReset g => (dev_reset_gpt_context_endpoint g w).2
  end.

Definition run_ops (ops : list registry_op) (w : world) : world :=
  foldl (fun w o => run_op o w) w ops.

(** What a run keeps true of the registry: the environment is the one of
    the start, and every entry points to an allocated instance that carries
    the entry's key and has the property [P]. *)
Record reg_inv (P : string -> EnhancedRAG -> Prop) (env : gmap string string) (w : world)
  : Prop := {
  reg_environ : environ w = env;
  reg_entry : forall g l,
    active_rag_sessions w !! g = Some l ->
    l < next_loc w /\ exists r, heap w !! l = Some r /\ gpt_id r = g /\ P g r }.

(** The settings an instance takes from the environment. *)
Definition holds_credentials (env : gmap string string) (r : EnhancedRAG) : Prop :=
  env !! "OPENAI_API_KEY" = Some (openai_api_key r) /\
  openai_api_key r <> EmptyString /\
  env !! "QDRANT_URL" = Some (qdrant_url r) /\
  qdrant_url r <> EmptyString /\
  qdrant_api_key r = env !! "QDRANT_API_KEY" /\
  temp_processing_path r = TEMP_DOWNLOAD_PATH /\
  (env !! "DEFAULT_OPENAI_MODEL" <> Some EmptyString -> default_llm_model_name r <> EmptyString).

Definition is_constructed (e : event) : bool :=
  match e with
  | Constructed _ _ => true
  | _ => false
  end.

Definition is_teardown (e : event) : bool :=
  match e with
  | ClearAllContext _ => true
  | _ => false
  end.

(** The handles that were constructed are the registered ones and the
    ones a reset has torn down. *)
Definition handle_balance (w : world) : Prop :=
  length (List.filter is_constructed (trace w))
  = length (List.filter is_teardown (trace w)) + size (active_rag_sessions w).

(** The files handed to the store, among some events. *)
Definition uploads (evs : list event) : list string :=
  flat_map (fun e => match e with Uploaded name _ => [name] | _ => [] end) evs.

(** What a handler or a task does besides writing log lines. *)
Definition is_print (e : event) : bool :=
  match e with
  | Printed _ => true
  | _ => false
  end.

Definition effects (evs : list event) : list event :=
  List.filter (fun e => negb (is_print e)) evs.


Definition stream_kwargs (request : ChatStreamRequest) : query_kwargs :=
  {| q_session_id := get_session_id (chat_user_email request) (chat_gpt_id request);
     q_query := message request;
     q_chat_history := history request;
     q_user_r2_document_keys := user_document_keys request;
     q_use_hybrid_search := use_hybrid_search request;
     q_llm_model_name := model request;
     q_system_prompt_override := system_prompt request;
     q_enable_web_search := web_search_enabled request |}.

Definition sse_headers : list (string * string) :=
  [("Content-Type", "text/event-stream");
   ("Cache-Control", "no-cache");
   ("Connection", "keep-alive")].

(** The 500 response of the two chat handlers. *)
Definition chat_error (msg : string) : response :=
  {| status_code := 500;
     content := JDict [("success", JBool false); ("error", JStr msg)] |}.

(** The first log line of a resolve that finds no entry. *)
Definition creating (g : string) : event :=
  Printed ("Creating new EnhancedRAG instance for gpt_id: " +:+ g).

(** The log lines of [chat_stream]: the banner of a request whose tenant
    resolved, and the line of the [except] branch. *)
Definition chat_banner (request : ChatStreamRequest) : list event :=
  [Printed (LF +:+ "========================================");
   Printed ("📝 New chat request from user: " +:+ chat_user_email request);
   Printed ("🔍 GPT ID: " +:+ chat_gpt_id request);
   Printed ("💬 Query: '" +:+ message request +:+ "'");
   Printed (if truthy_bool (web_search_enabled request)
            then "🌐 Web search requested: ENABLED"
            else "🌐 Web search requested: DISABLED");
   Printed ("========================================" +:+ LF)].

Definition chat_stream_failed (msg : string) : event :=
  Printed ("❌ Error in /chat-stream endpoint: " +:+ msg).

(** What the [try] block of a reset raises, if anything, for the handle
    [l] of the key and the disk as it is: the exception of the teardown, or
    else of the formatting of the path, or else of [shutil.rmtree] when
    [os.path.exists] finds the path. *)
Definition reset_raises (g : string) (l : loc) (disk : gset string) : option exn :=
  match clear_all_context l with
  | Raised e => Some e
  | Returned _ =>
      match str_format LOCAL_KB_INDEX_PATH_TEMPLATE g with
      | Raised e => Some e
      | Returned path =>
          if os_path_exists path disk then
            match (shutil_rmtree path disk).1 with
            | Raised e => Some e
            | Returned _ => None
            end
          else None
      end
  end.

(** The path that the reset hands to [shutil.rmtree], if it comes to
    that: the teardown returned, the path was formatted and
    [os.path.exists] found it. *)
Definition purged_path (g : string) (l : loc) (disk : gset string) : option string :=
  match clear_all_context l with
  | Raised _ => None
  | Returned _ =>
      match str_format LOCAL_KB_INDEX_PATH_TEMPLATE g with
      | Raised _ => None
      | Returned path => if os_path_exists path disk then Some path else None
      end
  end.

(** The two answers of the [try] block of a reset, with their log lines. *)
Definition reset_done (g : string) : response :=
  ok (JDict [("status", JStr "success");
             ("message", JStr ("RAG context for gpt_id '" +:+ g
                               +:+ "' cleared from memory and local disk."))]).

Definition reset_error (e : exn) : response :=
  {| status_code := 500;
     content := JDict [("status", JStr "error"); ("message", JStr (str_exn e))] |}.

Definition reset_answer (g : string) (raised : option exn) : response :=
  match raised with
  | None => reset_done g
  | Some e => reset_error e
  end.

Definition reset_line (g : string) (raised : option exn) : event :=
  match raised with
  | None =>
      Printed ("DEV: Cleared in-memory RAG context and local KB index for gpt_id '"
               +:+ g +:+ "'. R2 files not deleted.")
  | Some e =>
      Printed ("DEV: Error clearing context for gpt_id '" +:+ g +:+ "': " +:+ str_exn e)
  end.

(** The paths handed to [shutil.rmtree], among some events. *)
Definition rmtrees (evs : list event) : list string :=
  flat_map (fun e => match e with Rmtree path => [path] | _ => [] end) evs.

(** The status of the answer of a reset, by what it looks at: the gate,
    the registry, and what the steps of the [try] block do. *)
Definition reset_status (g : string) (w : world) : Z :=
  if development w then
    match active_rag_sessions w !! g with
    | None => 404
    | Some l =>
        match reset_raises g l (fs w) with
        | None => 200
        | Some _ => 500
        end
    end
  else 403.

(** A text without braces, as [str.format] needs it around its fields. *)
Fixpoint no_brace (s : string) : bool :=
  match s with
  | EmptyString => true
  | String c r => negb (Ascii.eqb c "{") && negb (Ascii.eqb c "}") && no_brace r
  end.

(** The directory of the knowledge-base indexes, made at import. *)
Definition kb_indexes_dir : string := path_join LOCAL_DATA_BASE_PATH "kb_indexes".

(** ** Pools of resolves and resets *)

Definition is_pending (s : job_state) : bool :=
  match s with
  | Pending _ => true
  | _ => false
  end.

(** The operation a job has carried out, once it has its result. *)
Definition finished_op (s : job_state) : option registry_op :=
  match s with
  | Resolved c _ => Some (OpResolve c)
  | Answered g _ => Some (OpReset g)
  | Pending _ | Tearing _ _ => None
  end.

Definition finished (p : pool) : list registry_op := omap finished_op (jobs p).

(** What every state of a pool that started in [w0] satisfies: a reset
    that is suspended at its [await] is the holder of the lock; with the
    lock free, the state is the one that the finished jobs, run whole and
    one after the other in some order, lead to; with the lock held, it is
    such a state followed by the first half of the holder's reset. *)
Record serial (w0 : world) (p : pool) : Prop := {
  ser_tearing : forall j g l, jobs p !! j = Some (Tearing g l) -> holder p = Some j;
  ser_free : holder p = None ->
    exists ops, ops ≡ₚ finished p /\ current p = run_ops ops w0;
  ser_held : forall i, holder p = Some i ->
    exists g l ops,
      jobs p !! i = Some (Tearing g l) /\
      ops ≡ₚ finished p /\
      reset_enter g (run_ops ops w0) = (inr l, current p) }.

(** * Properties *)

(** ** The string functions on examples *)

Example json_dumps_error_chunk :
  json_dumps (JDict [("type", JStr "error"); ("data", JDict [("error", JStr "boom")])])
  = "{" +:+ DQ +:+ "type" +:+ DQ +:+ ": " +:+ DQ +:+ "error" +:+ DQ +:+ ", "
        +:+ DQ +:+ "data" +:+ DQ +:+ ": {" +:+ DQ +:+ "error" +:+ DQ +:+ ": "
        +:+ DQ +:+ "boom" +:+ DQ +:+ "}}".
Proof. vm_compute. reflexivity. Qed.

Example format_gpt_id_example :
  format_gpt_id "local_rag_data/kb_indexes/{gpt_id}" "g1" = "local_rag_data/kb_indexes/g1".
Proof. reflexivity. Qed.

(** ** Running monadic code *)

Ltac munfold :=
  unfold mbind, M_bind, bind, mret, M_ret, ret, raise, get_world, print, emit,
    modify, getenv, getenv_default, when, setattr, lift, try_except in *.

Ltac msimpl :=
  repeat (progress munfold);
  cbn [fst snd environ active_rag_sessions heap next_loc fs trace
       with_sessions with_heap with_fs with_trace log] in *.

Lemma log_nil (w : world) : log [] w = w.
Proof. destruct w; unfold log, with_trace; cbn. by rewrite app_nil_r. Qed.

Lemma log_log (e1 e2 : list event) (w : world) : log e2 (log e1 w) = log (e1 ++ e2) w.
Proof. unfold log, with_trace; cbn. by rewrite app_assoc. Qed.

Lemma trace_log (evs : list event) (w : world) : trace (log evs w) = trace w ++ evs.
Proof. reflexivity. Qed.

Lemma alter_alter_heap (f g : EnhancedRAG -> EnhancedRAG) (l : loc) (h : gmap loc EnhancedRAG) :
  alter f l (alter g l h) = alter (f ∘ g) l h.
Proof. apply alter_alter_eq. Qed.

Lemma alter_id_heap (l : loc) (h : gmap loc EnhancedRAG) : alter (fun r => r) l h = h.
Proof.
  apply map_eq. intros i. rewrite lookup_alter.
  case_decide; [subst; by destruct (h !! i) | done].
Qed.

Lemma resolve_unconfigured user_email g gpt_name dm dsp dh (w : world) :
  active_rag_sessions w !! g = None ->
  configured w = false ->
  get_or_create_rag_instance user_email g gpt_name dm dsp dh w
  = (Raised (ValueError (configuration_error w)),
     log [Printed ("Creating new EnhancedRAG instance for gpt_id: " +:+ g)] w).
Proof.
  intros Hg Hc. unfold get_or_create_rag_instance, configured, configuration_error in *.
  msimpl. rewrite Hg. msimpl.
  destruct (truthy (environ w !! "OPENAI_API_KEY")) eqn:Hk; cbn [negb].
  - cbn in Hc. msimpl. rewrite Hc. cbn [negb]. reflexivity.
  - reflexivity.
Qed.

Lemma resolve_new user_email g gpt_name dm dsp dh (w : world) :
  active_rag_sessions w !! g = None ->
  configured w = true ->
  get_or_create_rag_instance user_email g gpt_name dm dsp dh w
  = (Returned (next_loc w),
     created g (new_instance g (arg_default None dm) (arg_default None dsp)
                  (arg_default (Some false) dh) w) w).
Proof.
  intros Hg Hc. unfold get_or_create_rag_instance, configured in *.
  apply andb_prop in Hc as [Hk Hq].
  msimpl. rewrite Hg. msimpl. rewrite Hk. cbn [negb]. msimpl. rewrite Hq. cbn [negb].
  unfold sessions_setitem_new, sessions_getitem. msimpl.
  rewrite lookup_insert_eq. unfold created, new_instance, with_sessions, with_trace. cbn.
  by rewrite <- app_assoc.
Qed.

Lemma resolve_existing user_email g gpt_name dm dsp dh (w : world) (l : loc) :
  active_rag_sessions w !! g = Some l ->
  get_or_create_rag_instance user_email g gpt_name dm dsp dh w
  = (Returned l,
     log [Printed ("Reusing EnhancedRAG instance for gpt_id: " +:+ g
                     +:+ ". Updated defaults if provided.")]
       (with_heap (alter (merge_defaults (arg_default None dm) (arg_default None dsp)
                            (arg_default (Some false) dh)) l (heap w))
          (next_loc w) w)).
Proof.
  intros Hg. unfold get_or_create_rag_instance, sessions_getitem, merge_defaults.
  msimpl. rewrite Hg.
  destruct (truthy (arg_default None dm)), (truthy (arg_default None dsp)),
    (bool_decide (arg_default (Some false) dh <> None));
    msimpl; rewrite Hg; rewrite ?alter_alter_heap; try reflexivity.
  rewrite alter_id_heap. reflexivity.
Qed.

(** ** The registry under any schedule *)

Lemma constructions_app (g : string) (t1 t2 : list event) :
  constructions g (t1 ++ t2) = constructions g t1 + constructions g t2.
Proof.
  induction t1 as [|e t1 IH]; [done|].
  destruct e; cbn; rewrite IH; lia.
Qed.

Lemma run_inv_start (sc : sched) :
  sessions_lock sc = false -> forallb is_waiting (tasks sc) = true -> run_inv (now sc) sc.
Proof.
  intros Hl Hw. rewrite forallb_forall in Hw. split; [done|done| | |done|].
  - intros i c l Hi.
    apply list_elem_of_lookup_2, list_elem_of_In, Hw in Hi. discriminate.
  - intros g. unfold registered_since.
    destruct (active_rag_sessions (now sc) !! g) eqn:E.
    + rewrite bool_decide_eq_false_2 by congruence. cbn. lia.
    + rewrite andb_comm, bool_decide_eq_false_2; [cbn; lia|].
      intros [? ?]. congruence.
  - intros _ i c r Hi.
    apply list_elem_of_lookup_2, list_elem_of_In, Hw in Hi. discriminate.
Qed.

Lemma eqb_refl_string (g : string) : String.eqb g g = true.
Proof. apply String.eqb_refl. Qed.

(** One call: what it returns and what it does to the registry and to the
    count of constructions. *)
Lemma run_call_spec (c : resolve_call) (w : world) :
  let g := call_gpt_id c in
  let r := run_call c w in
  active_rag_sessions w ⊆ active_rag_sessions r.2 /\
  (forall l, r.1 = Returned l -> active_rag_sessions r.2 !! g = Some l) /\
  (forall g', constructions g' (trace r.2)
     = constructions g' (trace w)
       + (if bool_decide (active_rag_sessions w !! g' = None)
             && bool_decide (is_Some (active_rag_sessions r.2 !! g')) then 1 else 0)) /\
  environ r.2 = environ w /\
  (configured w = true -> exists l, r.1 = Returned l).
Proof.
  intros g r. subst r. unfold run_call. fold g.
  destruct (active_rag_sessions w !! g) as [l|] eqn:Hg.
  - rewrite (resolve_existing _ _ _ _ _ _ _ _ Hg). cbn [fst snd].
    split; [done|]. split; [intros l' [= <-]; exact Hg|].
    split; [|by eauto].
    intros g'. msimpl. rewrite constructions_app. cbn.
    destruct (active_rag_sessions w !! g') eqn:E.
    + rewrite bool_decide_eq_false_2 by congruence. cbn. lia.
    + rewrite andb_comm, bool_decide_eq_false_2; [cbn; lia|]. intros [? ?]; congruence.
  - destruct (configured w) eqn:Hc.
    + rewrite (resolve_new _ _ _ _ _ _ _ Hg Hc). cbn [fst snd created active_rag_sessions trace].
      split; [by apply insert_subseteq|].
      split; [intros l' [= <-]; apply lookup_insert_eq|].
      split; [|by eauto].
      intros g'. rewrite constructions_app. cbn.
      destruct (decide (g = g')) as [<-|Hne].
      * rewrite eqb_refl_string, lookup_insert_eq, Hg.
        rewrite !bool_decide_eq_true_2 by eauto. cbn. lia.
      * rewrite lookup_insert_ne by done.
        assert (String.eqb g' g = false) as -> by (apply String.eqb_neq; congruence).
        destruct (active_rag_sessions w !! g') eqn:E.
        -- rewrite bool_decide_eq_false_2 by congruence. cbn. lia.
        -- rewrite andb_comm, bool_decide_eq_false_2; [cbn; lia|]. intros [? ?]; congruence.
    + rewrite (resolve_unconfigured _ _ _ _ _ _ _ Hg Hc). cbn [fst snd].
      split; [done|]. split; [intros l' [=]|].
      split; [|split; [done | intros [=]]].
      intros g'. msimpl. rewrite constructions_app. cbn.
      destruct (active_rag_sessions w !! g') eqn:E.
      * rewrite bool_decide_eq_false_2 by congruence. cbn. lia.
      * rewrite andb_comm, bool_decide_eq_false_2; [cbn; lia|]. intros [? ?]; congruence.
Qed.

Lemma step_inv (w0 : world) (sc sc' : sched) :
  run_inv w0 sc -> step sc sc' -> run_inv w0 sc'.
Proof.
  intros [Hl Hg Hr Hc He Hf] Hstep. destruct Hstep as [sc i c _ Hi].
  destruct (run_call_spec c (now sc)) as (Hsub & Hret & Hcnt & Henv & Htot).
  split; cbn [sessions_lock tasks now].
  - done.
  - by etrans.
  - intros j c' l Hj. destruct (decide (i = j)) as [<-|Hne].
    + rewrite list_lookup_insert_eq in Hj by (by eapply lookup_lt_Some).
      injection Hj as <- Hj. by apply Hret.
    + rewrite list_lookup_insert_ne in Hj by done.
      eapply lookup_weaken; [by eapply Hr | done].
  - intros g. rewrite Hcnt, Hc. unfold registered_since.
    destruct (active_rag_sessions w0 !! g) as [l0|] eqn:E0.
    + pose proof (lookup_weaken _ _ _ _ E0 Hg) as E1.
      rewrite E1. rewrite !(bool_decide_eq_false_2 (Some _ = None)) by done. cbn. lia.
    + rewrite !(bool_decide_eq_true_2 (None = None)) by done. cbn [andb].
      destruct (active_rag_sessions (now sc) !! g) as [l1|] eqn:E1.
      * pose proof (lookup_weaken _ _ _ _ E1 Hsub) as E2. rewrite E2.
        rewrite !bool_decide_eq_true_2 by eauto.
        rewrite bool_decide_eq_false_2 by done. cbn. lia.
      * rewrite (bool_decide_eq_false_2 (is_Some None)) by (intros [? ?]; done).
        rewrite bool_decide_eq_true_2 by done. cbn. lia.
  - congruence.
  - intros Hconf j c' r Hj. destruct (decide (i = j)) as [<-|Hne].
    + rewrite list_lookup_insert_eq in Hj by (by eapply lookup_lt_Some).
      injection Hj as <- <-. apply Htot.
      unfold configured in *. by rewrite He.
    + rewrite list_lookup_insert_ne in Hj by done. by eapply Hf.
Qed.

Lemma steps_inv (w0 : world) (sc sc' : sched) :
  run_inv w0 sc -> steps sc sc' -> run_inv w0 sc'.
Proof.
  intros Hinv Hsteps. induction Hsteps as [|sc1 sc2 sc3 H12 _ IH]; [done|].
  apply IH. by eapply step_inv.
Qed.

Lemma run_task_steps (i : nat) (sc : sched) : steps sc (run_task i sc).
Proof.
  unfold run_task.
  destruct (sessions_lock sc) eqn:Hl; [apply rtc_refl|].
  destruct (tasks sc !! i) as [[c|c r]|] eqn:Hi; try apply rtc_refl.
  apply rtc_once. by constructor.
Qed.

Lemma run_schedule_steps (order : list nat) (sc : sched) : steps sc (run_schedule order sc).
Proof.
  revert sc. induction order as [|i rest IH]; intros sc; [apply rtc_refl|].
  cbn. etrans; [apply run_task_steps | apply IH].
Qed.

(** C2: every call of [get_or_create_rag_instance] for one tenant key,
    under any order in which the scheduler runs the calls, returns the
    same handle, which is the one the registry holds for the key (a map has
    at most one); and for a key that was not registered before, the
    constructor runs at most once, and exactly once as soon as one of the
    calls has returned.  With the configuration in place no call fails. *)
Theorem C2_one_shared_handle_per_tenant (sc0 sc : sched) :
  sessions_lock sc0 = false ->
  forallb is_waiting (tasks sc0) = true ->
  steps sc0 sc ->
  (forall i j ci cj li lj,
      tasks sc !! i = Some (Finished ci (Returned li)) ->
      tasks sc !! j = Some (Finished cj (Returned lj)) ->
      call_gpt_id ci = call_gpt_id cj ->
      li = lj /\ active_rag_sessions (now sc) !! call_gpt_id ci = Some li) /\
  (forall g,
      active_rag_sessions (now sc0) !! g = None ->
      constructions g (trace (now sc)) <= constructions g (trace (now sc0)) + 1 /\
      ((exists i c l, tasks sc !! i = Some (Finished c (Returned l)) /\ call_gpt_id c = g) ->
       constructions g (trace (now sc)) = constructions g (trace (now sc0)) + 1)) /\
  (configured (now sc0) = true ->
   forall i c r, tasks sc !! i = Some (Finished c r) -> exists l, r = Returned l).
Proof.
  intros Hl Hw Hsteps.
  pose proof (steps_inv _ _ _ (run_inv_start sc0 Hl Hw) Hsteps) as [_ Hg Hr Hc _ Hf].
  split; [|split; [|done]].
  - intros i j ci cj li lj Hi Hj Heq.
    pose proof (Hr _ _ _ Hi) as Ei. pose proof (Hr _ _ _ Hj) as Ej.
    rewrite <- Heq in Ej. split; [congruence | done].
  - intros g Hnew. rewrite Hc. unfold registered_since.
    rewrite (bool_decide_eq_true_2 _ Hnew). cbn [andb]. split.
    + case_bool_decide; lia.
    + intros (i & c & l & Hi & <-). rewrite bool_decide_eq_true_2; [lia|].
      rewrite (Hr _ _ _ Hi). eauto.
Qed.

(** C8: a first resolve of a tenant key in an environment that lacks
    [OPENAI_API_KEY] or [QDRANT_URL] (unset or empty) raises the
    [ValueError] of the configuration check; the registry, the heap and
    the count of constructed handles are as before, and the key is still
    absent, so the next resolve takes the creation path again. *)
Theorem C8_missing_configuration_registers_nothing
    user_email g gpt_name dm dsp dh (w : world) :
  active_rag_sessions w !! g = None ->
  truthy (environ w !! "OPENAI_API_KEY") = false \/
  truthy (environ w !! "QDRANT_URL") = false ->
  exists w',
    get_or_create_rag_instance user_email g gpt_name dm dsp dh w
    = (Raised (ValueError (configuration_error w)), w') /\
    active_rag_sessions w' = active_rag_sessions w /\
    heap w' = heap w /\
    next_loc w' = next_loc w /\
    constructions g (trace w') = constructions g (trace w) /\
    active_rag_sessions w' !! g = None.
Proof.
  intros Hg Hmiss.
  assert (configured w = false) as Hc.
  { unfold configured. destruct Hmiss as [-> | ->]; [done | apply andb_false_r]. }
  eexists. split; [by apply resolve_unconfigured|].
  msimpl. rewrite constructions_app. cbn. repeat split; done.
Qed.

(** ** Merging overrides *)

Lemma merge_defaults_null (r : EnhancedRAG) : merge_defaults None None None r = r.
Proof. reflexivity. Qed.

(** A null override leaves its own field as it was, whatever the other
    overrides are. *)
Lemma merge_defaults_null_model dsp dh (r : EnhancedRAG) :
  default_llm_model_name (merge_defaults None dsp dh r) = default_llm_model_name r.
Proof.
  unfold merge_defaults. cbn [truthy].
  destruct (truthy dsp), (bool_decide (dh <> None)); reflexivity.
Qed.

Lemma merge_defaults_null_prompt dm dh (r : EnhancedRAG) :
  default_system_prompt (merge_defaults dm None dh r) = default_system_prompt r.
Proof.
  unfold merge_defaults. cbn [truthy].
  destruct (truthy dm), (bool_decide (dh <> None)); reflexivity.
Qed.

Lemma merge_defaults_null_hybrid dm dsp (r : EnhancedRAG) :
  default_use_hybrid_search (merge_defaults dm dsp None r) = default_use_hybrid_search r.
Proof.
  unfold merge_defaults. rewrite bool_decide_eq_false_2 by (intros H; by apply H).
  destruct (truthy dm), (truthy dsp); reflexivity.
Qed.

(** A flag that is given, [False] included, replaces the stored flag. *)
Lemma merge_defaults_given_hybrid dm dsp (b : bool) (r : EnhancedRAG) :
  default_use_hybrid_search (merge_defaults dm dsp (Some b) r) = Some b.
Proof.
  unfold merge_defaults. rewrite bool_decide_eq_true_2 by done. reflexivity.
Qed.

(** ** Ingestion: what the loops compute *)

Lemma process_uploaded_file_run (file : UploadFile) (b : bool) (w : world) :
  _process_uploaded_file_to_r2 file b w
  = (Returned (upload_result b file), log (upload_events b file) w).
Proof.
  unfold _process_uploaded_file_to_r2, upload_result, upload_events. msimpl.
  destruct (read file) as [file_content|e]; [|reflexivity].
  msimpl.
  destruct (upload_file file_content (filename file) b) as [[[] path]|e];
    msimpl; by rewrite ?log_log.
Qed.

Lemma for_each_app {A B} (body : B -> A -> M B) (xs ys : list A) (acc : B) (w : world) :
  for_each (xs ++ ys) body acc w
  = match for_each xs body acc w with
    | (Returned acc', w') => for_each ys body acc' w'
    | (Raised e, w') => (Raised e, w')
    end.
Proof.
  revert acc w. induction xs as [|x xs IH]; intros acc w; [done|].
  cbn [app for_each]. msimpl. destruct (body acc x w) as [[acc'|e] w']; [apply IH|done].
Qed.

Lemma upload_round_run (b : bool) acc (f : UploadFile) (w : world) :
  upload_round b acc f w
  = (Returned (acc.1 ++ [upload_result b f],
               if stored (upload_result b f)
               then acc.2 ++ [stored_url_or_key (upload_result b f)] else acc.2),
     log (upload_events b f) w).
Proof. unfold upload_round. msimpl. by rewrite process_uploaded_file_run. Qed.

Lemma chat_upload_round_run (b : bool) acc (f : UploadFile) (w : world) :
  chat_upload_round b acc f w
  = (Returned (acc.1 ++ [upload_result b f],
               if stored (upload_result b f)
               then acc.2 ++ [stored_url_or_key (upload_result b f)] else acc.2),
     log (upload_events b f) w).
Proof. unfold chat_upload_round. msimpl. by rewrite process_uploaded_file_run. Qed.

Lemma upload_loop_run (b : bool) (files : list UploadFile) rs ks (w : world) :
  for_each files (upload_round b) (rs, ks) w
  = (Returned (rs ++ List.map (upload_result b) files, ks ++ stored_locations b files),
     log (flat_map (upload_events b) files) w).
Proof.
  revert rs ks w. induction files as [|f files IH]; intros rs ks w.
  - cbn. msimpl. by rewrite !app_nil_r, log_nil.
  - cbn [for_each]. unfold mbind, M_bind, bind.
    rewrite upload_round_run. cbn [fst snd].
    unfold stored_locations. cbn [List.map List.filter flat_map].
    destruct (stored (upload_result b f)); rewrite IH, log_log;
      cbn [List.map]; by rewrite <- ?app_assoc.
Qed.

Lemma chat_upload_loop_run (b : bool) (files : list UploadFile) rs ks (w : world) :
  for_each files (chat_upload_round b) (rs, ks) w
  = (Returned (rs ++ List.map (upload_result b) files, ks ++ stored_locations b files),
     log (flat_map (upload_events b) files) w).
Proof.
  revert rs ks w. induction files as [|f files IH]; intros rs ks w.
  - cbn. msimpl. by rewrite !app_nil_r, log_nil.
  - cbn [for_each]. unfold mbind, M_bind, bind.
    rewrite chat_upload_round_run. cbn [fst snd].
    unfold stored_locations. cbn [List.map List.filter flat_map].
    destruct (stored (upload_result b f)); rewrite IH, log_log;
      cbn [List.map]; by rewrite <- ?app_assoc.
Qed.

Lemma kb_url_round_run (keys : list string) (url : string) (w : world) :
  kb_url_round keys url w = (Returned (keys ++ fetched url), log (url_events url) w).
Proof.
  unfold kb_url_round, fetched, url_events.
  destruct (valid_kb_url url); cbn [negb]; msimpl.
  - destruct (download_file_from_url url) as [[] r2_path]; msimpl;
      by rewrite ?log_log, ?app_nil_r.
  - by rewrite app_nil_r.
Qed.

Lemma kb_url_loop_run (urls : list string) (keys : list string) (w : world) :
  for_each urls kb_url_round keys w
  = (Returned (keys ++ fetched_locations urls), log (flat_map url_events urls) w).
Proof.
  revert keys w. induction urls as [|u urls IH]; intros keys w.
  - cbn. msimpl. by rewrite app_nil_r, log_nil.
  - cbn [for_each]. unfold mbind, M_bind, bind. rewrite kb_url_round_run, IH, log_log.
    cbn [fetched_locations flat_map]. by rewrite <- app_assoc.
Qed.

Lemma kb_task_run (urls : list string) (rag : loc) (w : world) :
  _process_kb_urls_task urls rag w = (Returned tt, log (kb_task_events urls rag w) w).
Proof.
  unfold _process_kb_urls_task, kb_task_events, kb_index_events, getattr_gpt_id.
  unfold mbind at 1 2 3, M_bind, bind. msimpl.
  rewrite kb_url_loop_run. cbn [app]. rewrite log_log.
  destruct (fetched_locations urls) as [|loc0 locs].
  - by rewrite app_nil_r.
  - unfold call_update_knowledge_base. msimpl.
    destruct (update_knowledge_base_from_r2 rag (loc0 :: locs)) as [[]|e];
      msimpl; rewrite !log_log; cbn [app]; by rewrite <- ?app_assoc.
Qed.







Lemma url_events_updates (urls : list string) :
  engine_updates (flat_map url_events urls) = [].
Proof.
  induction urls as [|u urls IH]; [done|].
  cbn [flat_map]. unfold engine_updates in *. rewrite List.filter_app, IH, app_nil_r.
  unfold url_events. destruct (valid_kb_url u); [|done].
  by destruct (download_file_from_url u) as [[] ?].
Qed.




Lemma kb_index_events_updates (rag : loc) (locs : list string) (w : world) :
  engine_updates (kb_index_events rag locs w)
  = match locs with [] => [] | _ :: _ => [UpdateKnowledgeBase rag locs] end.
Proof.
  unfold kb_index_events. destruct locs as [|loc0 locs]; [done|].
  by destruct (update_knowledge_base_from_r2 rag (loc0 :: locs)).
Qed.




Lemma kb_task_events_updates (urls : list string) (rag : loc) (w : world) :
  engine_updates (kb_task_events urls rag w)
  = match fetched_locations urls with
    | [] => []
    | _ :: _ => [UpdateKnowledgeBase rag (fetched_locations urls)]
    end.
Proof.
  unfold kb_task_events, engine_updates. cbn [List.filter is_engine_update].
  rewrite List.filter_app. fold (engine_updates (flat_map url_events urls)).
  rewrite url_events_updates. apply kb_index_events_updates.
Qed.


Lemma upload_events_updates (b : bool) (files : list UploadFile) :
  engine_updates (flat_map (upload_events b) files) = [].
Proof.
  induction files as [|f files IH]; [done|].
  cbn [flat_map]. unfold engine_updates in *. rewrite List.filter_app, IH, app_nil_r.
  unfold upload_events. destruct (read f) as [file_content|e]; [|done].
  by destruct (upload_file file_content (filename f) b) as [[[] ?]|?].
Qed.

Lemma opened_url_loop_run (urls : list string) (keys : list string) (w : world) :
  for_each urls opened_url_round keys w
  = (Returned (keys ++ fetched_locations urls), log (flat_map opened_url_events urls) w).
Proof.
  revert keys w. induction urls as [|u urls IH]; intros keys w.
  - cbn. msimpl. by rewrite app_nil_r, log_nil.
  - cbn [for_each]. unfold mbind, M_bind, bind.
    assert (opened_url_round keys u w
            = (Returned (keys ++ fetched u), log (opened_url_events u) w)) as ->.
    { unfold opened_url_round, fetched, opened_url_events.
      destruct (valid_kb_url u); msimpl.
      - by destruct (download_file_from_url u) as [[] ?]; rewrite ?app_nil_r.
      - by rewrite app_nil_r, log_nil. }
    rewrite IH, log_log. cbn [fetched_locations flat_map]. by rewrite <- app_assoc.
Qed.

Lemma opened_url_events_updates (urls : list string) :
  engine_updates (flat_map opened_url_events urls) = [].
Proof.
  induction urls as [|u urls IH]; [done|].
  cbn [flat_map]. unfold engine_updates in *. rewrite List.filter_app, IH, app_nil_r.
  unfold opened_url_events. by destruct (valid_kb_url u).
Qed.

Lemma opened_task_run (urls : list string) (rag : loc) (w : world) :
  _process_kb_urls_task_opened urls rag w
  = (Returned tt,
     log (flat_map opened_url_events urls ++ kb_index_events rag (fetched_locations urls) w) w).
Proof.
  unfold _process_kb_urls_task_opened, kb_index_events, getattr_gpt_id.
  unfold mbind at 1, M_bind, bind.
  rewrite opened_url_loop_run. cbn [app].
  destruct (fetched_locations urls) as [|loc0 locs].
  - msimpl. by rewrite app_nil_r.
  - unfold call_update_knowledge_base. msimpl.
    destruct (update_knowledge_base_from_r2 rag (loc0 :: locs)) as [[]|e];
      msimpl; rewrite !log_log; cbn [app]; by rewrite <- ?app_assoc.
Qed.

Lemma upload_documents_run_empty (files : list UploadFile) (user_email g is_user_document : string)
    (w : world) :
  let b := String.eqb (lower is_user_document) "true" in
  stored_locations b files = [] ->
  upload_documents_endpoint files user_email g is_user_document w
  = (Returned
       ({| status_code := 400;
           content := JDict
             [("message", JStr "No files were successfully uploaded to R2.");
              ("upload_results", JList (List.map model_dump (List.map (upload_result b) files)))] |},
        []),
     log (flat_map (upload_events b) files) w).
Proof.
  intros b Hempty. unfold upload_documents_endpoint. fold b.
  unfold mbind at 1, M_bind, bind. rewrite upload_loop_run, Hempty. reflexivity.
Qed.

(** ** Synchronous indexing of chat files *)

Lemma resolve_returns user_email g gpt_name dm dsp dh (w : world) :
  resolves w g = true ->
  exists w' evs,
    get_or_create_rag_instance user_email g gpt_name dm dsp dh w
    = (Returned (resolved_handle w g), w') /\
    trace w' = trace w ++ evs /\
    engine_updates evs = [].
Proof.
  unfold resolves, resolved_handle. intros Hres.
  destruct (active_rag_sessions w !! g) as [l|] eqn:Hg.
  - rewrite (resolve_existing _ _ _ _ _ _ _ _ Hg). by do 2 eexists.
  - rewrite bool_decide_eq_false_2 in Hres by (intros [? ?]; done). cbn in Hres.
    rewrite (resolve_new _ _ _ _ _ _ _ Hg Hres). by do 2 eexists.
Qed.

(** The three answers of [upload_chat_files_endpoint] for a tenant that
    resolves. *)
Lemma chat_files_resolved
    (files : list UploadFile)
    (user_email g gpt_name collection_name is_user_document use_hybrid optimize_pdfs : string)
    (w : world) :
  resolves w g = true ->
  let b := String.eqb (lower is_user_document) "true" in
  let locs := stored_locations b files in
  let rag := resolved_handle w g in
  let session_id := get_session_id user_email g in
  exists resp w' evs,
    upload_chat_files_endpoint files user_email g gpt_name collection_name
      is_user_document use_hybrid optimize_pdfs w
    = (Returned (resp, []), w') /\
    trace w' = trace w ++ evs /\
    status_code resp = 200%Z /\
    (locs = [] ->
     engine_updates evs = [] /\
     content resp
     = JDict [("success", JBool true);
              ("message", JStr "Processed and indexed 0 files");
              ("file_urls", JList []);
              ("processing", JBool false)]) /\
    (locs <> [] ->
     engine_updates evs = [chat_index_event b rag session_id locs] /\
     (chat_index_call b rag session_id locs = Returned tt ->
      content resp
      = JDict [("success", JBool true);
               ("message", JStr ("Processed and indexed " +:+ str_len locs +:+ " files"));
               ("file_urls", JStrs locs);
               ("processing", JBool true)]) /\
     (forall e, chat_index_call b rag session_id locs = Raised e ->
      content resp
      = JDict [("success", JBool false);
               ("message", JStr ("Failed to index " +:+ str_len locs +:+ " files: " +:+ str_exn e));
               ("file_urls", JStrs locs);
               ("processing", JBool false)])).
Proof.
  intros Hres b locs rag session_id.
  unfold upload_chat_files_endpoint. fold b.
  unfold mbind at 1, M_bind at 1, bind at 1. rewrite chat_upload_loop_run. cbn [snd app].
  fold locs.
  set (w1 := log (flat_map (upload_events b) files) w).
  destruct (resolve_returns user_email g (Given (Some gpt_name)) Omitted Omitted Omitted w1)
    as (w2 & evs2 & Hrun & Htrace & Hupd); [exact Hres|].
  change (resolved_handle w1 g) with rag in Hrun.
  change (trace w1) with (trace w ++ flat_map (upload_events b) files) in Htrace.
  unfold mbind at 1, M_bind at 1, bind at 1. rewrite Hrun.
  assert (forall evs3, engine_updates ((flat_map (upload_events b) files ++ evs2) ++ evs3)
                       = engine_updates evs3) as Hpre.
  { intros evs3. unfold engine_updates. rewrite !List.filter_app.
    fold (engine_updates (flat_map (upload_events b) files)). fold (engine_updates evs2).
    by rewrite upload_events_updates, Hupd. }
  destruct locs as [|loc0 rest] eqn:Hlocs.
  - exists (ok (JDict [("success", JBool true);
                       ("message", JStr "Processed and indexed 0 files");
                       ("file_urls", JList []);
                       ("processing", JBool false)])), w2,
      (flat_map (upload_events b) files ++ evs2).
    split; [reflexivity|]. split; [by rewrite Htrace, <- app_assoc|].
    split; [reflexivity|]. split; [|done].
    intros _. split; [|reflexivity]. rewrite <- (app_nil_r (_ ++ _)). by rewrite Hpre.
  - fold session_id. unfold call_update_user_documents, call_update_knowledge_base.
    unfold chat_index_call, chat_index_event.
    destruct b; msimpl.
    + destruct (update_user_documents_from_r2 rag session_id (loc0 :: rest)) as [[]|e] eqn:Hcall;
        msimpl;
        match goal with
        | |- context [log [?second] (log [?first] w2)] =>
            match type of Htrace with
            | _ = (_ ++ ?uploads) ++ _ =>
                do 2 eexists; exists ((uploads ++ evs2) ++ [first; second])
            end
        end;
        (split; [reflexivity|]);
        (split; [cbn [trace log with_trace]; rewrite Htrace, <- !app_assoc; reflexivity|]);
        (split; [reflexivity|]); (split; [done|]); intros _;
        (split; [rewrite Hpre; reflexivity|]);
        (split; [first [intros _; reflexivity | intros [=]] | intros e' [=]; subst; reflexivity]).
    + destruct (update_knowledge_base_from_r2 rag (loc0 :: rest)) as [[]|e] eqn:Hcall;
        msimpl;
        match goal with
        | |- context [log [?second] (log [?first] w2)] =>
            match type of Htrace with
            | _ = (_ ++ ?uploads) ++ _ =>
                do 2 eexists; exists ((uploads ++ evs2) ++ [first; second])
            end
        end;
        (split; [reflexivity|]);
        (split; [cbn [trace log with_trace]; rewrite Htrace, <- !app_assoc; reflexivity|]);
        (split; [reflexivity|]); (split; [done|]); intros _;
        (split; [rewrite Hpre; reflexivity|]);
        (split; [first [intros _; reflexivity | intros [=]] | intros e' [=]; subst; reflexivity]).
Qed.

(** ** The stream of [generate] *)

Lemma consume_not_active_frames (n : nat) (g : generator) :
  active (pc g) = false -> (consume n g).1 = [].
Proof.
  intros Hpc. destruct n as [|n]; [done|].
  destruct g as [[] s]; try done; reflexivity.
Qed.

Lemma consume_not_active_inner (n : nat) (g : generator) :
  active (pc g) = false -> inner (consume n g).2 = inner g.
Proof.
  intros Hpc. destruct n as [|n]; [done|].
  destruct g as [[] s]; try done; reflexivity.
Qed.

Lemma consume_not_active_pc (n : nat) (g : generator) :
  active (pc g) = false -> pc (consume (S n) g).2 = Closed.
Proof. intros Hpc. destruct g as [[] s]; try done; reflexivity. Qed.

Lemma anext_active (p : gen_pc) (s : engine_stream) :
  active p = true ->
  anext {| pc := p; inner := s |} = anext {| pc := InLoop; inner := s |}.
Proof. by destruct p. Qed.

Lemma consume_active (n : nat) (p : gen_pc) (s : engine_stream) :
  active p = true ->
  consume n {| pc := p; inner := s |}
  = match n with
    | O => ([], {| pc := p; inner := s |})
    | S _ => consume n {| pc := InLoop; inner := s |}
    end.
Proof. intros Hp. destruct n as [|n]; [done|]. cbn [consume]. by rewrite anext_active. Qed.

(** One read, by what the engine and [json.dumps] do. *)
Lemma consume_S (n : nat) (g : generator) :
  consume (S n) g
  = match anext g with
    | (Some frame, g') => (frame :: (consume n g').1, (consume n g').2)
    | (None, g') => ([], g')
    end.
Proof.
  cbn [consume]. destruct (anext g) as [[frame|] g']; [|done]. by destruct (consume n g').
Qed.

Lemma anext_fragment (c : json) (cs : list json) (e : ending) :
  anext {| pc := InLoop; inner := {| chunks := c :: cs; ending_of := e |} |}
  = match json_dumps_raises c with
    | None =>
        (Some (sse_frame c), {| pc := InLoop; inner := {| chunks := cs; ending_of := e |} |})
    | Some err =>
        (Some (sse_frame (error_chunk err)),
         {| pc := InHandler; inner := {| chunks := cs; ending_of := e |} |})
    end.
Proof. unfold anext. cbn. by destruct (json_dumps_raises c). Qed.

Lemma anext_end (e : ending) :
  anext {| pc := InLoop; inner := {| chunks := []; ending_of := e |} |}
  = match e with
    | Completes => (None, {| pc := Closed; inner := {| chunks := []; ending_of := e |} |})
    | Fails err =>
        (Some (sse_frame (error_chunk err)),
         {| pc := InHandler; inner := {| chunks := []; ending_of := Completes |} |})
    end.
Proof. by destruct e. Qed.

Lemma consume_frames_in_loop (n : nat) (s : engine_stream) :
  (consume n {| pc := InLoop; inner := s |}).1 = firstn n (full_frames s).
Proof.
  destruct s as [cs e]. unfold full_frames. cbn [chunks ending_of].
  revert n. induction cs as [|c cs IH]; intros [|n]; try done.
  - rewrite consume_S, anext_end. destruct e as [|err]; [done|].
    cbn [fst fragment_frames terminal_frames firstn].
    by rewrite consume_not_active_frames, firstn_nil.
  - rewrite consume_S, anext_fragment. cbn [fragment_frames].
    destruct (json_dumps_raises c) as [err|]; cbn [fst firstn].
    + by rewrite consume_not_active_frames, firstn_nil.
    + by rewrite IH.
Qed.

Lemma consume_frames (n : nat) (s : engine_stream) :
  (consume n (running s)).1 = firstn n (full_frames s).
Proof.
  unfold running. rewrite consume_active by done.
  destruct n; [done | apply consume_frames_in_loop].
Qed.

Lemma consume_inner_in_loop (n : nat) (s : engine_stream) :
  chunks (inner (consume n {| pc := InLoop; inner := s |}).2)
  = skipn (length (consume n {| pc := InLoop; inner := s |}).1) (chunks s).
Proof.
  destruct s as [cs e]. cbn [chunks].
  revert n. induction cs as [|c cs IH]; intros [|n]; try done.
  - rewrite consume_S, anext_end. destruct e as [|err]; [done|].
    cbn [fst snd]. by rewrite consume_not_active_inner, skipn_nil.
  - rewrite consume_S, anext_fragment.
    destruct (json_dumps_raises c) as [err|]; cbn [fst snd length skipn].
    + by rewrite consume_not_active_inner, consume_not_active_frames.
    + by rewrite IH.
Qed.

(** The engine has been stepped only for the frames that were read. *)
Lemma consume_inner (n : nat) (s : engine_stream) :
  chunks (inner (consume n (running s)).2)
  = skipn (length (consume n (running s)).1) (chunks s).
Proof.
  unfold running. rewrite consume_active by done.
  destruct n; [done | apply consume_inner_in_loop].
Qed.

Lemma consume_inner_encoded_in_loop (n : nat) (s : engine_stream) :
  forallb encodes (firstn n (chunks s)) = true ->
  chunks (inner (consume n {| pc := InLoop; inner := s |}).2) = skipn n (chunks s).
Proof.
  destruct s as [cs e]. cbn [chunks].
  revert n. induction cs as [|c cs IH]; intros [|n] Henc; try done.
  - rewrite consume_S, anext_end. destruct e as [|err]; [done|].
    cbn [snd]. by rewrite consume_not_active_inner.
  - cbn [firstn forallb] in Henc. apply andb_prop in Henc as [Hc Hcs].
    unfold encodes in Hc. rewrite consume_S, anext_fragment.
    destruct (json_dumps_raises c) as [err|]; [done|]. cbn [snd skipn]. by apply IH.
Qed.

Lemma consume_inner_encoded (n : nat) (s : engine_stream) :
  forallb encodes (firstn n (chunks s)) = true ->
  chunks (inner (consume n (running s)).2) = skipn n (chunks s).
Proof.
  intros Henc. unfold running. rewrite consume_active by done.
  destruct n; [done | by apply consume_inner_encoded_in_loop].
Qed.

Lemma consume_closes_in_loop (n : nat) (s : engine_stream) :
  length (chunks s) + 1 < n -> pc (consume n {| pc := InLoop; inner := s |}).2 = Closed.
Proof.
  destruct s as [cs e]. cbn [chunks].
  revert n. induction cs as [|c cs IH]; intros n Hn; cbn [length] in Hn.
  - destruct n as [|[|n]]; [lia|lia|]. rewrite consume_S, anext_end.
    destruct e as [|err]; [done|]. cbn [snd]. by rewrite consume_not_active_pc.
  - destruct n as [|[|n]]; [lia|lia|]. rewrite consume_S, anext_fragment.
    destruct (json_dumps_raises c) as [err|]; cbn [snd].
    + by rewrite consume_not_active_pc.
    + apply IH. lia.
Qed.

Lemma consume_closes (n : nat) (s : engine_stream) :
  length (chunks s) + 1 < n -> pc (consume n (running s)).2 = Closed.
Proof.
  intros Hn. unfold running. rewrite consume_active by done.
  destruct n; [lia | by apply consume_closes_in_loop].
Qed.

(** Closing or cancelling a generator of [generate] emits nothing and
    steps nothing: the handler is for [Exception]s. *)
Lemma aclose_silent (g : generator) :
  aclose g = (None, {| pc := Closed; inner := inner g |}).
Proof. by destruct g as [[] s]. Qed.

Lemma cancel_silent (g : generator) :
  athrow CancelledError g = (None, {| pc := Closed; inner := inner g |}).
Proof. by destruct g as [[] s]. Qed.

Lemma is_error_frame_error_chunk (e : exn) : is_error_frame (sse_frame (error_chunk e)) = true.
Proof. reflexivity. Qed.

Lemma fragment_frames_length (cs : list json) (e : ending) :
  length (fragment_frames cs e) <= S (length cs).
Proof.
  induction cs as [|c cs IH]; cbn [fragment_frames length].
  - destruct e; cbn; lia.
  - destruct (json_dumps_raises c); cbn [length]; lia.
Qed.

Lemma consume_full (n : nat) (s : engine_stream) :
  length (chunks s) < n -> (consume n (running s)).1 = full_frames s.
Proof.
  intros Hn. rewrite consume_frames. apply firstn_all2.
  pose proof (fragment_frames_length (chunks s) (ending_of s)). unfold full_frames. lia.
Qed.

(** The stream read to its end, by the exception that ends the [try]. *)
Lemma fragment_frames_error (cs : list json) (e : ending) :
  fragment_frames cs e
  = match stream_error cs e with
    | None => List.map sse_frame cs
    | Some (k, err) => List.map sse_frame (firstn k cs) ++ [sse_frame (error_chunk err)]
    end.
Proof.
  induction cs as [|c cs IH]; cbn [fragment_frames stream_error].
  - by destruct e.
  - destruct (json_dumps_raises c) as [err|]; [done|]. rewrite IH.
    by destruct (stream_error cs e) as [[k err]|].
Qed.

Lemma stream_error_none (cs : list json) (e : ending) :
  stream_error cs e = None -> forallb encodes cs = true /\ e = Completes.
Proof.
  induction cs as [|c cs IH]; cbn [stream_error forallb]; [by destruct e|].
  unfold encodes at 1. destruct (json_dumps_raises c) as [err|]; [done|].
  destruct (stream_error cs e) as [[k err]|]; [done|]. intros _. by apply IH.
Qed.

Lemma stream_error_some (cs : list json) (e : ending) (k : nat) (err : exn) :
  stream_error cs e = Some (k, err) ->
  forallb encodes (firstn k cs) = true /\
  (k = length cs /\ e = Fails err \/
   exists bad, cs !! k = Some bad /\ json_dumps_raises bad = Some err).
Proof.
  revert k. induction cs as [|c cs IH]; intros k; cbn [stream_error].
  - destruct e as [|err']; [done|]. intros [= <- <-]. split; [done|]. by left.
  - destruct (json_dumps_raises c) as [err'|] eqn:Hc.
    + intros [= <- <-]. split; [done|]. right. by exists c.
    + destruct (stream_error cs e) as [[k' err']|]; [|done]. intros [= <- <-].
      destruct (IH k' eq_refl) as [Henc Hwhere]. split.
      * cbn [firstn forallb]. unfold encodes at 1. by rewrite Hc.
      * destruct Hwhere as [[-> ->]|(bad & Hbad & Hraises)]; [by left|].
        right. by exists bad.
Qed.

Lemma fragment_frames_encoded (cs : list json) (e : ending) :
  forallb encodes cs = true ->
  fragment_frames cs e = List.map sse_frame cs ++ terminal_frames e.
Proof.
  induction cs as [|c cs IH]; [done|]. cbn [forallb fragment_frames List.map app].
  intros [Hc Hcs]%andb_prop. unfold encodes in Hc.
  destruct (json_dumps_raises c); [done|]. by rewrite IH.
Qed.

Lemma fragment_frames_rejected (before after : list json) (bad : json) (err : exn) (e : ending) :
  forallb encodes before = true ->
  json_dumps_raises bad = Some err ->
  fragment_frames (before ++ bad :: after) e
  = List.map sse_frame before ++ [sse_frame (error_chunk err)].
Proof.
  intros Henc Hbad. induction before as [|c cs IH]; cbn [app fragment_frames List.map].
  - by rewrite Hbad.
  - cbn [forallb] in Henc. apply andb_prop in Henc as [Hc Hcs]. unfold encodes in Hc.
    destruct (json_dumps_raises c); [done|]. by rewrite IH.
Qed.

Lemma fragment_frames_prefix (n : nat) (cs : list json) (e : ending) :
  n <= length cs ->
  forallb encodes (firstn n cs) = true ->
  firstn n (fragment_frames cs e) = List.map sse_frame (firstn n cs).
Proof.
  revert n. induction cs as [|c cs IH]; intros [|n] Hn Henc; try done; [cbn in Hn; lia|].
  cbn [firstn forallb] in Henc. apply andb_prop in Henc as [Hc Hcs]. unfold encodes in Hc.
  cbn [fragment_frames]. destruct (json_dumps_raises c); [done|].
  cbn [firstn List.map]. rewrite IH; [done | cbn in Hn; lia | done].
Qed.

Lemma error_frames_of_fragments (cs : list json) :
  forallb (fun c => negb (is_error_frame (sse_frame c))) cs = true ->
  List.filter is_error_frame (List.map sse_frame cs) = [].
Proof.
  induction cs as [|c cs IH]; [done|]. cbn [forallb List.map List.filter].
  intros [Hc Hcs]%andb_prop. apply negb_true_iff in Hc. rewrite Hc. by apply IH.
Qed.

Lemma forallb_firstn {A} (f : A -> bool) (k : nat) (xs : list A) :
  forallb f xs = true -> forallb f (firstn k xs) = true.
Proof.
  revert k. induction xs as [|x xs IH]; intros [|k]; try done.
  cbn [forallb firstn]. intros [Hx Hxs]%andb_prop. by rewrite Hx, IH.
Qed.

(** C5, as the code has it: a chat stream that the consumer reads to its
    end ends in exactly one of two ways, by what happens inside the [try]
    of [generate] over the engine's [query_stream].  Either nothing is
    raised: [json.dumps] encodes every fragment and the engine's sequence
    completes, and the frames are the fragments' frames and nothing else.
    Or something is raised, by [json.dumps] on a fragment or by the engine
    after its last fragment: the frames of the fragments before it are
    followed by one error frame, of type [error] and carrying [str(e)],
    and that frame is the last.  Either way the generator is exhausted.
    When no fragment of the engine is itself an object of type [error], the
    stream holds no error frame in the first case and exactly one in the
    second. *)
Theorem C5_stream_ends_by_completion_or_one_error_frame
    (rag_instance : loc) (session_id : string) (request : ChatStreamRequest) (n : nat) :
  let s := query_stream rag_instance
             {| q_session_id := session_id;
                q_query := message request;
                q_chat_history := history request;
                q_user_r2_document_keys := user_document_keys request;
                q_use_hybrid_search := use_hybrid_search request;
                q_llm_model_name := model request;
                q_system_prompt_override := system_prompt request;
                q_enable_web_search := web_search_enabled request |} in
  let fragments := chunks s in
  length fragments + 1 < n ->
  let frames := (consume n (generate rag_instance session_id request)).1 in
  pc (consume n (generate rag_instance session_id request)).2 = Closed /\
  match stream_error fragments (ending_of s) with
  | None =>
      forallb encodes fragments = true /\
      ending_of s = Completes /\
      frames = List.map sse_frame fragments
  | Some (k, e) =>
      forallb encodes (firstn k fragments) = true /\
      (k = length fragments /\ ending_of s = Fails e \/
       exists bad, fragments !! k = Some bad /\ json_dumps_raises bad = Some e) /\
      frames
      = List.map sse_frame (firstn k fragments)
        ++ ["data: " +:+ json_dumps (JDict [("type", JStr "error");
                                            ("data", JDict [("error", JStr (str_exn e))])])
            +:+ LF +:+ LF]
  end /\
  (forallb (fun c => negb (is_error_frame (sse_frame c))) fragments = true ->
   length (List.filter is_error_frame frames)
   = match stream_error fragments (ending_of s) with None => 0 | Some _ => 1 end).
Proof.
  intros s fragments Hn frames.
  change (generate rag_instance session_id request) with (running s) in *.
  assert (frames = full_frames s) as Hframes by (apply (consume_full n s); unfold fragments in Hn; lia).
  split; [by apply (consume_closes n s)|].
  rewrite Hframes. unfold full_frames. fold fragments.
  rewrite fragment_frames_error.
  destruct (stream_error fragments (ending_of s)) as [[k e]|] eqn:Herr.
  - apply stream_error_some in Herr as [Henc Hwhere]. split; [done|].
    intros Hclean. rewrite List.filter_app, error_frames_of_fragments.
    + cbn [List.filter app]. by rewrite is_error_frame_error_chunk.
    + by apply forallb_firstn.
  - apply stream_error_none in Herr as [Henc Hend]. split; [done|].
    intros Hclean. by rewrite error_frames_of_fragments.
Qed.

(** C6: when the consumer disconnects after reading [n] frames, what it
    has seen is the first [n] frames of the stream over the engine's
    [query_stream]: the closing of the generator, or a cancellation raised
    at its [yield], adds no frame.  The engine's generator has been stepped
    for the frames that were read and for no other, so for its first [n]
    fragments when [json.dumps] encodes them, and keeps the rest of its
    fragments unproduced; the generator of the response is closed, and
    nothing is produced or emitted however often it is polled again. *)
Theorem C6_no_fragment_after_disconnect
    (rag_instance : loc) (session_id : string) (request : ChatStreamRequest) (n m : nat) :
  let s := query_stream rag_instance
             {| q_session_id := session_id;
                q_query := message request;
                q_chat_history := history request;
                q_user_r2_document_keys := user_document_keys request;
                q_use_hybrid_search := use_hybrid_search request;
                q_llm_model_name := model request;
                q_system_prompt_override := system_prompt request;
                q_enable_web_search := web_search_enabled request |} in
  let g0 := generate rag_instance session_id request in
  let frames := (consume_then_disconnect n g0).1 in
  let g := (consume_then_disconnect n g0).2 in
  inner g0 = s /\
  frames = firstn n (full_frames (inner g0)) /\
  athrow CancelledError (consume n g0).2 = (None, g) /\
  chunks (inner g) = skipn (length frames) (chunks (inner g0)) /\
  (forallb encodes (firstn n (chunks (inner g0))) = true ->
   chunks (inner g) = skipn n (chunks (inner g0))) /\
  pc g = Closed /\
  consume m g = ([], g).
Proof.
  intros s g0 frames g. subst frames g. unfold consume_then_disconnect.
  pose proof (consume_frames n (inner g0)) as Hf.
  pose proof (consume_inner n (inner g0)) as Hi.
  pose proof (consume_inner_encoded n (inner g0)) as He.
  change (running (inner g0)) with g0 in *.
  destruct (consume n g0) as [frames g']. rewrite aclose_silent, cancel_silent.
  cbn [fst snd option_list inner pc] in *.
  rewrite app_nil_r. repeat split; try done. by destruct m.
Qed.

(** *** [json.dumps] writes one line *)

Lemma one_line_app (s t : string) : one_line (s +:+ t) = one_line s && one_line t.
Proof.
  induction s as [|c s IH]; [done|].
  change (String c s +:+ t) with (String c (s +:+ t)).
  cbn [one_line]. by rewrite IH, andb_assoc.
Qed.

Lemma one_line_escape_char (c : ascii) : one_line (escape_char c) = true.
Proof. destruct c as [[] [] [] [] [] [] [] []]; vm_compute; reflexivity. Qed.

Lemma one_line_escape_string (s : string) : one_line (escape_string s) = true.
Proof.
  induction s as [|c s IH]; [done|].
  cbn [escape_string]. by rewrite one_line_app, one_line_escape_char, IH.
Qed.

Lemma one_line_quote (s : string) : one_line (quote s) = true.
Proof. unfold quote. by rewrite !one_line_app, one_line_escape_string. Qed.

Lemma one_line_pretty_N_go (x : N) (s : string) :
  one_line s = true -> one_line (pretty_N_go x s) = true.
Proof.
  revert s. induction (N.lt_wf_0 x) as [x _ IH]; intros s Hs.
  assert (x = 0 \/ 0 < x)%N as [->|Hpos] by lia.
  - by rewrite pretty_N_go_0.
  - rewrite pretty_N_go_step by done. apply IH; [by apply N.div_lt|].
    cbn [one_line]. rewrite Hs, andb_true_r.
    unfold pretty_N_char. by repeat case_match.
Qed.

Lemma one_line_pretty_Z (z : Z) : one_line (pretty z) = true.
Proof.
  assert (forall p : positive, one_line (pretty p) = true) as Hpos.
  { intros p. unfold pretty, pretty_positive, pretty, pretty_N.
    case_decide; [done|]. by apply one_line_pretty_N_go. }
  destruct z as [|p|p]; [done|apply Hpos|].
  unfold pretty, pretty_Z. by rewrite one_line_app, Hpos.
Qed.

Lemma one_line_str_join (sep : string) (parts : list string) :
  one_line sep = true -> Forall (fun p => one_line p = true) parts ->
  one_line (str_join sep parts) = true.
Proof.
  intros Hsep. induction 1 as [|p parts Hp _ IH]; [done|].
  destruct parts as [|q parts]; [done|].
  change (str_join sep (p :: q :: parts)) with (p +:+ sep +:+ str_join sep (q :: parts)).
  by rewrite !one_line_app, Hp, Hsep, IH.
Qed.

Lemma json_dumps_one_line : forall v : json, one_line (json_dumps v) = true.
Proof.
  fix IH 1. intros [| [] | z | s | items | members]; cbn [json_dumps]; try done.
  - apply one_line_pretty_Z.
  - apply one_line_quote.
  - rewrite !one_line_app. rewrite one_line_str_join; [done|done|].
    induction items as [|x xs IHxs]; constructor; [apply IH | apply IHxs].
  - rewrite !one_line_app. rewrite one_line_str_join; [done|done|].
    induction members as [|[k x] xs IHxs]; constructor; [|apply IHxs].
    cbn [fst snd]. by rewrite !one_line_app, one_line_quote, IH.
Qed.

Lemma sse_frame_one_event (chunk : json) : one_event (sse_frame chunk).
Proof. exists (json_dumps chunk). split; [done | apply json_dumps_one_line]. Qed.

Lemma fragment_frames_one_event (cs : list json) (e : ending) :
  Forall one_event (fragment_frames cs e).
Proof.
  induction cs as [|c cs IH]; cbn [fragment_frames].
  - destruct e; constructor; [apply sse_frame_one_event | constructor].
  - destruct (json_dumps_raises c); constructor;
      [apply sse_frame_one_event | constructor | apply sse_frame_one_event | exact IH].
Qed.

Lemma full_frames_one_event (s : engine_stream) : Forall one_event (full_frames s).
Proof. apply fragment_frames_one_event. Qed.

(** C7, as the code has it: the frames of a chat stream are, in the order
    of the engine's delivery, one frame [data: <json.dumps(fragment)>] and a
    blank line for each fragment of [query_stream] up to the first one that
    [json.dumps] rejects.  A consumer that reads [n] frames gets the first
    [n] of them, so the frames of the first [n] fragments when these are
    encoded.  When every fragment is encoded, the stream read to its end is
    the list of the fragments' frames followed by nothing but the error
    frame of an engine failure.  When a fragment is rejected, the error
    frame stands in its place and the stream ends there: the fragments
    after it are not emitted.  The JSON text of a frame holds no line feed,
    so that the blank line at its end is the only one: no fragment is split
    over two events and no two fragments share one. *)
Theorem C7_one_frame_per_fragment_in_order
    (rag_instance : loc) (session_id : string) (request : ChatStreamRequest) (n : nat) :
  let s := query_stream rag_instance
             {| q_session_id := session_id;
                q_query := message request;
                q_chat_history := history request;
                q_user_r2_document_keys := user_document_keys request;
                q_use_hybrid_search := use_hybrid_search request;
                q_llm_model_name := model request;
                q_system_prompt_override := system_prompt request;
                q_enable_web_search := web_search_enabled request |} in
  let fragments := chunks s in
  let g0 := generate rag_instance session_id request in
  let frame := fun chunk => "data: " +:+ json_dumps chunk +:+ LF +:+ LF in
  (consume n g0).1 = firstn n (consume (S (length fragments)) g0).1 /\
  (n <= length fragments ->
   forallb encodes (firstn n fragments) = true ->
   (consume n g0).1 = List.map frame (firstn n fragments)) /\
  (forallb encodes fragments = true ->
   (consume (S (length fragments)) g0).1
   = List.map frame fragments ++ terminal_frames (ending_of s)) /\
  (forall before bad after e,
     fragments = before ++ bad :: after ->
     forallb encodes before = true ->
     json_dumps_raises bad = Some e ->
     (consume (S (length fragments)) g0).1
     = List.map frame before ++ [frame (error_chunk e)]) /\
  Forall one_event (consume n g0).1.
Proof.
  intros s fragments g0 frame.
  change g0 with (running s).
  rewrite (consume_full (S (length fragments)) s) by (unfold fragments; lia).
  rewrite (consume_frames n s).
  split; [done|]. split; [|split; [|split]].
  - intros Hn Henc. by apply fragment_frames_prefix.
  - intros Henc. by apply fragment_frames_encoded.
  - intros before bad after e Hsplit Henc Hbad. unfold full_frames. fold fragments.
    rewrite Hsplit. by apply fragment_frames_rejected.
  - apply Forall_take, full_frames_one_event.
Qed.

(** ** Reset *)

Lemma reset_forbidden (g : string) (w : world) :
  development w = false ->
  dev_reset_gpt_context_endpoint g w = (Returned forbidden, w).
Proof.
  unfold development, dev_reset_gpt_context_endpoint. intros Hdev.
  msimpl. by rewrite Hdev.
Qed.

Lemma reset_not_found (g : string) (w : world) :
  development w = true ->
  active_rag_sessions w !! g = None ->
  dev_reset_gpt_context_endpoint g w = (Returned (not_found g), w).
Proof.
  unfold development, dev_reset_gpt_context_endpoint. intros Hdev Hg.
  msimpl. rewrite Hdev. cbn [negb]. by rewrite Hg.
Qed.

Lemma reset_present_run (g : string) (l : loc) (w : world) :
  development w = true ->
  active_rag_sessions w !! g = Some l ->
  dev_reset_gpt_context_endpoint g w
  = (Returned (reset_answer g (reset_raises g l (fs w))),
     popped g
       (match purged_path g l (fs w) with
        | Some path => (shutil_rmtree path (fs w)).2
        | None => fs w
        end)
       (ClearAllContext l ::
        (match purged_path g l (fs w) with
         | Some path => [Rmtree path]
         | None => []
         end) ++ [reset_line g (reset_raises g l (fs w))])
       w).
Proof.
  unfold development, dev_reset_gpt_context_endpoint, reset_raises, purged_path.
  intros Hdev Hg. msimpl. rewrite Hdev. cbn [negb]. rewrite Hg.
  unfold sessions_pop, sessions_getitem, call_clear_all_context, path_exists, rmtree.
  msimpl. rewrite Hg. msimpl.
  destruct (clear_all_context l) as [[]|e]; msimpl;
    [destruct (str_format LOCAL_KB_INDEX_PATH_TEMPLATE g) as [path|e]; msimpl;
     [destruct (os_path_exists path (fs w)); msimpl;
      [destruct (shutil_rmtree path (fs w)) as [[[]|e] disk]; msimpl|]|]|];
    unfold popped, with_sessions, log, with_fs, with_trace, reset_answer, reset_line;
    cbn [environ active_rag_sessions heap next_loc fs trace app];
    rewrite <- ?app_assoc; reflexivity.
Qed.

(** Whatever the steps of the [try] block do, a reset of a registered key
    in development mode removes the entry and calls the teardown, and does
    nothing else to the registry, the instances and the engine. *)
Lemma reset_present (g : string) (l : loc) (w : world) :
  development w = true ->
  active_rag_sessions w !! g = Some l ->
  exists resp paths evs,
    dev_reset_gpt_context_endpoint g w
    = (Returned resp, popped g paths (ClearAllContext l :: evs) w) /\
    List.filter is_constructed evs = [] /\
    List.filter is_teardown evs = [] /\
    engine_updates evs = [].
Proof.
  intros Hdev Hg. rewrite (reset_present_run g l w Hdev Hg).
  do 3 eexists. split; [reflexivity|].
  destruct (purged_path g l (fs w)), (reset_raises g l (fs w)); done.
Qed.

Lemma registry_wf_created (g : string) (r : EnhancedRAG) (w : world) :
  registry_wf w -> registry_wf (created g r w).
Proof.
  intros Hwf g' l'. cbn [created active_rag_sessions next_loc].
  rewrite lookup_insert. case_decide; [intros [= <-]; lia|].
  intros Hl. apply Hwf in Hl. lia.
Qed.

Lemma registry_wf_popped (g : string) paths evs (w : world) :
  registry_wf w -> registry_wf (popped g paths evs w).
Proof.
  intros Hwf g' l'. cbn [popped active_rag_sessions next_loc].
  rewrite lookup_delete. case_decide; [done|]. apply Hwf.
Qed.

(** [registry_wf] holds of the empty registry and is kept by every resolve
    and every reset. *)
Lemma registry_wf_empty (w : world) : active_rag_sessions w = ∅ -> registry_wf w.
Proof. intros Hempty g l. by rewrite Hempty, lookup_empty. Qed.

Lemma resolve_keeps_wf user_email g gpt_name dm dsp dh (w : world) :
  registry_wf w ->
  registry_wf (get_or_create_rag_instance user_email g gpt_name dm dsp dh w).2.
Proof.
  intros Hwf. destruct (active_rag_sessions w !! g) as [l|] eqn:Hg.
  - by rewrite (resolve_existing _ _ _ _ _ _ _ _ Hg).
  - destruct (configured w) eqn:Hc.
    + rewrite (resolve_new _ _ _ _ _ _ _ Hg Hc). by apply registry_wf_created.
    + by rewrite (resolve_unconfigured _ _ _ _ _ _ _ Hg Hc).
Qed.

Lemma reset_keeps_wf (g : string) (w : world) :
  registry_wf w -> registry_wf (dev_reset_gpt_context_endpoint g w).2.
Proof.
  intros Hwf. destruct (development w) eqn:Hdev.
  - destruct (active_rag_sessions w !! g) as [l|] eqn:Hg.
    + destruct (reset_present g l w Hdev Hg) as (resp & paths & evs & -> & _).
      by apply registry_wf_popped.
    + by rewrite reset_not_found.
  - by rewrite reset_forbidden.
Qed.

(** ** The registry over whole runs *)

Lemma merge_defaults_gpt_id dm dsp dh (r : EnhancedRAG) :
  gpt_id (merge_defaults dm dsp dh r) = gpt_id r.
Proof.
  unfold merge_defaults.
  destruct (truthy dm), (truthy dsp), (bool_decide (dh <> None)); reflexivity.
Qed.

Lemma run_ops_snoc (ops : list registry_op) (o : registry_op) (w : world) :
  run_ops (ops ++ [o]) w = run_op o (run_ops ops w).
Proof. unfold run_ops. by rewrite foldl_snoc. Qed.

Section Invariant.

Variable P : string -> EnhancedRAG -> Prop.
Variable env : gmap string string.

Hypothesis P_new : forall g dm dsp dh (w : world),
  environ w = env -> configured w = true -> P g (new_instance g dm dsp dh w).
Hypothesis P_merge : forall g dm dsp dh (r : EnhancedRAG),
  P g r -> P g (merge_defaults dm dsp dh r).

Lemma reg_inv_boot (disk : gset string) : reg_inv P env (boot env disk).
Proof. split; [done|]. intros g l. cbn. by rewrite lookup_empty. Qed.

Lemma reg_inv_resolve user_email g gpt_name dm dsp dh (w : world) :
  reg_inv P env w ->
  reg_inv P env (get_or_create_rag_instance user_email g gpt_name dm dsp dh w).2.
Proof.
  intros [Henv Hentry]. destruct (active_rag_sessions w !! g) as [l|] eqn:Hg.
  - rewrite (resolve_existing _ _ _ _ _ _ _ _ Hg). split; [done|].
    intros g' l' Hg'. cbn [snd] in *. msimpl.
    destruct (Hentry _ _ Hg') as (Hlt & r' & Hr' & Hid & HP). split; [done|].
    rewrite lookup_alter. case_decide as Hl.
    + subst l'. rewrite Hr'. cbn.
      eexists. split; [done|]. rewrite merge_defaults_gpt_id. split; [done|].
      by apply P_merge.
    + by exists r'.
  - destruct (configured w) eqn:Hc.
    + rewrite (resolve_new _ _ _ _ _ _ _ Hg Hc). split; [done|].
      intros g' l'. cbn [snd created active_rag_sessions heap next_loc].
      rewrite lookup_insert. case_decide as Hk.
      * intros [= <-]. subst g'. split; [lia|]. rewrite lookup_insert_eq.
        eexists. split; [done|]. split; [done|]. by apply P_new.
      * intros Hg'. destruct (Hentry _ _ Hg') as (Hlt & r' & Hr' & Hid & HP).
        split; [lia|]. rewrite lookup_insert_ne by lia. by exists r'.
    + by rewrite (resolve_unconfigured _ _ _ _ _ _ _ Hg Hc).
Qed.

Lemma reg_inv_reset (g : string) (w : world) :
  reg_inv P env w -> reg_inv P env (dev_reset_gpt_context_endpoint g w).2.
Proof.
  intros Hinv. destruct (development w) eqn:Hdev.
  - destruct (active_rag_sessions w !! g) as [l|] eqn:Hg.
    + destruct (reset_present g l w Hdev Hg) as (resp & paths & evs & -> & _).
      destruct Hinv as [Henv Hentry]. split; [done|].
      intros g' l'. cbn [snd popped active_rag_sessions heap next_loc].
      rewrite lookup_delete. case_decide; [done|]. apply Hentry.
    + by rewrite reset_not_found.
  - by rewrite reset_forbidden.
Qed.

Lemma reg_inv_run_ops (ops : list registry_op) (disk : gset string) :
  reg_inv P env (run_ops ops (boot env disk)).
Proof.
  induction ops as [|o ops IH] using rev_ind; [apply reg_inv_boot|].
  rewrite run_ops_snoc. destruct o as [c|g]; cbn [run_op].
  - by apply reg_inv_resolve.
  - by apply reg_inv_reset.
Qed.

End Invariant.

Lemma reg_inv_injective P env (w : world) (g1 g2 : string) (l : loc) :
  reg_inv P env w ->
  active_rag_sessions w !! g1 = Some l ->
  active_rag_sessions w !! g2 = Some l ->
  g1 = g2.
Proof.
  intros [_ Hentry] H1 H2.
  destruct (Hentry _ _ H1) as (_ & r1 & Hr1 & <- & _).
  destruct (Hentry _ _ H2) as (_ & r2 & Hr2 & <- & _).
  congruence.
Qed.

Lemma reg_inv_plain env (ops : list registry_op) (disk : gset string) :
  reg_inv (fun _ _ => True) env (run_ops ops (boot env disk)).
Proof. by apply reg_inv_run_ops. Qed.

(** X1: in every state that the process reaches from its start by resolves
    and resets, in any number and order, every registered handle is an
    allocated instance whose [gpt_id] attribute is the key it is registered
    under; hence no two keys share a handle. *)
Theorem registered_handles_carry_their_key
    (env : gmap string string) (disk : gset string) (ops : list registry_op) :
  let w := run_ops ops (boot env disk) in
  (forall g l, active_rag_sessions w !! g = Some l ->
     l < next_loc w /\ gpt_id <$> heap w !! l = Some g) /\
  (forall g1 g2 l,
     active_rag_sessions w !! g1 = Some l ->
     active_rag_sessions w !! g2 = Some l ->
     g1 = g2).
Proof.
  intros w. pose proof (reg_inv_plain env ops disk) as Hinv. fold w in Hinv. split.
  - intros g l Hg. destruct (reg_entry _ _ _ Hinv _ _ Hg) as (Hlt & r & Hr & Hid & _).
    split; [done|]. by rewrite Hr, <- Hid.
  - intros g1 g2 l. by eapply reg_inv_injective.
Qed.

Lemma truthy_nonempty (s : string) : truthy (Some s) = true -> s <> EmptyString.
Proof. cbn. intros H ->. done. Qed.

Lemma holds_credentials_new env g dm dsp dh (w : world) :
  environ w = env -> configured w = true ->
  holds_credentials env (new_instance g dm dsp dh w).
Proof.
  intros <- [Hk Hq]%andb_prop. unfold holds_credentials, new_instance.
  cbn [openai_api_key qdrant_url qdrant_api_key temp_processing_path default_llm_model_name].
  destruct (environ w !! "OPENAI_API_KEY") as [k|] eqn:Ek; [|done].
  destruct (environ w !! "QDRANT_URL") as [q|] eqn:Eq; [|done].
  cbn [default]. repeat split; try done; try by apply truthy_nonempty.
  intros Hm. unfold py_or. destruct dm as [m|].
  - destruct (truthy (Some m)) eqn:Hmt; [by apply truthy_nonempty|].
    destruct (environ w !! "DEFAULT_OPENAI_MODEL") as [d|]; cbn; [congruence|done].
  - destruct (environ w !! "DEFAULT_OPENAI_MODEL") as [d|]; cbn; [congruence|done].
Qed.

Lemma holds_credentials_merge env dm dsp dh (r : EnhancedRAG) :
  holds_credentials env r -> holds_credentials env (merge_defaults dm dsp dh r).
Proof.
  unfold holds_credentials, merge_defaults.
  intros (Hk & Hk' & Hq & Hq' & Ha & Ht & Hm).
  destruct (truthy dm) eqn:Hdm, (truthy dsp), (bool_decide (dh <> None));
    cbn; repeat split; try done;
    intros _; destruct dm as [m|]; try done; by apply truthy_nonempty.
Qed.

(** X2: in every state reached from the start of the process, the instance
    of a registered tenant holds the credentials of the environment: the
    same non-empty OpenAI key and Qdrant URL that the environment has, its
    Qdrant key, and the download directory of the module; and its model name
    is not empty unless [DEFAULT_OPENAI_MODEL] is set to the empty string.
    No later resolve, with whatever overrides, changes this. *)
Theorem registered_instances_hold_the_credentials
    (env : gmap string string) (disk : gset string) (ops : list registry_op)
    (g : string) (l : loc) :
  active_rag_sessions (run_ops ops (boot env disk)) !! g = Some l ->
  exists r,
    heap (run_ops ops (boot env disk)) !! l = Some r /\
    gpt_id r = g /\
    holds_credentials env r.
Proof.
  intros Hg.
  pose proof (reg_inv_run_ops (fun _ r => holds_credentials env r) env) as Hinv.
  destruct (reg_entry _ _ _ (Hinv ltac:(intros; by apply holds_credentials_new)
                                   ltac:(intros; by apply holds_credentials_merge) ops disk)
              _ _ Hg) as (_ & r & Hr & Hid & Hc).
  by exists r.
Qed.

(** *** Constructed, registered, torn down *)

Lemma handle_balance_resolve user_email g gpt_name dm dsp dh (w : world) :
  handle_balance w ->
  handle_balance (get_or_create_rag_instance user_email g gpt_name dm dsp dh w).2.
Proof.
  unfold handle_balance. intros Hw. destruct (active_rag_sessions w !! g) as [l|] eqn:Hg.
  - rewrite (resolve_existing _ _ _ _ _ _ _ _ Hg). cbn [snd]. msimpl.
    rewrite !List.filter_app, !length_app. cbn. lia.
  - destruct (configured w) eqn:Hc.
    + rewrite (resolve_new _ _ _ _ _ _ _ Hg Hc). cbn [snd created trace active_rag_sessions].
      rewrite !List.filter_app, !length_app, map_size_insert_None by done. cbn. lia.
    + rewrite (resolve_unconfigured _ _ _ _ _ _ _ Hg Hc). cbn [snd]. msimpl.
      rewrite !List.filter_app, !length_app. cbn. lia.
Qed.

Lemma handle_balance_reset (g : string) (w : world) :
  handle_balance w -> handle_balance (dev_reset_gpt_context_endpoint g w).2.
Proof.
  unfold handle_balance. intros Hw. destruct (development w) eqn:Hdev.
  - destruct (active_rag_sessions w !! g) as [l|] eqn:Hg.
    + destruct (reset_present g l w Hdev Hg)
        as (resp & paths & evs & -> & Hc & Ht & _).
      cbn [snd popped trace active_rag_sessions].
      rewrite !List.filter_app, !length_app. cbn [List.filter is_constructed is_teardown length].
      rewrite Hc, Ht. cbn [length].
      pose proof (map_size_ne_0_lookup_2 (active_rag_sessions w) g (mk_is_Some _ _ Hg)).
      rewrite map_size_delete_Some by eauto. lia.
    + by rewrite reset_not_found.
  - by rewrite reset_forbidden.
Qed.

(** X3: in every state reached from the start of the process, the number
    of handles that were constructed is the number of handles that a reset
    has handed to [clear_all_context] plus the number of registry entries:
    a handle leaves the registry only through a reset, and a key never has
    two live handles. *)
Theorem constructed_handles_are_registered_or_torn_down
    (env : gmap string string) (disk : gset string) (ops : list registry_op) :
  let w := run_ops ops (boot env disk) in
  length (List.filter is_constructed (trace w))
  = length (List.filter is_teardown (trace w)) + size (active_rag_sessions w).
Proof.
  cbn zeta. change (handle_balance (run_ops ops (boot env disk))).
  induction ops as [|o ops IH] using rev_ind.
  - unfold handle_balance. cbn. by rewrite map_size_empty.
  - rewrite run_ops_snoc. destruct o as [c|g]; cbn [run_op].
    + by apply handle_balance_resolve.
    + by apply handle_balance_reset.
Qed.

(** *** Resolving again *)

Lemma merge_defaults_idem dm dsp dh (r : EnhancedRAG) :
  merge_defaults dm dsp dh (merge_defaults dm dsp dh r) = merge_defaults dm dsp dh r.
Proof.
  unfold merge_defaults.
  destruct (truthy dm), (truthy dsp), (bool_decide (dh <> None)); reflexivity.
Qed.

Lemma merge_defaults_new g dm dsp dh (w : world) :
  merge_defaults dm dsp dh (new_instance g dm dsp dh w) = new_instance g dm dsp dh w.
Proof.
  unfold merge_defaults, new_instance, py_or.
  destruct dm as [m|]; [destruct (truthy (Some m)) eqn:Hm|];
    destruct (truthy dsp), (bool_decide (dh <> None)); reflexivity.
Qed.

Lemma with_heap_same (w : world) : with_heap (heap w) (next_loc w) w = w.
Proof. by destruct w. Qed.

Lemma resolve_existing_fixed user_email g gpt_name dm dsp dh (w : world) (l : loc) :
  active_rag_sessions w !! g = Some l ->
  (forall r, heap w !! l = Some r ->
             merge_defaults (arg_default None dm) (arg_default None dsp)
               (arg_default (Some false) dh) r = r) ->
  get_or_create_rag_instance user_email g gpt_name dm dsp dh w
  = (Returned l,
     log [Printed ("Reusing EnhancedRAG instance for gpt_id: " +:+ g
                   +:+ ". Updated defaults if provided.")] w).
Proof.
  intros Hg Hfix. rewrite (resolve_existing _ _ _ _ _ _ _ _ Hg).
  by rewrite alter_id, with_heap_same.
Qed.

(** X4: a resolve that returned is idempotent: the same call made again,
    whether the first one constructed the instance or merged overrides into
    it, returns the same handle and changes nothing in the registry or in
    the instance; it only writes its log line. *)
Theorem resolve_again_changes_nothing
    user_email g gpt_name dm dsp dh (w : world) (l : loc) :
  (get_or_create_rag_instance user_email g gpt_name dm dsp dh w).1 = Returned l ->
  get_or_create_rag_instance user_email g gpt_name dm dsp dh
    (get_or_create_rag_instance user_email g gpt_name dm dsp dh w).2
  = (Returned l,
     log [Printed ("Reusing EnhancedRAG instance for gpt_id: " +:+ g
                   +:+ ". Updated defaults if provided.")]
       (get_or_create_rag_instance user_email g gpt_name dm dsp dh w).2).
Proof.
  destruct (active_rag_sessions w !! g) as [l0|] eqn:Hg.
  - rewrite (resolve_existing _ _ _ _ _ _ _ _ Hg). cbn [fst snd]. intros [= <-].
    apply resolve_existing_fixed; [exact Hg|].
    intros r. cbn [heap log with_trace with_heap]. rewrite lookup_alter_eq.
    destruct (heap w !! l0) as [r0|]; [|done]. intros [= <-]. apply merge_defaults_idem.
  - destruct (configured w) eqn:Hc.
    + rewrite (resolve_new _ _ _ _ _ _ _ Hg Hc). cbn [fst snd]. intros [= <-].
      apply resolve_existing_fixed; [apply lookup_insert_eq|].
      intros r. cbn [heap created]. rewrite lookup_insert_eq. intros [= <-].
      apply merge_defaults_new.
    + rewrite (resolve_unconfigured _ _ _ _ _ _ _ Hg Hc). intros [=].
Qed.

(** *** Tenants side by side *)

(** X5: a resolve of one tenant leaves every other tenant alone, in every
    state reached from the start of the process: the entry of another key
    is as before, and so is the instance it points to, whatever the
    overrides of the call. *)
Theorem resolve_leaves_other_tenants
    (env : gmap string string) (disk : gset string) (ops : list registry_op)
    (c : resolve_call) (g' : string) :
  g' <> call_gpt_id c ->
  let w := run_ops ops (boot env disk) in
  active_rag_sessions (run_call c w).2 !! g' = active_rag_sessions w !! g' /\
  forall l', active_rag_sessions w !! g' = Some l' ->
             heap (run_call c w).2 !! l' = heap w !! l'.
Proof.
  intros Hne w. pose proof (reg_inv_plain env ops disk) as Hinv. fold w in Hinv.
  unfold run_call. set (g := call_gpt_id c) in *.
  destruct (active_rag_sessions w !! g) as [l|] eqn:Hg.
  - rewrite (resolve_existing _ _ _ _ _ _ _ _ Hg). cbn [snd]. msimpl.
    split; [done|]. intros l' Hg'. rewrite lookup_alter_ne; [done|].
    intros <-. apply Hne. by eapply reg_inv_injective.
  - destruct (configured w) eqn:Hc.
    + rewrite (resolve_new _ _ _ _ _ _ _ Hg Hc). cbn [snd created active_rag_sessions heap].
      split; [by rewrite lookup_insert_ne|]. intros l' Hg'.
      destruct (reg_entry _ _ _ Hinv _ _ Hg') as [Hlt _].
      rewrite lookup_insert_ne; [done | lia].
    + rewrite (resolve_unconfigured _ _ _ _ _ _ _ Hg Hc). done.
Qed.

(** X6: the instance of a tenant is shared by all who resolve its key.  In
    every state reached from the start of the process, a resolve of a
    registered key by any user returns the registered handle, and every
    override it gives (a non-empty model, a non-empty system prompt, a
    hybrid-search flag that is not null) is from then on the setting that
    every holder of the handle reads. *)
Theorem overrides_reach_every_holder
    (env : gmap string string) (disk : gset string) (ops : list registry_op)
    (user_email g : string) gpt_name (dm dsp : option string) (dh : option bool) (l : loc) :
  active_rag_sessions (run_ops ops (boot env disk)) !! g = Some l ->
  let run := get_or_create_rag_instance user_email g gpt_name (Given dm) (Given dsp) (Given dh)
               (run_ops ops (boot env disk)) in
  run.1 = Returned l /\
  exists r,
    heap run.2 !! l = Some r /\
    (truthy dm = true -> Some (default_llm_model_name r) = dm) /\
    (truthy dsp = true -> default_system_prompt r = dsp) /\
    (dh <> None -> default_use_hybrid_search r = dh).
Proof.
  intros Hg run. subst run.
  destruct (reg_entry _ _ _ (reg_inv_plain env ops disk) _ _ Hg) as (_ & r & Hr & _).
  rewrite (resolve_existing _ _ _ _ _ _ _ _ Hg). cbn [fst snd arg_default]. msimpl.
  split; [done|]. exists (merge_defaults dm dsp dh r).
  split; [rewrite lookup_alter_eq; unfold loc in *; by rewrite Hr|]. unfold merge_defaults.
  split; [|split].
  - intros Hdm. rewrite Hdm. destruct dm as [m|]; [|done].
    by destruct (truthy dsp), (bool_decide (dh <> None)).
  - intros Hdsp. rewrite Hdsp. by destruct (truthy dm), (bool_decide (dh <> None)).
  - intros Hdh. rewrite bool_decide_eq_true_2 by done. by destruct (truthy dm), (truthy dsp).
Qed.

(** ** Identifiers *)

Lemma append_cons (c : ascii) (s t : string) : String c s +:+ t = String c (s +:+ t).
Proof. reflexivity. Qed.

Lemma append_nil_r (s : string) : s +:+ EmptyString = s.
Proof. induction s as [|c s IH]; [done|]. by rewrite append_cons, IH. Qed.

Lemma append_assoc (s t u : string) : (s +:+ t) +:+ u = s +:+ t +:+ u.
Proof. induction s as [|c s IH]; [done|]. by rewrite !append_cons, IH. Qed.

Lemma length_append (s t : string) :
  String.length (s +:+ t) = String.length s + String.length t.
Proof. induction s as [|c s IH]; [done|]. rewrite append_cons. cbn. by rewrite IH. Qed.

Lemma append_inj_r (s1 s2 t : string) : s1 +:+ t = s2 +:+ t -> s1 = s2.
Proof.
  revert s2. induction s1 as [|c s1 IH]; intros [|d s2] H; [done| | |].
  - apply (f_equal String.length) in H. rewrite !length_append in H. cbn in H. lia.
  - apply (f_equal String.length) in H. rewrite !length_append in H. cbn in H. lia.
  - rewrite !append_cons in H. injection H as -> H. f_equal. by apply IH.
Qed.

Lemma map_chars_app f (s t : string) :
  map_chars f (s +:+ t) = map_chars f s +:+ map_chars f t.
Proof. induction s as [|c s IH]; [done|]. rewrite append_cons. cbn. by rewrite IH. Qed.

Lemma map_chars_map_chars f g (s : string) :
  map_chars f (map_chars g s) = map_chars (fun c => f (g c)) s.
Proof. induction s as [|c s IH]; [done|]. cbn. by rewrite IH. Qed.

Lemma map_chars_ext f g (s : string) :
  (forall c, f c = g c) -> map_chars f s = map_chars g s.
Proof. intros Hfg. induction s as [|c s IH]; [done|]. cbn. by rewrite Hfg, IH. Qed.

Lemma sanitized_email_app (s t : string) :
  sanitized_email (s +:+ t) = sanitized_email s +:+ sanitized_email t.
Proof. unfold sanitized_email, replace_char. by rewrite !map_chars_app. Qed.

(** The sanitised e-mail, character by character. *)
Definition sanitized_char (c : ascii) : ascii :=
  if Ascii.eqb c "@" || Ascii.eqb c "." then "_"%char else c.

Lemma sanitized_email_chars (e : string) :
  sanitized_email e = map_chars sanitized_char e.
Proof.
  unfold sanitized_email, replace_char. rewrite map_chars_map_chars.
  apply map_chars_ext. intros c. unfold sanitized_char.
  destruct (Ascii.eqb c "@") eqn:Hat; [done|]. by destruct (Ascii.eqb c ".").
Qed.

Lemma sanitized_char_idem (c : ascii) : sanitized_char (sanitized_char c) = sanitized_char c.
Proof.
  unfold sanitized_char.
  destruct (Ascii.eqb c "@") eqn:Hat; [done|]. destruct (Ascii.eqb c ".") eqn:Hdot; [done|].
  cbn. by rewrite Hat, Hdot.
Qed.

Lemma sanitized_email_after (f : ascii -> ascii) (e : string) :
  (forall c, sanitized_char (f c) = sanitized_char c) ->
  sanitized_email (map_chars f e) = sanitized_email e.
Proof.
  intros Hf. rewrite !sanitized_email_chars, map_chars_map_chars. by apply map_chars_ext.
Qed.

Lemma get_session_id_parts (user_email g : string) :
  get_session_id user_email g = "user_" +:+ sanitized_email user_email +:+ "_gpt_" +:+ g.
Proof. reflexivity. Qed.

(** X7: for one user, the session id tells the tenants apart: two GPT
    ids give the same session id only if they are the same id. *)
Theorem session_ids_of_one_user_are_distinct (user_email g1 g2 : string) :
  get_session_id user_email g1 = get_session_id user_email g2 <-> g1 = g2.
Proof.
  split; [|by intros ->]. rewrite !get_session_id_parts. intros H.
  by do 3 apply String.app_inj in H.
Qed.

(** X8: for one GPT, two users have the same session id exactly when their
    e-mail addresses agree after ['@'] and ['.'] are replaced by ['_'].
    Addresses that differ only in which of the three characters stands at
    a position therefore share a session: writing ['_'] for a ['.'], or
    ['.'] for the ['@'], gives the session id of the original address. *)
Theorem session_id_shared_between_users (e1 e2 g : string) :
  (get_session_id e1 g = get_session_id e2 g <-> sanitized_email e1 = sanitized_email e2) /\
  get_session_id (replace_char "."%char "_"%char e1) g = get_session_id e1 g /\
  get_session_id (replace_char "@"%char "."%char e1) g = get_session_id e1 g.
Proof.
  rewrite !get_session_id_parts. split; [split|split].
  - intros H. apply String.app_inj in H. by apply append_inj_r in H.
  - by intros ->.
  - unfold replace_char at 1. rewrite sanitized_email_after; [done|].
    intros c. unfold sanitized_char.
    destruct (Ascii.eqb c ".") eqn:Hdot; cbn; by rewrite ?Hdot, ?orb_true_r.
  - unfold replace_char at 1. rewrite sanitized_email_after; [done|].
    intros c. unfold sanitized_char.
    destruct (Ascii.eqb c "@") eqn:Hat; cbn; by rewrite ?Hat.
Qed.

(** X9: the session id does not determine the pair of user and GPT: the
    separator [_gpt_] may itself occur in an address or in a GPT id, so a
    user whose address continues with [_gpt_] and some text has, for the
    tenant [g], the session id that the user of the shorter address has for
    the tenant named by the sanitised text, [_gpt_] and [g]. *)
Theorem session_id_separator_is_ambiguous (e x g : string) :
  get_session_id (e +:+ "_gpt_" +:+ x) g
  = get_session_id e (sanitized_email x +:+ "_gpt_" +:+ g).
Proof.
  rewrite !get_session_id_parts, !sanitized_email_app, !append_assoc. reflexivity.
Qed.

Lemma replace_char_empty a b (s : string) :
  String.eqb (replace_char a b s) EmptyString = String.eqb s EmptyString.
Proof. by destruct s. Qed.

(** X10: the collection name that [gpt_opened_endpoint] answers with does
    not tell apart what it is built from: the empty GPT name gives the name
    of the GPT called [gpt]; a GPT name with ['-'] for each [' '] gives the
    same name; and so does an e-mail address with ['.'] for its ['@']. *)
Theorem collection_name_collisions (user_email gpt_name g : string) :
  collection_name user_email EmptyString g = collection_name user_email "gpt" g /\
  collection_name user_email (replace_char " "%char "-"%char gpt_name) g
  = collection_name user_email gpt_name g /\
  collection_name (replace_char "@"%char "."%char user_email) gpt_name g
  = collection_name user_email gpt_name g.
Proof.
  split; [reflexivity|]. unfold collection_name. split.
  - assert (sanitized_gpt_name (replace_char " "%char "-"%char gpt_name)
            = sanitized_gpt_name gpt_name) as ->; [|done].
    unfold sanitized_gpt_name, py_or, truthy. rewrite replace_char_empty.
    destruct (String.eqb gpt_name EmptyString); [done|]. cbn [negb].
    unfold replace_char. rewrite !map_chars_map_chars. apply map_chars_ext. intros x.
    destruct (Ascii.eqb x " ") eqn:Hsp; cbn; by rewrite ?Hsp.
  - assert (sanitized_email (replace_char "@"%char "."%char user_email)
            = sanitized_email user_email) as ->; [|done].
    unfold replace_char at 1. apply sanitized_email_after.
    intros c. unfold sanitized_char.
    destruct (Ascii.eqb c "@") eqn:Hat; cbn; by rewrite ?Hat.
Qed.

(** ** Ingestion: the endpoints and their tasks *)

(** X11: storing one uploaded file never raises, whatever the file and the
    store do: the result carries the file's name and is either a success
    without error message or a failure with an empty location and a
    message; it is a success exactly when the file could be read and the
    store took it, and the location is then the store's answer.  The store
    is asked at most once and the engine is not called. *)
Theorem stored_file_result_is_success_or_failure (file : UploadFile) (b : bool) (w : world) :
  exists r evs,
    _process_uploaded_file_to_r2 file b w = (Returned r, log evs w) /\
    info_filename r = filename file /\
    (status r = "success" /\ error_message r = None \/
     status r = "failure" /\ stored_url_or_key r = EmptyString /\ is_Some (error_message r)) /\
    (status r = "success" <->
     exists file_content,
       read file = Returned file_content /\
       upload_file file_content (filename file) b = Returned (true, stored_url_or_key r)) /\
    length (uploads evs) <= 1 /\
    engine_updates evs = [].
Proof.
  exists (upload_result b file), (upload_events b file).
  split; [apply process_uploaded_file_run|].
  unfold upload_result, upload_events.
  destruct (read file) as [file_content|e] eqn:Hread.
  - destruct (upload_file file_content (filename file) b) as [[[] path]|e] eqn:Hup;
      cbn [info_filename status error_message stored_url_or_key].
    + split; [done|]. split; [by left|]. split; [|split; [cbn; lia | done]].
      split; [intros _; by exists file_content | done].
    + split; [done|]. split; [right; eauto|]. split; [|split; [cbn; lia | done]].
      split; [done|]. intros (c & [= <-] & Hc). rewrite Hup in Hc. done.
    + split; [done|]. split; [right; eauto|]. split; [|split; [cbn; lia | done]].
      split; [done|]. intros (c & [= <-] & Hc). rewrite Hup in Hc. done.
  - cbn [info_filename status error_message stored_url_or_key].
    split; [done|]. split; [right; eauto|]. split; [|split; [cbn; lia | done]].
    split; [done|]. by intros (c & [=] & _).
Qed.

Lemma index_task_run (rag : loc) (keys : list string) (b : bool) (u g : string) (w : world) :
  exists evs,
    _index_documents_task rag keys b u g w = (Returned tt, log evs w) /\
    effects evs = [chat_index_event b rag (get_session_id u g) keys].
Proof.
  unfold _index_documents_task, getattr_gpt_id, call_update_user_documents,
    call_update_knowledge_base, chat_index_event.
  destruct b; msimpl.
  - destruct (update_user_documents_from_r2 rag (get_session_id u g) keys) as [[]|e];
      msimpl; rewrite !log_log; eexists; (split; [reflexivity|]); reflexivity.
  - destruct (update_knowledge_base_from_r2 rag keys) as [[]|e];
      msimpl; rewrite !log_log; eexists; (split; [reflexivity|]); reflexivity.
Qed.

Lemma effects_app (e1 e2 : list event) : effects (e1 ++ e2) = effects e1 ++ effects e2.
Proof. apply List.filter_app. Qed.

Lemma engine_updates_effects (evs : list event) :
  engine_updates (effects evs) = engine_updates evs.
Proof.
  unfold engine_updates, effects. induction evs as [|e evs IH]; [done|].
  destruct e; cbn; by rewrite ?IH.
Qed.

Lemma downloads_effects (evs : list event) : downloads (effects evs) = downloads evs.
Proof.
  unfold downloads, effects. induction evs as [|e evs IH]; [done|].
  destruct e; cbn; by rewrite ?IH.
Qed.

(** X12: the indexing task of [upload_documents_endpoint] runs to its end
    in whatever state it is started, whether the engine returns or raises,
    and besides its log lines it does one thing: one call of the engine,
    [update_user_documents_from_r2] with the session id of the user and the
    GPT for user documents, [update_knowledge_base_from_r2] otherwise, on
    the handle and with the list of locations it was given. *)
Theorem index_documents_task_calls_the_engine_once
    (rag : loc) (keys : list string) (b : bool) (u g : string) (w : world) :
  exists evs,
    _index_documents_task rag keys b u g w = (Returned tt, log evs w) /\
    effects evs
    = [if b then UpdateUserDocuments rag (get_session_id u g) keys
       else UpdateKnowledgeBase rag keys].
Proof.
  destruct (index_task_run rag keys b u g w) as (evs & Hrun & Heff).
  exists evs. split; [exact Hrun|]. rewrite Heff. by destruct b.
Qed.

Lemma resolve_effects user_email g gpt_name dm dsp dh (w : world) :
  resolves w g = true ->
  exists w' evs,
    get_or_create_rag_instance user_email g gpt_name dm dsp dh w
    = (Returned (resolved_handle w g), w') /\
    trace w' = trace w ++ evs /\
    effects evs
    = match active_rag_sessions w !! g with
      | Some _ => []
      | None => [Constructed (next_loc w) g]
      end.
Proof.
  unfold resolves, resolved_handle. intros Hres.
  destruct (active_rag_sessions w !! g) as [l|] eqn:Hg.
  - rewrite (resolve_existing _ _ _ _ _ _ _ _ Hg). by do 2 eexists.
  - rewrite bool_decide_eq_false_2 in Hres by (intros [? ?]; done). cbn in Hres.
    rewrite (resolve_new _ _ _ _ _ _ _ Hg Hres). by do 2 eexists.
Qed.

Lemma upload_events_effects (b : bool) (files : list UploadFile) :
  engine_updates (effects (flat_map (upload_events b) files)) = [].
Proof. rewrite engine_updates_effects. apply upload_events_updates. Qed.

Lemma serve_one_task (endpoint : M handled) (resp : response) (task : M unit)
    (w w1 : world) (evs : list event) :
  endpoint w = (Returned (resp, [task]), w1) ->
  task w1 = (Returned tt, log evs w1) ->
  serve endpoint w = (Returned resp, log evs w1).
Proof.
  intros Hendpoint Htask. unfold serve. unfold mbind at 1, M_bind at 1, bind at 1.
  rewrite Hendpoint. cbn [fst snd for_each]. msimpl. by rewrite Htask.
Qed.

Lemma serve_no_task (endpoint : M handled) (resp : response) (w w1 : world) :
  endpoint w = (Returned (resp, []), w1) ->
  serve endpoint w = (Returned resp, w1).
Proof.
  intros Hendpoint. unfold serve. unfold mbind at 1, M_bind at 1, bind at 1.
  rewrite Hendpoint. reflexivity.
Qed.

(** X13: an upload of documents of which at least one was stored, for a
    tenant that resolves, is answered 202 before anything is indexed: the
    body counts the stored files and lists the result of every file in the
    order of the upload, and one task is scheduled.  Run after the
    response, the task makes the one engine call of the request, for the
    resolved handle, with exactly the stored locations. *)
Theorem upload_documents_accepted
    (files : list UploadFile) (user_email g is_user_document : string) (w : world) :
  let b := String.eqb (lower is_user_document) "true" in
  let locs := stored_locations b files in
  let rag := resolved_handle w g in
  locs <> [] ->
  resolves w g = true ->
  exists w1 evs1 evs2,
    let resp :=
      {| status_code := 202;
         content := JDict
           [("message", JStr (str_len locs +:+ " files accepted for " +:+ doc_type b
                              +:+ " indexing. Processing in background."));
            ("upload_results", JList (List.map model_dump (List.map (upload_result b) files)))] |} in
    upload_documents_endpoint files user_email g is_user_document w
    = (Returned (resp, [_index_documents_task rag locs b user_email g]), w1) /\
    trace w1 = trace w ++ evs1 /\
    engine_updates evs1 = [] /\
    serve (upload_documents_endpoint files user_email g is_user_document) w
    = (Returned resp, log evs2 w1) /\
    effects evs2 = [chat_index_event b rag (get_session_id user_email g) locs].
Proof.
  intros b locs rag Hstored Hres.
  set (w0 := log (flat_map (upload_events b) files) w).
  destruct (resolve_effects user_email g Omitted Omitted Omitted Omitted w0)
    as (w1 & evs & Hrun & Htrace & Heff); [exact Hres|].
  change (resolved_handle w0 g) with rag in Hrun.
  destruct (index_task_run rag locs b user_email g w1) as (evs2 & Htask & Heff2).
  exists w1, (flat_map (upload_events b) files ++ evs), evs2. cbn zeta.
  assert (upload_documents_endpoint files user_email g is_user_document w
          = (Returned
               ({| status_code := 202;
                   content := JDict
                     [("message", JStr (str_len locs +:+ " files accepted for " +:+ doc_type b
                                        +:+ " indexing. Processing in background."));
                      ("upload_results",
                       JList (List.map model_dump (List.map (upload_result b) files)))] |},
                [_index_documents_task rag locs b user_email g]), w1)) as Hendpoint.
  { unfold upload_documents_endpoint. fold b.
    unfold mbind at 1, M_bind at 1, bind at 1. rewrite upload_loop_run. cbn [app].
    fold locs. fold w0. destruct locs as [|loc0 rest]; [done|].
    unfold mbind at 1, M_bind at 1, bind at 1. rewrite Hrun. reflexivity. }
  split; [exact Hendpoint|].
  split; [rewrite Htrace; subst w0; cbn [trace log with_trace]; by rewrite app_assoc|].
  split.
  { unfold engine_updates. rewrite List.filter_app.
    fold (engine_updates (flat_map (upload_events b) files)). fold (engine_updates evs).
    rewrite upload_events_updates, <- (engine_updates_effects evs), Heff.
    by destruct (active_rag_sessions w0 !! g). }
  split; [by eapply serve_one_task | exact Heff2].
Qed.

Lemma url_events_effects (urls : list string) :
  effects (flat_map url_events urls) = List.map Downloaded (List.filter valid_kb_url urls).
Proof.
  induction urls as [|u urls IH]; [done|].
  cbn [flat_map List.filter]. rewrite effects_app, IH.
  unfold url_events. destruct (valid_kb_url u); [|done].
  by destruct (download_file_from_url u) as [[] ?].
Qed.

Lemma opened_url_events_effects (urls : list string) :
  effects (flat_map opened_url_events urls)
  = List.map Downloaded (List.filter valid_kb_url urls).
Proof.
  induction urls as [|u urls IH]; [done|].
  cbn [flat_map List.filter]. rewrite effects_app, IH.
  unfold opened_url_events. by destruct (valid_kb_url u).
Qed.

Lemma kb_index_events_effects (rag : loc) (locs : list string) (w : world) :
  effects (kb_index_events rag locs w)
  = match locs with [] => [] | _ :: _ => [UpdateKnowledgeBase rag locs] end.
Proof.
  unfold kb_index_events. destruct locs as [|loc0 locs]; [done|].
  by destruct (update_knowledge_base_from_r2 rag (loc0 :: locs)).
Qed.

(** What a URL job does besides logging: the downloads, then the index
    update if a download succeeded. *)
Lemma kb_task_effects (urls : list string) (rag : loc) (w : world) :
  effects (kb_task_events urls rag w)
  = List.map Downloaded (List.filter valid_kb_url urls)
    ++ match fetched_locations urls with
       | [] => []
       | _ :: _ => [UpdateKnowledgeBase rag (fetched_locations urls)]
       end.
Proof.
  unfold kb_task_events.
  change (effects (?e :: ?rest)) with (effects rest).
  by rewrite effects_app, url_events_effects, kb_index_events_effects.
Qed.

(** X14: the job that [gpt_opened_endpoint] schedules and the job that
    [setup_gpt_context_endpoint] schedules do the same things for the same
    list of URLs, in whatever state they start: both run to their end, and
    apart from their log lines both download the URLs that start with
    [http://] or [https://], in order, and then make the same single call
    of the index update with the locations of the successful downloads, or
    none if there is no such location. *)
Theorem url_jobs_of_both_endpoints_agree (urls : list string) (rag : loc) (w : world) :
  exists evs1 evs2,
    _process_kb_urls_task urls rag w = (Returned tt, log evs1 w) /\
    _process_kb_urls_task_opened urls rag w = (Returned tt, log evs2 w) /\
    effects evs1 = effects evs2 /\
    effects evs2
    = List.map Downloaded (List.filter valid_kb_url urls)
      ++ match fetched_locations urls with
         | [] => []
         | _ :: _ => [UpdateKnowledgeBase rag (fetched_locations urls)]
         end.
Proof.
  do 2 eexists. split; [apply kb_task_run|]. split; [apply opened_task_run|].
  rewrite kb_task_effects, effects_app, opened_url_events_effects, kb_index_events_effects.
  done.
Qed.

(** X15: [setup_gpt_context_endpoint] for a tenant that resolves.  The
    handler itself downloads nothing and indexes nothing.  Without URLs
    ([kb_document_urls] null or empty) it answers 200 and schedules
    nothing; with URLs it answers 202 and schedules one job, and after the
    response the job downloads the http and https URLs and calls the index
    update once, on the resolved handle, with the fetched locations if
    there are any. *)
Theorem setup_gpt_context_schedules_the_url_job (request : GptContextSetupRequest) (w : world) :
  let g := setup_gpt_id request in
  let rag := resolved_handle w g in
  let urls := default [] (kb_document_urls request) in
  resolves w g = true ->
  exists resp w1 evs1 evs2,
    setup_gpt_context_endpoint request w
    = (Returned (resp, match urls with
                       | [] => []
                       | _ :: _ => [_process_kb_urls_task urls rag]
                       end), w1) /\
    status_code resp = (match urls with [] => 200 | _ :: _ => 202 end)%Z /\
    trace w1 = trace w ++ evs1 /\
    engine_updates evs1 = [] /\
    downloads evs1 = [] /\
    serve (setup_gpt_context_endpoint request) w = (Returned resp, log evs2 w1) /\
    effects evs2
    = List.map Downloaded (List.filter valid_kb_url urls)
      ++ match fetched_locations urls with
         | [] => []
         | _ :: _ => [UpdateKnowledgeBase rag (fetched_locations urls)]
         end.
Proof.
  intros g rag urls Hres.
  destruct (resolve_effects (setup_user_email request) g (Given (setup_gpt_name request))
              (Given (default_model request)) (Given (setup_default_system_prompt request))
              (Given (setup_default_use_hybrid_search request)) w Hres)
    as (w1 & evs & Hrun & Htrace & Heff).
  fold rag in Hrun.
  assert (engine_updates evs = [] /\ downloads evs = []) as [Hupd Hdown].
  { rewrite <- (engine_updates_effects evs), <- (downloads_effects evs), Heff.
    by destruct (active_rag_sessions w !! g). }
  unfold setup_gpt_context_endpoint. fold g.
  unfold mbind at 1, M_bind at 1, bind at 1. rewrite Hrun.
  subst urls. destruct (kb_document_urls request) as [[|u us]|] eqn:Hurls; cbn [default].
  - do 2 eexists. exists evs, []. split; [reflexivity|]. split; [done|].
    do 3 (split; [done|]). split; [|done].
    rewrite log_nil. apply serve_no_task. unfold setup_gpt_context_endpoint. fold g.
    unfold mbind at 1, M_bind at 1, bind at 1. rewrite Hrun, ?Hurls. reflexivity.
  - do 2 eexists. exists evs, (kb_task_events (u :: us) rag w1).
    split; [reflexivity|]. split; [done|]. do 3 (split; [done|]).
    split; [|apply kb_task_effects].
    eapply serve_one_task; [|apply kb_task_run].
    unfold setup_gpt_context_endpoint. fold g.
    unfold mbind at 1, M_bind at 1, bind at 1. rewrite Hrun, ?Hurls. reflexivity.
  - do 2 eexists. exists evs, []. split; [reflexivity|]. split; [done|].
    do 3 (split; [done|]). split; [|done].
    rewrite log_nil. apply serve_no_task. unfold setup_gpt_context_endpoint. fold g.
    unfold mbind at 1, M_bind at 1, bind at 1. rewrite Hrun, ?Hurls. reflexivity.
Qed.

(** ** A tenant that cannot be resolved *)

Lemma not_resolves (w : world) (g : string) :
  resolves w g = false -> active_rag_sessions w !! g = None /\ configured w = false.
Proof.
  unfold resolves. intros [Hg Hc]%orb_false_elim. split; [|done].
  apply bool_decide_eq_false in Hg. destruct (active_rag_sessions w !! g); [|done].
  exfalso. apply Hg. eauto.
Qed.

(** C3, as the code has it: with an empty aggregate list no ingestion path
    calls an index update of the engine.  The upload of documents reports
    a hard failure: it answers 400 and schedules nothing.  The two URL
    jobs report none: each returns normally; and a request to
    [setup_gpt_context_endpoint] with URLs, for a tenant that resolves, is
    answered 202 and not with a failure although its job then finds no
    location to index. *)
Theorem C3_empty_aggregate_calls_no_index_update :
  (forall (files : list UploadFile) (user_email g is_user_document : string) (w : world),
      stored_locations (String.eqb (lower is_user_document) "true") files = [] ->
      exists body evs,
        upload_documents_endpoint files user_email g is_user_document w
        = (Returned ({| status_code := 400; content := body |}, []), log evs w) /\
        hard_failure (Returned {| status_code := 400; content := body |}) = true /\
        engine_updates evs = []) /\
  (forall (urls : list string) (rag : loc) (w : world),
      fetched_locations urls = [] ->
      exists evs,
        _process_kb_urls_task urls rag w = (Returned tt, log evs w) /\
        engine_updates evs = []) /\
  (forall (urls : list string) (rag : loc) (w : world),
      fetched_locations urls = [] ->
      exists evs,
        _process_kb_urls_task_opened urls rag w = (Returned tt, log evs w) /\
        engine_updates evs = []) /\
  (forall (request : GptContextSetupRequest) (u : string) (us : list string) (w : world),
      kb_document_urls request = Some (u :: us) ->
      fetched_locations (u :: us) = [] ->
      resolves w (setup_gpt_id request) = true ->
      exists resp w' evs,
        serve (setup_gpt_context_endpoint request) w = (Returned resp, w') /\
        trace w' = trace w ++ evs /\
        status_code resp = 202%Z /\
        hard_failure (Returned resp) = false /\
        engine_updates evs = []).
Proof.
  split; [|split; [|split]].
  - intros files user_email g iud w Hempty. do 2 eexists.
    split; [by apply upload_documents_run_empty|]. split; [done|]. apply upload_events_updates.
  - intros urls rag w Hempty. eexists. split; [apply kb_task_run|].
    by rewrite kb_task_events_updates, Hempty.
  - intros urls rag w Hempty. eexists. split; [apply opened_task_run|].
    unfold engine_updates. rewrite List.filter_app.
    fold (engine_updates (flat_map opened_url_events urls)).
    rewrite opened_url_events_updates, Hempty. reflexivity.
  - intros request u us w Hurls Hempty Hres.
    destruct (resolve_effects (setup_user_email request) (setup_gpt_id request)
                (Given (setup_gpt_name request)) (Given (default_model request))
                (Given (setup_default_system_prompt request))
                (Given (setup_default_use_hybrid_search request)) w Hres)
      as (w1 & evs & Hrun & Htrace & Heff).
    set (rag := resolved_handle w (setup_gpt_id request)) in *.
    do 2 eexists. exists (evs ++ kb_task_events (u :: us) rag w1). split.
    + eapply serve_one_task; [|apply kb_task_run].
      unfold setup_gpt_context_endpoint.
      unfold mbind at 1, M_bind at 1, bind at 1. rewrite Hrun, Hurls. reflexivity.
    + split; [by rewrite trace_log, Htrace, app_assoc|]. split; [done|]. split; [done|].
      unfold engine_updates. rewrite List.filter_app.
      fold (engine_updates evs). fold (engine_updates (kb_task_events (u :: us) rag w1)).
      rewrite kb_task_events_updates, Hempty, app_nil_r, <- engine_updates_effects, Heff.
      by destruct (active_rag_sessions w !! setup_gpt_id request).
Qed.

(** C10, as the code has it: [upload_chat_files_endpoint] hands no task to
    the background; the index update has run when the response is built.
    When the tenant resolves, the response is a 200 whose body says:
    success with no location and [processing] false when no file was
    stored; otherwise the engine was called once with exactly the stored
    locations, and the body is success with these locations when the call
    returned, failure with the error's message and these locations when it
    raised.  When the tenant does not resolve, the resolve of line 417
    raises its [ValueError] after the files were handed to the store:
    nothing is indexed and the handler returns no response. *)
Theorem C10_chat_files_are_indexed_before_the_response
    (files : list UploadFile)
    (user_email g gpt_name collection_name is_user_document use_hybrid optimize_pdfs : string)
    (w : world) :
  let b := String.eqb (lower is_user_document) "true" in
  let locs := stored_locations b files in
  let rag := resolved_handle w g in
  let session_id := get_session_id user_email g in
  (resolves w g = true ->
   exists resp w' evs,
     upload_chat_files_endpoint files user_email g gpt_name collection_name
       is_user_document use_hybrid optimize_pdfs w
     = (Returned (resp, []), w') /\
     trace w' = trace w ++ evs /\
     status_code resp = 200%Z /\
     (locs = [] ->
      engine_updates evs = [] /\
      content resp
      = JDict [("success", JBool true);
               ("message", JStr "Processed and indexed 0 files");
               ("file_urls", JList []);
               ("processing", JBool false)]) /\
     (locs <> [] ->
      engine_updates evs = [chat_index_event b rag session_id locs] /\
      (chat_index_call b rag session_id locs = Returned tt ->
       content resp
       = JDict [("success", JBool true);
                ("message", JStr ("Processed and indexed " +:+ str_len locs +:+ " files"));
                ("file_urls", JStrs locs);
                ("processing", JBool true)]) /\
      (forall e, chat_index_call b rag session_id locs = Raised e ->
       content resp
       = JDict [("success", JBool false);
                ("message", JStr ("Failed to index " +:+ str_len locs +:+ " files: " +:+ str_exn e));
                ("file_urls", JStrs locs);
                ("processing", JBool false)]))) /\
  (resolves w g = false ->
   upload_chat_files_endpoint files user_email g gpt_name collection_name
     is_user_document use_hybrid optimize_pdfs w
   = (Raised (ValueError (configuration_error w)),
      log (flat_map (upload_events b) files ++ [creating g]) w) /\
   engine_updates (flat_map (upload_events b) files ++ [creating g]) = []).
Proof.
  intros b locs rag session_id. split.
  - intros Hres. by apply chat_files_resolved.
  - intros [Hnone Hconf]%not_resolves. split.
    + unfold upload_chat_files_endpoint. fold b.
      unfold mbind at 1, M_bind at 1, bind at 1. rewrite chat_upload_loop_run.
      unfold mbind at 1, M_bind at 1, bind at 1.
      rewrite (resolve_unconfigured _ _ _ _ _ _ (log _ w) Hnone Hconf).
      by rewrite log_log.
    + unfold engine_updates. rewrite List.filter_app.
      fold (engine_updates (flat_map (upload_events b) files)).
      by rewrite upload_events_updates.
Qed.

(** X16: what a request for a tenant that cannot be resolved (the key is
    not registered and [OPENAI_API_KEY] or [QDRANT_URL] is missing) comes
    to, endpoint by endpoint.  In [setup_gpt_context_endpoint],
    [upload_documents_endpoint] (when a file was stored),
    [upload_chat_files_endpoint] and [chat_endpoint] the [ValueError] of
    the resolve leaves the handler; [chat_stream] catches it, writes the
    log line of its [except] branch and answers 500 with the message.
    The two upload handlers have by then handed every readable file to the
    store; nothing is indexed, no task is scheduled and nothing is
    registered.  ([gpt_opened_endpoint], which catches the error too, is
    not among the handlers modelled.) *)
Theorem unresolvable_tenant_fails_the_request (g : string) (w : world) :
  resolves w g = false ->
  let failure := ValueError (configuration_error w) in
  (forall request : GptContextSetupRequest,
     setup_gpt_id request = g ->
     setup_gpt_context_endpoint request w = (Raised failure, log [creating g] w)) /\
  (forall (files : list UploadFile) (user_email is_user_document : string),
     let b := String.eqb (lower is_user_document) "true" in
     stored_locations b files <> [] ->
     upload_documents_endpoint files user_email g is_user_document w
     = (Raised failure, log (flat_map (upload_events b) files ++ [creating g]) w)) /\
  (forall (files : list UploadFile)
          (user_email gpt_name collection is_user_document use_hybrid optimize_pdfs : string),
     let b := String.eqb (lower is_user_document) "true" in
     upload_chat_files_endpoint files user_email g gpt_name collection
       is_user_document use_hybrid optimize_pdfs w
     = (Raised failure, log (flat_map (upload_events b) files ++ [creating g]) w)) /\
  (forall request : ChatRequest,
     req_gpt_id request = g ->
     chat_endpoint request w = (Raised failure, log [creating g] w)) /\
  (forall request : ChatStreamRequest,
     chat_gpt_id request = g ->
     chat_stream request w
     = (Returned (JSONResponse (chat_error (configuration_error w))),
        log [creating g; chat_stream_failed (configuration_error w)] w)).
Proof.
  intros [Hnone Hconf]%not_resolves failure. repeat split.
  - intros request <-. unfold setup_gpt_context_endpoint.
    unfold mbind at 1, M_bind at 1, bind at 1.
    by rewrite (resolve_unconfigured _ _ _ _ _ _ w Hnone Hconf).
  - intros files user_email is_user_document b Hstored.
    unfold upload_documents_endpoint. fold b.
    unfold mbind at 1, M_bind at 1, bind at 1. rewrite upload_loop_run. cbn [app].
    destruct (stored_locations b files) as [|loc0 rest]; [done|].
    unfold mbind at 1, M_bind at 1, bind at 1.
    rewrite (resolve_unconfigured _ _ _ _ _ _ (log _ w) Hnone Hconf).
    by rewrite log_log.
  - intros files user_email gpt_name collection is_user_document use_hybrid optimize_pdfs b.
    unfold upload_chat_files_endpoint. fold b.
    unfold mbind at 1, M_bind at 1, bind at 1. rewrite chat_upload_loop_run.
    unfold mbind at 1, M_bind at 1, bind at 1.
    rewrite (resolve_unconfigured _ _ _ _ _ _ (log _ w) Hnone Hconf).
    by rewrite log_log.
  - intros request <-. unfold chat_endpoint.
    unfold mbind at 1, M_bind at 1, bind at 1.
    by rewrite (resolve_unconfigured _ _ _ _ _ _ w Hnone Hconf).
  - intros request <-. unfold chat_stream, try_except.
    unfold mbind at 1, M_bind at 1, bind at 1.
    rewrite (resolve_unconfigured _ _ _ _ _ _ w Hnone Hconf).
    msimpl. by rewrite log_log.
Qed.

(** ** The chat handlers *)


Lemma chat_stream_run (request : ChatStreamRequest) (rag : loc) (w w1 : world) :
  get_or_create_rag_instance (chat_user_email request) (chat_gpt_id request)
    (Given (chat_gpt_name request)) (Given (model request)) (Given (system_prompt request))
    (Given (use_hybrid_search request)) w
  = (Returned rag, w1) ->
  chat_stream request w
  = (Returned (StreamingResponse
                 (generate rag (get_session_id (chat_user_email request) (chat_gpt_id request))
                    request)
                 sse_headers),
     log (chat_banner request) w1).
Proof.
  intros Hrun. unfold chat_stream, try_except.
  unfold mbind at 1, M_bind at 1, bind at 1. rewrite Hrun. unfold chat_banner.
  destruct (truthy_bool (web_search_enabled request)); msimpl; rewrite !log_log; reflexivity.
Qed.

(** X18: [chat_stream] never raises.  For a tenant that resolves it
    answers with a streaming response that has the three headers of an
    event stream and whose body is the generator over the engine's
    [query_stream] for the resolved handle, the session id of the user and
    the GPT and the fields of the request; nothing of the engine's stream
    has been produced when the handler returns, and a consumer that reads
    [n] frames gets the first [n] frames of that stream.  Otherwise the
    answer is the 500 response with the message of the error. *)
Theorem chat_stream_never_raises (request : ChatStreamRequest) (n : nat) (w : world) :
  let g := chat_gpt_id request in
  let rag := resolved_handle w g in
  exists r w',
    chat_stream request w = (Returned r, w') /\
    if resolves w g then
      exists body,
        r = StreamingResponse body sse_headers /\
        body = running (query_stream rag (stream_kwargs request)) /\
        (consume n body).1 = firstn n (full_frames (query_stream rag (stream_kwargs request)))
    else
      r = JSONResponse (chat_error (configuration_error w)).
Proof.
  intros g rag. destruct (resolves w g) eqn:Hres.
  - destruct (resolve_effects (chat_user_email request) g (Given (chat_gpt_name request))
                (Given (model request)) (Given (system_prompt request))
                (Given (use_hybrid_search request)) w Hres)
      as (w1 & evs & Hrun & _).
    fold rag in Hrun. do 2 eexists. split; [exact (chat_stream_run request rag w w1 Hrun)|].
    eexists. split; [reflexivity|]. split; [reflexivity|].
    apply (consume_frames n (query_stream rag (stream_kwargs request))).
  - apply not_resolves in Hres as [Hnone Hconf]. do 2 eexists. split; [|reflexivity].
    unfold chat_stream, try_except. fold g.
    unfold mbind at 1, M_bind at 1, bind at 1.
    by rewrite (resolve_unconfigured _ _ _ _ _ _ w Hnone Hconf).
Qed.

(** ** More on the reset *)

(** X19: the reset endpoint never raises, and the status of its answer
    is decided by what it looks at: outside development mode it is 403; in
    development mode it is 404 for a key that is not registered, and for a
    registered key 500 when the teardown, the formatting of the index path
    or [shutil.rmtree] raises, and 200 otherwise.  Whatever the answer, the
    environment, the instances and the entries of all other keys are as
    before; outside development mode nothing changes at all, and in
    development mode the key is not registered afterwards.  The disk is as
    before unless [shutil.rmtree] was called, which happens at most once,
    on the formatted path, when [os.path.exists] finds it; the disk is then
    as that call left it. *)
Theorem reset_never_raises (g : string) (w : world) :
  exists resp w' evs,
    dev_reset_gpt_context_endpoint g w = (Returned resp, w') /\
    status_code resp = reset_status g w /\
    environ w' = environ w /\
    heap w' = heap w /\
    next_loc w' = next_loc w /\
    trace w' = trace w ++ evs /\
    (forall g', g' <> g -> active_rag_sessions w' !! g' = active_rag_sessions w !! g') /\
    (development w = true -> active_rag_sessions w' !! g = None) /\
    (development w = false -> w' = w) /\
    (rmtrees evs = [] /\ fs w' = fs w \/
     exists path,
       str_format LOCAL_KB_INDEX_PATH_TEMPLATE g = Returned path /\
       os_path_exists path (fs w) = true /\
       rmtrees evs = [path] /\
       fs w' = (shutil_rmtree path (fs w)).2).
Proof.
  unfold reset_status. destruct (development w) eqn:Hdev.
  - destruct (active_rag_sessions w !! g) as [l|] eqn:Hg.
    + do 3 eexists. split; [exact (reset_present_run g l w Hdev Hg)|].
      split; [by destruct (reset_raises g l (fs w))|].
      do 4 (split; [reflexivity|]).
      cbn [popped active_rag_sessions fs].
      split; [intros g' Hne; by rewrite lookup_delete_ne|].
      split; [intros _; apply lookup_delete_eq|]. split; [done|].
      unfold purged_path, reset_raises.
      destruct (clear_all_context l) as [[]|e]; [|by left].
      destruct (str_format LOCAL_KB_INDEX_PATH_TEMPLATE g) as [path|e]; [|by left].
      destruct (os_path_exists path (fs w)) eqn:Hex; [|by left].
      right. exists path. do 2 (split; [done|]).
      by destruct (shutil_rmtree path (fs w)).1.
    + exists (not_found g), w, []. rewrite reset_not_found by done.
      rewrite app_nil_r. repeat split; try done. by left.
  - exists forbidden, w, []. rewrite reset_forbidden by done.
    rewrite app_nil_r. repeat split; try done. by left.
Qed.

(** X20: a first resolve followed by a reset, in development mode, leaves
    the registry as it was before the two; the instance that was
    constructed in between stays allocated and its identity is not given
    out again; and a second reset of the key finds nothing: it answers 404
    and changes nothing. *)
Theorem resolve_then_reset_restores_the_registry
    user_email g gpt_name dm dsp dh (w : world) :
  development w = true ->
  configured w = true ->
  active_rag_sessions w !! g = None ->
  let w1 := (get_or_create_rag_instance user_email g gpt_name dm dsp dh w).2 in
  let w2 := (dev_reset_gpt_context_endpoint g w1).2 in
  active_rag_sessions w1 !! g = Some (next_loc w) /\
  active_rag_sessions w2 = active_rag_sessions w /\
  is_Some (heap w2 !! next_loc w) /\
  next_loc w2 = S (next_loc w) /\
  dev_reset_gpt_context_endpoint g w2 = (Returned (not_found g), w2).
Proof.
  intros Hdev Hconf Hg w1 w2. subst w2 w1.
  rewrite (resolve_new _ _ _ _ _ _ _ Hg Hconf). cbn [snd].
  match goal with |- context [dev_reset_gpt_context_endpoint g ?x] => set (w1 := x) end.
  assert (active_rag_sessions w1 !! g = Some (next_loc w)) as Hg1 by apply lookup_insert_eq.
  assert (development w1 = true) as Hdev1 by exact Hdev.
  destruct (reset_present g _ w1 Hdev1 Hg1) as (resp & paths & evs & Hrun & _).
  rewrite Hrun. cbn [snd]. split; [exact Hg1|].
  split; [cbn [popped active_rag_sessions]; subst w1; cbn [created active_rag_sessions];
          by rewrite delete_insert_eq, delete_id|].
  split; [cbn [popped heap]; subst w1; cbn [created heap]; by rewrite lookup_insert_eq|].
  split; [done|].
  apply reset_not_found; [exact Hdev|]. apply lookup_delete_eq.
Qed.

(** *** The index directory of a tenant *)

Lemma format_field_cons (c : ascii) (r g : string) :
  format_field 0 (String c r) g
  = if String.prefix "{gpt_id}" (String c r)
    then g +:+ format_field 7 r g
    else String c (format_field 0 r g).
Proof. reflexivity. Qed.

Lemma prefix_cons (c d : ascii) (p s : string) :
  String.prefix (String c p) (String d s)
  = if Ascii.ascii_dec c d then String.prefix p s else false.
Proof. reflexivity. Qed.

Lemma no_brace_app (s t : string) : no_brace (s +:+ t) = no_brace s && no_brace t.
Proof.
  induction s as [|c s IH]; [done|]. rewrite append_cons. cbn [no_brace].
  by rewrite IH, andb_assoc.
Qed.

Lemma format_field_plain (P g : string) :
  no_brace P = true -> format_field 0 (P +:+ "{gpt_id}") g = P +:+ g.
Proof.
  induction P as [|c P IH]; intros HP.
  - change (format_field 0 (EmptyString +:+ "{gpt_id}") g) with (g +:+ EmptyString).
    apply append_nil_r.
  - cbn [no_brace] in HP. apply andb_prop in HP as [[Hopen _]%andb_prop HP].
    rewrite !append_cons, format_field_cons, prefix_cons.
    destruct (Ascii.ascii_dec "{" c) as [<-|_]; [done|]. by rewrite IH.
Qed.

Lemma last_of_kb_indexes (X : string) :
  String.substring (String.length (X +:+ "kb_indexes") - 1) 1 (X +:+ "kb_indexes") = "s".
Proof.
  induction X as [|c X IH]; [done|].
  rewrite append_cons. cbn [String.length].
  replace (S (String.length (X +:+ "kb_indexes")) - 1)
    with (S (String.length (X +:+ "kb_indexes") - 1))
    by (rewrite length_append; cbn; lia).
  exact IH.
Qed.

Lemma kb_indexes_dir_shape :
  exists X, kb_indexes_dir = X +:+ "kb_indexes" /\
            (no_brace LOCAL_DATA_BASE_PATH = true -> no_brace X = true).
Proof.
  unfold kb_indexes_dir, path_join.
  change (startswith "kb_indexes" "/") with false. cbn iota.
  destruct (String.eqb LOCAL_DATA_BASE_PATH EmptyString); [by exists EmptyString|].
  destruct (String.eqb _ "/").
  - by exists LOCAL_DATA_BASE_PATH.
  - exists (LOCAL_DATA_BASE_PATH +:+ "/"). split; [by rewrite append_assoc|].
    intros Hbase. by rewrite no_brace_app, Hbase.
Qed.

Lemma kb_index_path_joined (g : string) :
  no_brace LOCAL_DATA_BASE_PATH = true ->
  kb_index_path g = (kb_indexes_dir +:+ "/") +:+ g.
Proof.
  intros Hbase. destruct kb_indexes_dir_shape as (X & HX & Hplain).
  unfold kb_index_path, format_gpt_id, LOCAL_KB_INDEX_PATH_TEMPLATE.
  fold kb_indexes_dir. unfold path_join.
  change (startswith "{gpt_id}" "/") with false. cbn iota.
  rewrite HX. rewrite last_of_kb_indexes.
  change (String.eqb "s" "/") with false.
  assert (String.eqb (X +:+ "kb_indexes") EmptyString = false) as -> by by destruct X.
  rewrite <- (append_assoc (X +:+ "kb_indexes") "/" "{gpt_id}").
  apply format_field_plain.
  rewrite !no_brace_app, Hplain by done. reflexivity.
Qed.

Lemma plain_template_cons (c : ascii) (r : string) :
  plain_template 0 (String c r)
  = if String.prefix "{gpt_id}" (String c r)
    then plain_template 7 r
    else negb (Ascii.eqb c "{") && negb (Ascii.eqb c "}") && plain_template 0 r.
Proof. reflexivity. Qed.

Lemma plain_template_plain (P : string) :
  no_brace P = true -> plain_template 0 (P +:+ "{gpt_id}") = true.
Proof.
  induction P as [|c P IH]; intros HP; [done|].
  cbn [no_brace] in HP. apply andb_prop in HP as [Hc HP].
  rewrite !append_cons, plain_template_cons, prefix_cons, Hc, IH by done.
  apply andb_prop in Hc as [Hopen _].
  destruct (Ascii.ascii_dec "{" c) as [<-|_]; done.
Qed.

(** With a base path free of braces, [str.format] has only the field
    [{gpt_id}] to fill, and the index path of a tenant is the directory
    [kb_indexes], a slash and the id. *)
Lemma str_format_joined (g : string) :
  no_brace LOCAL_DATA_BASE_PATH = true ->
  str_format LOCAL_KB_INDEX_PATH_TEMPLATE g = Returned (kb_indexes_dir +:+ "/" +:+ g).
Proof.
  intros Hbase. unfold str_format.
  pose proof (kb_index_path_joined g Hbase) as Hpath.
  unfold kb_index_path in Hpath. rewrite Hpath, append_assoc.
  assert (plain_template 0 LOCAL_KB_INDEX_PATH_TEMPLATE = true) as ->; [|done].
  destruct kb_indexes_dir_shape as (X & HX & Hplain).
  unfold LOCAL_KB_INDEX_PATH_TEMPLATE. fold kb_indexes_dir. unfold path_join.
  change (startswith "{gpt_id}" "/") with false. cbn iota.
  rewrite HX. rewrite last_of_kb_indexes.
  change (String.eqb "s" "/") with false.
  assert (String.eqb (X +:+ "kb_indexes") EmptyString = false) as -> by by destruct X.
  rewrite <- (append_assoc (X +:+ "kb_indexes") "/" "{gpt_id}").
  apply plain_template_plain.
  rewrite !no_brace_app, Hplain by done. reflexivity.
Qed.

(** X21: when [LOCAL_DATA_BASE_PATH] holds no brace, formatting the path
    template with a GPT id gives the text of the directory [kb_indexes]
    under the base path, a slash and the id as it is; so two ids have the
    same index path only if they are the same id. *)
Theorem kb_index_path_is_the_joined_path (g1 g2 : string) :
  no_brace LOCAL_DATA_BASE_PATH = true ->
  kb_index_path g1 = kb_indexes_dir +:+ "/" +:+ g1 /\
  (kb_index_path g1 = kb_index_path g2 <-> g1 = g2).
Proof.
  intros Hbase. rewrite !kb_index_path_joined by done. split; [apply append_assoc|].
  split; [|by intros ->]. by intros H%String.app_inj.
Qed.

(** X22: a reset purges by path, not by tenant.  With a base path free of
    braces, when the reset of a registered [g] comes to the purge (the
    teardown returned) and [os.path.exists] finds the index path of [g],
    the one path handed to [shutil.rmtree] is the text of the directory
    [kb_indexes], a slash and [g]; the disk afterwards is what that call
    left, and the registry loses the entry of [g] and no other.  The index
    path of a tenant whose id is [g], a slash and more text is that same
    path, a slash and the text. *)
Theorem reset_removes_by_path (g : string) (l : loc) (w : world) :
  no_brace LOCAL_DATA_BASE_PATH = true ->
  development w = true ->
  active_rag_sessions w !! g = Some l ->
  clear_all_context l = Returned tt ->
  os_path_exists (kb_indexes_dir +:+ "/" +:+ g) (fs w) = true ->
  exists evs,
    trace (dev_reset_gpt_context_endpoint g w).2 = trace w ++ evs /\
    rmtrees evs = [kb_indexes_dir +:+ "/" +:+ g] /\
    fs (dev_reset_gpt_context_endpoint g w).2
    = (shutil_rmtree (kb_indexes_dir +:+ "/" +:+ g) (fs w)).2 /\
    active_rag_sessions (dev_reset_gpt_context_endpoint g w).2
    = delete g (active_rag_sessions w) /\
    forall x, kb_index_path (g +:+ "/" +:+ x) = (kb_indexes_dir +:+ "/" +:+ g) +:+ "/" +:+ x.
Proof.
  intros Hbase Hdev Hg Hclear Hthere.
  rewrite (reset_present_run g l w Hdev Hg). cbn [snd popped trace fs active_rag_sessions].
  unfold purged_path. rewrite Hclear, (str_format_joined g Hbase), Hthere.
  eexists. split; [reflexivity|]. split.
  { cbn [app]. change (rmtrees (?e :: ?rest)) with (rmtrees rest).
    cbn [rmtrees flat_map app]. by destruct (reset_raises g l (fs w)). }
  do 2 (split; [done|]).
  intros x. rewrite kb_index_path_joined by done. by rewrite !append_assoc.
Qed.

Lemma nonempty_truthy (s : string) : s <> EmptyString -> truthy (Some s) = true.
Proof. cbn. by destruct (String.eqb_spec s EmptyString). Qed.

(** In a state reached from the start of the process, a key is registered
    only if the credentials are in the environment. *)
Lemma registered_is_configured
    (env : gmap string string) (disk : gset string) (ops : list registry_op)
    (g : string) (l : loc) :
  active_rag_sessions (run_ops ops (boot env disk)) !! g = Some l ->
  registry_wf (run_ops ops (boot env disk)) /\
  configured (run_ops ops (boot env disk)) = true.
Proof.
  intros Hg.
  pose proof (reg_inv_run_ops (fun _ r => holds_credentials env r) env
                ltac:(intros; by apply holds_credentials_new)
                ltac:(intros; by apply holds_credentials_merge) ops disk) as Hinv.
  split.
  - intros g' l' Hg'. by destruct (reg_entry _ _ _ Hinv _ _ Hg').
  - destruct (reg_entry _ _ _ Hinv _ _ Hg) as (_ & r & _ & _ & Hc).
    destruct Hc as (Hk & Hk' & Hq & Hq' & _).
    unfold configured. rewrite (reg_environ _ _ _ Hinv), Hk, Hq.
    by rewrite !nonempty_truthy.
Qed.

(** C9, as the code has it: outside development mode a reset answers 403
    and changes nothing.  In development mode, a reset of an absent key
    answers 404 and changes nothing; a reset of a present key removes the
    entry and calls the handle's [clear_all_context].  When that call
    raises, the answer is 500 with the text of the error and the handler
    does not touch the disk.  When it returns, the index path is
    formatted: it is the directory [kb_indexes] under the base path, a
    slash and the key when the base path holds no brace, and the
    formatting may raise otherwise, which gives 500 with the disk not
    touched either.  If [os.path.exists] does not find the path, the answer
    is 200 and the disk stays as it is; if it does, [shutil.rmtree] is
    called on the path, once, the disk is what that call leaves, and the
    answer is 200 when the call returns and 500 with the text of the error
    when it raises.  In every case a later resolve of the key constructs a
    handle that differs from the removed one, provided the credentials are
    in the environment, as they are in every state reached from the start
    of the process in which the key is registered. *)
Theorem C9_reset_in_development_mode (g : string) (w : world) :
  (development w = false ->
   dev_reset_gpt_context_endpoint g w = (Returned forbidden, w)) /\
  (development w = true ->
   (active_rag_sessions w !! g = None ->
    dev_reset_gpt_context_endpoint g w = (Returned (not_found g), w)) /\
   (forall l,
      active_rag_sessions w !! g = Some l ->
      exists resp w' evs,
        dev_reset_gpt_context_endpoint g w = (Returned resp, w') /\
        active_rag_sessions w' = delete g (active_rag_sessions w) /\
        trace w' = trace w ++ ClearAllContext l :: evs /\
        (forall e, clear_all_context l = Raised e ->
           resp = reset_error e /\ rmtrees evs = [] /\ fs w' = fs w) /\
        (clear_all_context l = Returned tt ->
           (no_brace LOCAL_DATA_BASE_PATH = true ->
            str_format LOCAL_KB_INDEX_PATH_TEMPLATE g
            = Returned (kb_indexes_dir +:+ "/" +:+ g)) /\
           (forall e, str_format LOCAL_KB_INDEX_PATH_TEMPLATE g = Raised e ->
              resp = reset_error e /\ rmtrees evs = [] /\ fs w' = fs w) /\
           (forall path, str_format LOCAL_KB_INDEX_PATH_TEMPLATE g = Returned path ->
              (os_path_exists path (fs w) = false ->
               status_code resp = 200%Z /\ rmtrees evs = [] /\ fs w' = fs w) /\
              (os_path_exists path (fs w) = true ->
               rmtrees evs = [path] /\
               fs w' = (shutil_rmtree path (fs w)).2 /\
               ((shutil_rmtree path (fs w)).1 = Returned tt -> status_code resp = 200%Z) /\
               (forall e, (shutil_rmtree path (fs w)).1 = Raised e -> resp = reset_error e)))) /\
        (registry_wf w -> configured w = true ->
         forall user_email gpt_name dm dsp dh,
         exists w'',
           get_or_create_rag_instance user_email g gpt_name dm dsp dh w'
           = (Returned (next_loc w), w'') /\
           next_loc w <> l /\
           constructions g (trace w'') = constructions g (trace w') + 1) /\
        (forall env disk ops,
           w = run_ops ops (boot env disk) -> registry_wf w /\ configured w = true))).
Proof.
  split; [apply reset_forbidden|]. intros Hdev.
  split; [by apply reset_not_found|]. intros l Hg.
  do 3 eexists. split; [exact (reset_present_run g l w Hdev Hg)|].
  split; [done|]. split; [done|].
  cbn [popped fs]. unfold purged_path, reset_raises. split; [|split; [|split]].
  - intros e ->. done.
  - intros ->. split; [apply str_format_joined|]. split.
    + intros e ->. done.
    + intros path ->. split; intros ->; [done|].
      split; [by destruct (shutil_rmtree path (fs w)).1|]. split; [done|].
      split; [by intros ->|]. by intros e ->.
  - intros Hwf Hconf user_email gpt_name dm dsp dh.
    match goal with |- context [get_or_create_rag_instance _ _ _ _ _ _ ?x] => set (w' := x) end.
    assert (active_rag_sessions w' !! g = None) as Hgone by apply lookup_delete_eq.
    assert (configured w' = true) as Hconf' by exact Hconf.
    rewrite (resolve_new user_email g gpt_name dm dsp dh w' Hgone Hconf').
    eexists. split; [reflexivity|].
    split; [apply Hwf in Hg; lia|].
    cbn [created trace]. rewrite constructions_app. cbn. by rewrite String.eqb_refl.
  - intros env disk ops ->. by eapply registered_is_configured.
Qed.

(** X23: a reset does not reach the holders of the handle.  In every
    state reached from the start of the process, after the reset of a
    registered key in development mode the removed handle is registered
    under no key; a task that was scheduled with it before still runs to its
    end and makes its engine call on that handle. *)
Theorem task_after_reset_indexes_into_the_removed_handle
    (env : gmap string string) (disk : gset string) (ops : list registry_op)
    (g : string) (l : loc) (keys : list string) (b : bool) (u : string) :
  active_rag_sessions (run_ops ops (boot env disk)) !! g = Some l ->
  development (run_ops ops (boot env disk)) = true ->
  let w1 := (dev_reset_gpt_context_endpoint g (run_ops ops (boot env disk))).2 in
  (forall g', active_rag_sessions w1 !! g' = Some l -> False) /\
  exists evs,
    _index_documents_task l keys b u g w1 = (Returned tt, log evs w1) /\
    effects evs = [chat_index_event b l (get_session_id u g) keys].
Proof.
  intros Hg Hdev w1. split; [|apply index_task_run].
  pose proof (reg_inv_plain env ops disk) as Hinv.
  intros g' Hg'. subst w1.
  destruct (reset_present g l _ Hdev Hg) as (resp & paths & evs & Hrun & _).
  rewrite Hrun in Hg'. cbn [snd popped active_rag_sessions] in Hg'.
  apply lookup_delete_Some in Hg' as [Hne Hg'].
  apply Hne. by eapply reg_inv_injective.
Qed.

(** ** The lock over the reset's await *)

(** The two halves of a reset make the handler. *)
Lemma reset_halves (g : string) (w : world) :
  dev_reset_gpt_context_endpoint g w
  = match reset_enter g w with
    | (inl r, w') => (Returned r, w')
    | (inr l, w') => reset_leave g l w'
    end.
Proof.
  unfold dev_reset_gpt_context_endpoint, reset_enter, reset_leave, gate_open.
  msimpl.
  destruct (String.eqb (lower (default "production" (environ w !! "ENVIRONMENT_TYPE")))
              "development"); cbn [negb]; [|done].
  destruct (active_rag_sessions w !! g) as [l|] eqn:Hg; [|done].
  unfold sessions_pop, sessions_getitem, call_clear_all_context, path_exists, rmtree.
  msimpl. rewrite Hg. msimpl. reflexivity.
Qed.

Lemma reset_enter_gate (g : string) (l : loc) (w w' : world) :
  reset_enter g w = (inr l, w') -> gate_open w = true /\ gate_open w' = true.
Proof.
  unfold reset_enter. destruct (gate_open w) eqn:Hgate; cbn [negb]; [|done].
  destruct (active_rag_sessions w !! g); [|done]. by intros [= _ <-].
Qed.

Lemma run_op_reset_enter (g : string) (w : world) (r : response) (w' : world) :
  reset_enter g w = (inl r, w') -> run_op (OpReset g) w = w'.
Proof. intros Henter. cbn [run_op]. by rewrite reset_halves, Henter. Qed.

Lemma run_op_reset_leave (g : string) (w : world) (l : loc) (w' : world) :
  reset_enter g w = (inr l, w') -> run_op (OpReset g) w = (reset_leave g l w').2.
Proof. intros Henter. cbn [run_op]. by rewrite reset_halves, Henter. Qed.

Lemma finished_cons (s : job_state) (js : list job_state) :
  omap finished_op (s :: js)
  = match finished_op s with
    | Some op => op :: omap finished_op js
    | None => omap finished_op js
    end.
Proof. reflexivity. Qed.

Lemma finished_insert_some (js : list job_state) (i : nat) (s s' : job_state)
    (op : registry_op) :
  js !! i = Some s -> finished_op s = None -> finished_op s' = Some op ->
  omap finished_op js ++ [op] ≡ₚ omap finished_op (<[i:=s']> js).
Proof.
  revert i. induction js as [|s0 js IH]; intros [|i] Hi Hs Hs'; try done.
  - injection Hi as ->.
    change (<[0:=s']> (s :: js)) with (s' :: js).
    rewrite !finished_cons, Hs, Hs'. by rewrite Permutation_app_comm.
  - change (<[S i:=s']> (s0 :: js)) with (s0 :: <[i:=s']> js).
    rewrite !finished_cons. specialize (IH i Hi Hs Hs').
    destruct (finished_op s0); [|done]. cbn [app]. by rewrite IH.
Qed.

Lemma finished_insert_none (js : list job_state) (i : nat) (s s' : job_state) :
  js !! i = Some s -> finished_op s = None -> finished_op s' = None ->
  omap finished_op (<[i:=s']> js) = omap finished_op js.
Proof.
  revert i. induction js as [|s0 js IH]; intros [|i] Hi Hs Hs'; try done.
  - injection Hi as ->.
    change (<[0:=s']> (s :: js)) with (s' :: js).
    by rewrite !finished_cons, Hs, Hs'.
  - change (<[S i:=s']> (s0 :: js)) with (s0 :: <[i:=s']> js).
    rewrite !finished_cons. by rewrite (IH i Hi Hs Hs').
Qed.

Lemma serial_start (p : pool) :
  holder p = None -> forallb is_pending (jobs p) = true -> serial (current p) p.
Proof.
  intros Hfree Hpending. rewrite forallb_forall in Hpending. split.
  - intros j g l Hj. apply list_elem_of_lookup_2, list_elem_of_In, Hpending in Hj. done.
  - intros _. exists []. split; [|done]. unfold finished.
    induction (jobs p) as [|s js IH]; [done|].
    cbn. destruct s; try (specialize (Hpending _ (or_introl eq_refl)); done).
    apply IH. intros s Hs. apply Hpending. by right.
  - intros i Hi. congruence.
Qed.

Lemma serial_step (w0 : world) (p p' : pool) :
  serial w0 p -> pstep p p' -> serial w0 p'.
Proof.
  intros [Htearing Hfree Hheld] Hstep.
  destruct Hstep as [p i c Hlock Hi | p i g Hi Hgate | p i g Hlock Hi | p i g l Hlock Hi].
  - destruct (Hfree Hlock) as (ops & Hperm & Hcur).
    split; cbn [holder jobs current]; [| |done].
    + intros j g l Hj. destruct (decide (i = j)) as [<-|Hne].
      * rewrite list_lookup_insert_eq in Hj by (by eapply lookup_lt_Some). done.
      * rewrite list_lookup_insert_ne in Hj by done. apply Htearing in Hj. congruence.
    + intros _. exists (ops ++ [OpResolve c]). split.
      * rewrite Hperm. by eapply finished_insert_some.
      * by rewrite run_ops_snoc, <- Hcur.
  - split; cbn [holder jobs current].
    + intros j g' l Hj. destruct (decide (i = j)) as [<-|Hne].
      * rewrite list_lookup_insert_eq in Hj by (by eapply lookup_lt_Some). done.
      * rewrite list_lookup_insert_ne in Hj by done. by eapply Htearing.
    + intros Hlock. destruct (Hfree Hlock) as (ops & Hperm & Hcur).
      exists (ops ++ [OpReset g]). split.
      * rewrite Hperm. by eapply finished_insert_some.
      * rewrite run_ops_snoc, <- Hcur. cbn [run_op]. by rewrite reset_forbidden.
    + intros k Hk. destruct (Hheld k Hk) as (g' & l & ops & _ & _ & Henter).
      apply reset_enter_gate in Henter as [_ Hopen]. congruence.
  - destruct (Hfree Hlock) as (ops & Hperm & Hcur).
    destruct (reset_enter g (current p)) as [[r|l] w'] eqn:Henter.
    + split; cbn [holder jobs current]; [| |done].
      * intros j g' l Hj. destruct (decide (i = j)) as [<-|Hne].
        -- rewrite list_lookup_insert_eq in Hj by (by eapply lookup_lt_Some). done.
        -- rewrite list_lookup_insert_ne in Hj by done. apply Htearing in Hj. congruence.
      * intros _. exists (ops ++ [OpReset g]). split.
        -- rewrite Hperm. by eapply finished_insert_some.
        -- rewrite run_ops_snoc, <- Hcur. symmetry. by eapply run_op_reset_enter.
    + split; cbn [holder jobs current]; [|done|].
      * intros j g' l' Hj. destruct (decide (i = j)) as [<-|Hne]; [done|].
        rewrite list_lookup_insert_ne in Hj by done. apply Htearing in Hj. congruence.
      * intros k [= <-]. exists g, l, ops.
        split; [apply list_lookup_insert_eq; by eapply lookup_lt_Some|].
        split; [|by rewrite <- Hcur].
        rewrite Hperm. unfold finished. cbn [jobs].
        by erewrite finished_insert_none.
  - destruct (Hheld i Hlock) as (g' & l' & ops & Hi' & Hperm & Henter).
    rewrite Hi in Hi'. injection Hi' as <- <-.
    split; cbn [holder jobs current]; [| |done].
    + intros j g' l' Hj. destruct (decide (i = j)) as [<-|Hne].
      * rewrite list_lookup_insert_eq in Hj by (by eapply lookup_lt_Some). done.
      * rewrite list_lookup_insert_ne in Hj by done. apply Htearing in Hj. congruence.
    + intros _. exists (ops ++ [OpReset g]). split.
      * rewrite Hperm. by eapply finished_insert_some.
      * rewrite run_ops_snoc. symmetry. by eapply run_op_reset_leave.
Qed.

Lemma serial_steps (w0 : world) (p p' : pool) :
  serial w0 p -> psteps p p' -> serial w0 p'.
Proof.
  intros Hser Hsteps. induction Hsteps as [|p1 p2 p3 H12 _ IH]; [done|].
  apply IH. by eapply serial_step.
Qed.

Lemma run_job_steps (i : nat) (p : pool) : psteps p (run_job i p).
Proof.
  unfold run_job.
  destruct (jobs p !! i) as [[[c|g]|g l|c r|g r]|] eqn:Hi;
    destruct (holder p) as [k|] eqn:Hlock; try apply rtc_refl.
  - apply rtc_once. by constructor.
  - destruct (gate_open (current p)) eqn:Hgate; [apply rtc_refl|].
    apply rtc_once. rewrite <- Hlock. by constructor.
  - apply rtc_once. by apply pstep_enter.
  - case_bool_decide as Hk; [subst k|apply rtc_refl].
    apply rtc_once. by constructor.
Qed.

Lemma run_jobs_steps (order : list nat) (p : pool) : psteps p (run_jobs order p).
Proof.
  revert p. induction order as [|i rest IH]; intros p; [apply rtc_refl|].
  cbn. etrans; [apply run_job_steps | apply IH].
Qed.

(** X24: the lock makes resolves and resets atomic for the registry,
    though a reset awaits in its middle.  Take any pool of resolve and reset
    jobs, all waiting and the lock free, and let the scheduler run them in
    any interleaving.  In every state that is reached, a reset that is
    suspended at its [await] holds the lock.  While the lock is free, the
    state is the one that the finished jobs lead to when they are run whole,
    one after the other, in some order.  While a reset holds the lock, the
    state is such a state followed by the first half of that reset, and the
    one step that any job can make is the second half of that reset: no
    resolve and no other reset runs between the [pop] and the purge. *)
Theorem resets_and_resolves_are_serialised (p0 p : pool) :
  holder p0 = None ->
  forallb is_pending (jobs p0) = true ->
  psteps p0 p ->
  (forall j g l, jobs p !! j = Some (Tearing g l) -> holder p = Some j) /\
  (holder p = None ->
   exists ops, ops ≡ₚ finished p /\ current p = run_ops ops (current p0)) /\
  (forall i, holder p = Some i ->
   exists g l ops,
     jobs p !! i = Some (Tearing g l) /\
     ops ≡ₚ finished p /\
     reset_enter g (run_ops ops (current p0)) = (inr l, current p) /\
     forall p', pstep p p' ->
       p' = {| holder := None;
               jobs := <[i := Answered g (reset_leave g l (current p)).1]> (jobs p);
               current := (reset_leave g l (current p)).2 |}).
Proof.
  intros Hfree Hpending Hsteps.
  pose proof (serial_steps _ _ _ (serial_start p0 Hfree Hpending) Hsteps)
    as [Htearing Hserial Hheld].
  split; [exact Htearing|]. split; [exact Hserial|].
  intros i Hi. destruct (Hheld i Hi) as (g & l & ops & Hjob & Hperm & Henter).
  exists g, l, ops. do 3 (split; [done|]).
  intros p' Hstep.
  destruct Hstep as [p k c Hlock Hk | p k g' Hk Hgate | p k g' Hlock Hk | p k g' l' Hlock Hk];
    try congruence.
  apply reset_enter_gate in Henter as [_ Hopen]. congruence.
Qed.

End App.

(** * Concrete runs *)

Definition sample_environ : gmap string string :=
  {[ "OPENAI_API_KEY" := "sk-test"; "QDRANT_URL" := "http://qdrant:6333" ]}.

(** A configured process in production mode with an empty registry. *)
Definition sample_world : world :=
  {| environ := sample_environ;
     active_rag_sessions := ∅;
     heap := ∅;
     next_loc := 0;
     fs := ∅;
     trace := [] |}.

(** The same process without credentials. *)
Definition bare_world : world :=
  {| environ := ∅;
     active_rag_sessions := ∅;
     heap := ∅;
     next_loc := 0;
     fs := ∅;
     trace := [] |}.

Definition sample_base : string := "local_rag_data".

(** A store that takes every file but [bad.pdf] and fetches every URL but
    the one of [missing.pdf]. *)
Definition sample_upload_file (file_data filename : string) (is_user_doc : bool)
  : outcome (bool * string) :=
  if String.eqb filename "bad.pdf"
  then Returned (false, "quota exceeded")
  else Returned (true, "uploads/" +:+ filename).

Definition sample_download (url : string) : bool * string :=
  if String.eqb url "https://example.org/missing.pdf"
  then (false, "HTTP 404")
  else (true, "kb/" +:+ url).

Definition engine_ok_kb (rag : loc) (keys : list string) : outcome unit := Returned tt.
Definition engine_ok_user (rag : loc) (session_id : string) (keys : list string) : outcome unit :=
  Returned tt.
Definition engine_down_kb (rag : loc) (keys : list string) : outcome unit :=
  Raised (Exception "index unavailable").
Definition teardown_ok (rag : loc) : outcome unit := Returned tt.
Definition teardown_down (rag : loc) : outcome unit :=
  Raised (Exception "vector store unreachable").

(** [json.dumps] under the default limit of 4300 digits for the
    conversion of an integer to text: the first integer beyond the limit,
    in the order of the encoding, raises the [ValueError]. *)
Definition int_max_str_digits_error : exn :=
  ValueError ("Exceeds the limit (4300 digits) for integer string conversion; "
              +:+ "use sys.set_int_max_str_digits() to increase the limit").

(** More than 4300 decimal digits: [10 ** 4300] or more in absolute
    value.  [10 ** 4300] lies between [2 ** 14284] and [2 ** 14285], so
    the position of the leading bit decides for all other numbers. *)
Definition over_int_max_str_digits (z : Z) : bool :=
  let bits := Z.log2 (Z.abs z) in
  if (bits <? 14284)%Z then false
  else if (14284 <? bits)%Z then true
  else (10 ^ 4300 <=? Z.abs z)%Z.

Fixpoint sample_json_dumps_raises (v : json) : option exn :=
  match v with
  | JInt z => if over_int_max_str_digits z then Some int_max_str_digits_error else None
  | JList items =>
      (fix first (items : list json) : option exn :=
         match items with
         | [] => None
         | item :: rest =>
             match sample_json_dumps_raises item with
             | Some e => Some e
             | None => first rest
             end
         end) items
  | JDict members =>
      (fix first (members : list (string * json)) : option exn :=
         match members with
         | [] => None
         | (_, item) :: rest =>
             match sample_json_dumps_raises item with
             | Some e => Some e
             | None => first rest
             end
         end) members
  | JNull | JBool _ | JStr _ => None
  end.

(** [str.format] on the template of the base path [data{x}]: the field
    [x] is given no argument. *)
Definition sample_format_other (template gpt_id : string) : outcome string :=
  Raised (KeyError "x").

(** A disk on which a path text names the entry of that very text, and
    on which every entry is a directory but for those of [files]:
    [shutil.rmtree] removes a directory with everything below it and
    raises [NotADirectoryError] on a file. *)
Definition sample_exists (path : string) (disk : gset string) : bool :=
  bool_decide (path ∈ disk).

Definition in_tree (root path : string) : bool :=
  String.eqb path root || startswith path (root +:+ "/").

Definition rmtree_on (files : gset string) (path : string) (disk : gset string)
  : outcome unit * gset string :=
  if bool_decide (path ∈ files)
  then (Raised (Exception ("[Errno 20] Not a directory: " +:+ py_repr path)), disk)
  else (Returned tt, filter (fun q => in_tree path q = false) disk).

Definition sample_rmtree : string -> gset string -> outcome unit * gset string :=
  rmtree_on ∅.

(** An engine that yields two content chunks and then fails. *)
Definition sample_query_stream (rag : loc) (q : query_kwargs) : engine_stream :=
  {| chunks := [JDict [("type", JStr "content"); ("data", JStr "Hel")];
                JDict [("type", JStr "content"); ("data", JStr "lo")]];
     ending_of := Fails (Exception "upstream timeout") |}.

Definition sample_chat_request : ChatStreamRequest :=
  {| chat_user_email := "ann@example.org";
     chat_gpt_id := "g1";
     chat_gpt_name := Some "helper";
     message := "hi";
     history := Some [];
     user_document_keys := Some [];
     use_hybrid_search := Some false;
     model := None;
     system_prompt := None;
     web_search_enabled := Some false;
     memory := Some [] |}.

(** Tenant [g1], set up with hybrid search switched on. *)
Definition sample_registered : world :=
  (get_or_create_rag_instance sample_base "ann@example.org" "g1"
     (Given (Some "helper")) (Given (Some "gpt-4o")) (Given None) (Given (Some true))
     sample_world).2.

Example sample_registered_handle :
  active_rag_sessions sample_registered !! "g1" = Some 0 /\
  heap sample_registered !! 0
  = Some {| gpt_id := "g1";
            openai_api_key := "sk-test";
            default_llm_model_name := "gpt-4o";
            qdrant_url := "http://qdrant:6333";
            qdrant_api_key := None;
            temp_processing_path := "local_rag_data/temp_downloads";
            default_system_prompt := None;
            default_use_hybrid_search := Some true |}.
Proof. split; vm_compute; reflexivity. Qed.

(** C1, where the code departs from it: a resolve of the registered tenant
    that passes a model and leaves the hybrid-search flag out takes the
    flag's default [False] from the signature, which is not [None], and
    writes it over the stored [True]. *)
Theorem C1_resolve_without_flag_resets_hybrid_search :
  let w' := (get_or_create_rag_instance sample_base "ann@example.org" "g1"
               Omitted (Given (Some "gpt-4o-mini")) Omitted Omitted sample_registered).2 in
  default_use_hybrid_search <$> heap sample_registered !! 0 = Some (Some true) /\
  default_llm_model_name <$> heap w' !! 0 = Some "gpt-4o-mini" /\
  default_use_hybrid_search <$> heap w' !! 0 = Some (Some false).
Proof. repeat split; vm_compute; reflexivity. Qed.

(** The same reset happens on the upload path, whose resolve passes no
    override at all. *)
Example upload_resets_hybrid_search :
  let files := [{| filename := "a.pdf"; read := Returned "%PDF" |}] in
  let w' := (upload_documents_endpoint sample_base sample_upload_file engine_ok_kb engine_ok_user
               files "ann@example.org" "g1" "false" sample_registered).2 in
  default_use_hybrid_search <$> heap w' !! 0 = Some (Some false).
Proof. vm_compute. reflexivity. Qed.

(** ** Three resolves of one tenant and one of another, out of order *)

Definition call_a : resolve_call :=
  {| call_user_email := "ann@example.org"; call_gpt_id := "g1";
     call_gpt_name := Given (Some "helper");
     call_default_model := Given (Some "gpt-4o");
     call_default_system_prompt := Given None;
     call_default_use_hybrid_search := Given (Some true) |}.

Definition call_b : resolve_call :=
  {| call_user_email := "bob@example.org"; call_gpt_id := "g1";
     call_gpt_name := Omitted;
     call_default_model := Omitted;
     call_default_system_prompt := Omitted;
     call_default_use_hybrid_search := Omitted |}.

Definition call_c : resolve_call :=
  {| call_user_email := "cat@example.org"; call_gpt_id := "g1";
     call_gpt_name := Given None;
     call_default_model := Given None;
     call_default_system_prompt := Given (Some "Be brief.");
     call_default_use_hybrid_search := Given None |}.

Definition call_d : resolve_call :=
  {| call_user_email := "ann@example.org"; call_gpt_id := "g2";
     call_gpt_name := Omitted;
     call_default_model := Omitted;
     call_default_system_prompt := Omitted;
     call_default_use_hybrid_search := Omitted |}.

Definition sample_pool : sched :=
  {| sessions_lock := false;
     tasks := [Waiting call_a; Waiting call_b; Waiting call_c; Waiting call_d];
     now := sample_world |}.

Definition sample_final : sched := run_schedule sample_base [2; 0; 3; 1] sample_pool.

Example sample_final_tasks :
  tasks sample_final
  = [Finished call_a (Returned 0); Finished call_b (Returned 0);
     Finished call_c (Returned 0); Finished call_d (Returned 1)].
Proof. vm_compute. reflexivity. Qed.

Lemma C2_witness :
  sessions_lock sample_pool = false /\
  forallb is_waiting (tasks sample_pool) = true /\
  steps sample_base sample_pool sample_final /\
  (forall i j ci cj li lj,
      tasks sample_final !! i = Some (Finished ci (Returned li)) ->
      tasks sample_final !! j = Some (Finished cj (Returned lj)) ->
      call_gpt_id ci = call_gpt_id cj ->
      li = lj /\ active_rag_sessions (now sample_final) !! call_gpt_id ci = Some li) /\
  constructions "g1" (trace (now sample_final)) = 1.
Proof.
  pose proof (C2_one_shared_handle_per_tenant sample_base sample_pool sample_final
                eq_refl eq_refl (run_schedule_steps sample_base _ _)) as (Hsame & Hone & _).
  split; [reflexivity|]. split; [reflexivity|].
  split; [apply run_schedule_steps|]. split; [exact Hsame|].
  destruct (Hone "g1" eq_refl) as [_ Hexact].
  apply Hexact. exists 0, call_a, 0. split; vm_compute; reflexivity.
Defined.

Lemma C8_witness :
  active_rag_sessions bare_world !! "g1" = None /\
  truthy (environ bare_world !! "OPENAI_API_KEY") = false /\
  exists w',
    get_or_create_rag_instance sample_base "ann@example.org" "g1"
      Omitted Omitted Omitted Omitted bare_world
    = (Raised (ValueError "OPENAI_API_KEY not set in environment."), w') /\
    active_rag_sessions w' = active_rag_sessions bare_world /\
    heap w' = heap bare_world /\
    next_loc w' = next_loc bare_world /\
    constructions "g1" (trace w') = constructions "g1" (trace bare_world) /\
    active_rag_sessions w' !! "g1" = None.
Proof.
  split; [reflexivity|]. split; [reflexivity|].
  exact (C8_missing_configuration_registers_nothing sample_base "ann@example.org" "g1"
           Omitted Omitted Omitted Omitted bare_world eq_refl (or_introl eq_refl)).
Defined.

(** ** A URL job with one unsupported scheme *)

Example url_job_three_urls :
  let urls := ["https://example.org/a.pdf"; "ftp://example.org/b.pdf"; "http://example.org/c.pdf"] in
  let evs := trace (_process_kb_urls_task sample_download engine_ok_kb urls 0 sample_registered).2 in
  fetched_locations sample_download urls
  = ["kb/https://example.org/a.pdf"; "kb/http://example.org/c.pdf"] /\
  skipped evs = ["ftp://example.org/b.pdf"] /\
  length (item_failures evs) = 1 /\
  engine_updates evs
  = [UpdateKnowledgeBase 0 ["kb/https://example.org/a.pdf"; "kb/http://example.org/c.pdf"]].
Proof. repeat split; vm_compute; reflexivity. Qed.

Definition ftp_only_request : GptContextSetupRequest :=
  {| setup_user_email := "ann@example.org";
     setup_gpt_id := "g1";
     setup_gpt_name := Some "helper";
     kb_document_urls := Some ["ftp://files.example.org/a.pdf"];
     default_model := None;
     setup_default_system_prompt := None;
     setup_default_use_hybrid_search := Some false |}.

(** C3, where the code departs from it: a URL job whose only URL has an
    unsupported scheme has an empty aggregate list, and nothing reports a
    hard failure: the request was answered 202, the job returns normally,
    and the log holds the start line of the job and the line of the
    skipped item. *)
Lemma C3_url_job_reports_no_hard_failure :
  let run := serve (setup_gpt_context_endpoint sample_base sample_download engine_ok_kb
                      ftp_only_request) sample_world in
  fetched_locations sample_download ["ftp://files.example.org/a.pdf"] = [] /\
  hard_failure run.1 = false /\
  run.1 = Returned
            {| status_code := 202;
               content := JDict
                 [("message", JStr "KB processing for gpt_id 'g1' initiated for 1 URLs.");
                  ("gpt_id", JStr "g1")] |} /\
  trace run.2
  = [Printed "Creating new EnhancedRAG instance for gpt_id: g1";
     Constructed 0 "g1";
     Printed "BG Task: Processing 1 KB URLs for gpt_id 'g1'...";
     Printed "Skipping invalid KB URL: ftp://files.example.org/a.pdf"].
Proof. repeat split; vm_compute; reflexivity. Qed.

Lemma C3_witness :
  stored_locations sample_upload_file false [{| filename := "bad.pdf"; read := Returned "%PDF" |}] = [] /\
  fetched_locations sample_download ["ftp://files.example.org/a.pdf"] = [] /\
  (exists body evs,
      upload_documents_endpoint sample_base sample_upload_file engine_ok_kb engine_ok_user
        [{| filename := "bad.pdf"; read := Returned "%PDF" |}]
        "ann@example.org" "g1" "false" sample_world
      = (Returned ({| status_code := 400; content := body |}, []), log evs sample_world) /\
      hard_failure (Returned {| status_code := 400; content := body |}) = true /\
      engine_updates evs = []) /\
  (exists evs,
      _process_kb_urls_task sample_download engine_ok_kb ["ftp://files.example.org/a.pdf"] 0
        sample_registered
      = (Returned tt, log evs sample_registered) /\
      engine_updates evs = []) /\
  (exists evs,
      _process_kb_urls_task_opened sample_download engine_ok_kb ["ftp://files.example.org/a.pdf"]
        0 sample_registered
      = (Returned tt, log evs sample_registered) /\
      engine_updates evs = []) /\
  (exists resp w' evs,
      serve (setup_gpt_context_endpoint sample_base sample_download engine_ok_kb
               ftp_only_request) sample_world
      = (Returned resp, w') /\
      trace w' = trace sample_world ++ evs /\
      status_code resp = 202%Z /\
      hard_failure (Returned resp) = false /\
      engine_updates evs = []).
Proof.
  pose proof (C3_empty_aggregate_calls_no_index_update sample_base sample_upload_file
                sample_download engine_ok_kb engine_ok_user)
    as (Hupload & Hurl & Hopened & Hsetup).
  split; [reflexivity|]. split; [reflexivity|]. split; [|split; [|split]].
  - apply (Hupload [{| filename := "bad.pdf"; read := Returned "%PDF" |}]
             "ann@example.org" "g1" "false" sample_world). reflexivity.
  - apply Hurl. reflexivity.
  - apply Hopened. reflexivity.
  - apply (Hsetup ftp_only_request "ftp://files.example.org/a.pdf" [] sample_world);
      reflexivity.
Defined.

(** ** A stream that fails after two chunks *)

Definition sample_kwargs : query_kwargs :=
  {| q_session_id := "user_ann_example_org_gpt_g1";
     q_query := "hi";
     q_chat_history := Some [];
     q_user_r2_document_keys := Some [];
     q_use_hybrid_search := Some false;
     q_llm_model_name := None;
     q_system_prompt_override := None;
     q_enable_web_search := Some false |}.

Definition frame_Hel : string :=
  "data: {" +:+ DQ +:+ "type" +:+ DQ +:+ ": " +:+ DQ +:+ "content" +:+ DQ +:+ ", "
    +:+ DQ +:+ "data" +:+ DQ +:+ ": " +:+ DQ +:+ "Hel" +:+ DQ +:+ "}" +:+ LF +:+ LF.

Definition frame_lo : string :=
  "data: {" +:+ DQ +:+ "type" +:+ DQ +:+ ": " +:+ DQ +:+ "content" +:+ DQ +:+ ", "
    +:+ DQ +:+ "data" +:+ DQ +:+ ": " +:+ DQ +:+ "lo" +:+ DQ +:+ "}" +:+ LF +:+ LF.

(** The frame of an error chunk with the message [msg] (a message
    without characters to escape). *)
Definition frame_error (msg : string) : string :=
  "data: {" +:+ DQ +:+ "type" +:+ DQ +:+ ": " +:+ DQ +:+ "error" +:+ DQ +:+ ", "
    +:+ DQ +:+ "data" +:+ DQ +:+ ": {" +:+ DQ +:+ "error" +:+ DQ +:+ ": "
    +:+ DQ +:+ msg +:+ DQ +:+ "}}" +:+ LF +:+ LF.

Example sample_stream_frames :
  (consume sample_json_dumps_raises 4
     (generate sample_query_stream 0 "user_ann_example_org_gpt_g1" sample_chat_request)).1
  = [frame_Hel; frame_lo; frame_error "upstream timeout"].
Proof. vm_compute. reflexivity. Qed.

Lemma C5_witness :
  let s := sample_query_stream 0 sample_kwargs in
  let g0 := generate sample_query_stream 0 "user_ann_example_org_gpt_g1" sample_chat_request in
  let frames := (consume sample_json_dumps_raises 4 g0).1 in
  length (chunks s) + 1 < 4 /\
  pc (consume sample_json_dumps_raises 4 g0).2 = Closed /\
  stream_error sample_json_dumps_raises (chunks s) (ending_of s)
  = Some (2, Exception "upstream timeout") /\
  frames = [frame_Hel; frame_lo; frame_error "upstream timeout"] /\
  length (List.filter is_error_frame frames) = 1.
Proof.
  assert (2 + 1 < 4) as Hn by lia.
  destruct (C5_stream_ends_by_completion_or_one_error_frame sample_query_stream
              sample_json_dumps_raises 0 "user_ann_example_org_gpt_g1" sample_chat_request 4 Hn)
    as (Hclosed & Hend & Hcount).
  split; [exact Hn|]. split; [exact Hclosed|]. split; [reflexivity|].
  split; [exact (proj2 (proj2 Hend))|]. exact (Hcount eq_refl).
Defined.

(** The consumer leaves after the first frame: the second chunk stays
    with the engine and no error frame is sent. *)
Example sample_stream_disconnect :
  let g0 := generate sample_query_stream 0 "user_ann_example_org_gpt_g1" sample_chat_request in
  length (consume_then_disconnect sample_json_dumps_raises 1 g0).1 = 1 /\
  chunks (inner (consume_then_disconnect sample_json_dumps_raises 1 g0).2)
  = [JDict [("type", JStr "content"); ("data", JStr "lo")]] /\
  consume sample_json_dumps_raises 5 (consume_then_disconnect sample_json_dumps_raises 1 g0).2
  = ([], (consume_then_disconnect sample_json_dumps_raises 1 g0).2).
Proof. repeat split; vm_compute; reflexivity. Qed.

(** An engine whose only fragment is itself an object of type [error],
    and which then fails. *)
Definition error_fragment_stream (rag : loc) (q : query_kwargs) : engine_stream :=
  {| chunks := [JDict [("type", JStr "error"); ("data", JDict [("error", JStr "rate limited")])]];
     ending_of := Fails (Exception "upstream timeout") |}.

(** An engine that completes after three fragments, the second of which
    holds [2 ** 14285], an integer of 4301 digits. *)
Definition big_int_stream (rag : loc) (q : query_kwargs) : engine_stream :=
  {| chunks := [JDict [("type", JStr "content"); ("data", JStr "Hel")];
                JDict [("type", JStr "usage"); ("data", JInt (2 ^ 14285))];
                JDict [("type", JStr "content"); ("data", JStr "lo")]];
     ending_of := Completes |}.

Definition int_max_str_digits_frame : string :=
  frame_error ("Exceeds the limit (4300 digits) for integer string conversion; "
               +:+ "use sys.set_int_max_str_digits() to increase the limit").

(** C5, where the code departs from it.  A consumer that disconnects after
    the first frame ends the stream with neither terminal condition: the
    engine has a fragment left and its failure is never surfaced.  An
    engine that yields a fragment of type [error] and then fails gives a
    stream with two error frames.  And a fragment that [json.dumps]
    rejects gives an error frame although the engine did not fail: its
    sequence is abandoned after the second of three fragments. *)
Lemma C5_streams_without_one_terminal_condition :
  let g0 := generate sample_query_stream 0 "user_ann_example_org_gpt_g1" sample_chat_request in
  let g1 := generate error_fragment_stream 0 "user_ann_example_org_gpt_g1" sample_chat_request in
  let g2 := generate big_int_stream 0 "user_ann_example_org_gpt_g1" sample_chat_request in
  ((consume_then_disconnect sample_json_dumps_raises 1 g0).1 = [frame_Hel] /\
   pc (consume_then_disconnect sample_json_dumps_raises 1 g0).2 = Closed /\
   inner (consume_then_disconnect sample_json_dumps_raises 1 g0).2
   = {| chunks := [JDict [("type", JStr "content"); ("data", JStr "lo")]];
        ending_of := Fails (Exception "upstream timeout") |}) /\
  ((consume sample_json_dumps_raises 3 g1).1
   = [frame_error "rate limited"; frame_error "upstream timeout"] /\
   length (List.filter is_error_frame (consume sample_json_dumps_raises 3 g1).1) = 2) /\
  (ending_of (big_int_stream 0 sample_kwargs) = Completes /\
   (consume sample_json_dumps_raises 5 g2).1 = [frame_Hel; int_max_str_digits_frame] /\
   inner (consume sample_json_dumps_raises 5 g2).2
   = {| chunks := [JDict [("type", JStr "content"); ("data", JStr "lo")]];
        ending_of := Completes |}).
Proof. repeat split; vm_compute; reflexivity. Qed.

(** C7, where the code departs from it: of three fragments the second is
    rejected by [json.dumps]; the stream read to its end has two frames,
    the frame of the first fragment and the error frame, and the third
    fragment is never emitted. *)
Lemma C7_rejected_fragment_ends_the_stream :
  let g0 := generate big_int_stream 0 "user_ann_example_org_gpt_g1" sample_chat_request in
  length (chunks (big_int_stream 0 sample_kwargs)) = 3 /\
  sample_json_dumps_raises (JDict [("type", JStr "usage"); ("data", JInt (2 ^ 14285))])
  = Some int_max_str_digits_error /\
  (consume sample_json_dumps_raises 5 g0).1 = [frame_Hel; int_max_str_digits_frame] /\
  pc (consume sample_json_dumps_raises 5 g0).2 = Closed /\
  existsb (String.eqb frame_lo) (consume sample_json_dumps_raises 5 g0).1 = false.
Proof. repeat split; vm_compute; reflexivity. Qed.

(** ** Reset *)

(** The registered tenant in development mode, its index directory on disk. *)
Definition dev_world : world :=
  {| environ := <["ENVIRONMENT_TYPE" := "Development"]> sample_environ;
     active_rag_sessions := active_rag_sessions sample_registered;
     heap := heap sample_registered;
     next_loc := next_loc sample_registered;
     fs := {[ "local_rag_data/kb_indexes/g1"; "local_rag_data/kb_indexes/g1/index.faiss";
              "local_rag_data/kb_indexes/g2" ]};
     trace := [] |}.

(** The same tenant with a regular file where its index directory would
    be. *)
Definition file_world : world :=
  {| environ := environ dev_world;
     active_rag_sessions := active_rag_sessions dev_world;
     heap := heap dev_world;
     next_loc := next_loc dev_world;
     fs := {[ "local_rag_data/kb_indexes/g1" ]};
     trace := [] |}.

(** A process whose base path is [data{x}], in development mode, with the
    tenant registered and its index directory on disk. *)
Definition brace_world : world :=
  (get_or_create_rag_instance "data{x}" "ann@example.org" "g1"
     Omitted Omitted Omitted Omitted
     (boot (<["ENVIRONMENT_TYPE" := "development"]> sample_environ)
        {[ "data{x}/kb_indexes/g1" ]})).2.

(** C9, where the code departs from it.  With [ENVIRONMENT_TYPE] unset
    the reset of an unknown key answers 403, not 404, and the reset of a
    registered key answers 403 and leaves the entry where it is.  In
    development mode the entry of a registered key is removed, but the
    index directory is not purged when the teardown raises, when
    [shutil.rmtree] raises because the path is a regular file, or when the
    base path holds a brace and [str.format] raises: the answer is 500 and
    the path is on the disk as before. *)
Lemma C9_reset_that_purges_nothing :
  (dev_reset_gpt_context_endpoint sample_base teardown_ok sample_format_other sample_exists
     sample_rmtree "g-unknown" sample_world
   = (Returned {| status_code := 403;
                  content := JDict [("error", JStr "Endpoint only available in development.")] |},
      sample_world) /\
   dev_reset_gpt_context_endpoint sample_base teardown_ok sample_format_other sample_exists
     sample_rmtree "g1" sample_registered
   = (Returned {| status_code := 403;
                  content := JDict [("error", JStr "Endpoint only available in development.")] |},
      sample_registered) /\
   active_rag_sessions sample_registered !! "g1" = Some 0) /\
  (let run := dev_reset_gpt_context_endpoint sample_base teardown_down sample_format_other
                sample_exists sample_rmtree "g1" dev_world in
   run.1 = Returned {| status_code := 500;
                       content := JDict [("status", JStr "error");
                                         ("message", JStr "vector store unreachable")] |} /\
   active_rag_sessions run.2 = ∅ /\
   fs run.2 = fs dev_world /\
   sample_exists "local_rag_data/kb_indexes/g1" (fs run.2) = true) /\
  (let run := dev_reset_gpt_context_endpoint sample_base teardown_ok sample_format_other
                sample_exists (rmtree_on {[ "local_rag_data/kb_indexes/g1" ]}) "g1" file_world in
   run.1 = Returned {| status_code := 500;
                       content := JDict
                         [("status", JStr "error");
                          ("message",
                           JStr "[Errno 20] Not a directory: 'local_rag_data/kb_indexes/g1'")] |} /\
   active_rag_sessions run.2 = ∅ /\
   rmtrees (trace run.2) = ["local_rag_data/kb_indexes/g1"] /\
   sample_exists "local_rag_data/kb_indexes/g1" (fs run.2) = true) /\
  (let run := dev_reset_gpt_context_endpoint "data{x}" teardown_ok sample_format_other
                sample_exists sample_rmtree "g1" brace_world in
   LOCAL_KB_INDEX_PATH_TEMPLATE "data{x}" = "data{x}/kb_indexes/{gpt_id}" /\
   active_rag_sessions brace_world !! "g1" = Some 0 /\
   run.1 = Returned {| status_code := 500;
                       content := JDict [("status", JStr "error"); ("message", JStr "'x'")] |} /\
   active_rag_sessions run.2 = ∅ /\
   rmtrees (trace run.2) = [] /\
   sample_exists "data{x}/kb_indexes/g1" (fs run.2) = true).
Proof.
  split; [|split; [|split]].
  - split; [|split].
    + apply reset_forbidden. reflexivity.
    + apply reset_forbidden. reflexivity.
    + vm_compute. reflexivity.
  - repeat split; vm_compute; reflexivity.
  - repeat split; vm_compute; reflexivity.
  - repeat split; vm_compute; reflexivity.
Qed.

Lemma registry_wf_dev_world : registry_wf dev_world.
Proof.
  intros g l. change (active_rag_sessions dev_world) with ({[ "g1" := 0 ]} : gmap string loc).
  change (next_loc dev_world) with 1.
  intros [_ <-]%lookup_singleton_Some. lia.
Qed.

Example dev_reset_run :
  let run := dev_reset_gpt_context_endpoint sample_base teardown_ok sample_format_other
               sample_exists sample_rmtree "g1" dev_world in
  (status_code <$> match run.1 with Returned r => Some r | Raised _ => None end) = Some 200%Z /\
  active_rag_sessions run.2 = ∅ /\
  fs run.2 = {[ "local_rag_data/kb_indexes/g2" ]} /\
  trace run.2
  = [ClearAllContext 0;
     Rmtree "local_rag_data/kb_indexes/g1";
     Printed "DEV: Cleared in-memory RAG context and local KB index for gpt_id 'g1'. R2 files not deleted."].
Proof. repeat split; vm_compute; reflexivity. Qed.

Lemma C9_witness :
  development dev_world = true /\
  active_rag_sessions dev_world !! "g1" = Some 0 /\
  development sample_world = false /\
  dev_reset_gpt_context_endpoint sample_base teardown_ok sample_format_other sample_exists
    sample_rmtree "g1" sample_world
  = (Returned forbidden, sample_world) /\
  dev_reset_gpt_context_endpoint sample_base teardown_ok sample_format_other sample_exists
    sample_rmtree "g2" dev_world
  = (Returned (not_found "g2"), dev_world) /\
  exists resp w' evs,
    dev_reset_gpt_context_endpoint sample_base teardown_ok sample_format_other sample_exists
      sample_rmtree "g1" dev_world
    = (Returned resp, w') /\
    active_rag_sessions w' = delete "g1" (active_rag_sessions dev_world) /\
    trace w' = trace dev_world ++ ClearAllContext 0 :: evs /\
    status_code resp = 200%Z /\
    rmtrees evs = ["local_rag_data/kb_indexes/g1"] /\
    fs w' = (sample_rmtree "local_rag_data/kb_indexes/g1" (fs dev_world)).2 /\
    exists w'',
      get_or_create_rag_instance sample_base "ann@example.org" "g1"
        Omitted Omitted Omitted Omitted w'
      = (Returned 1, w'') /\
      constructions "g1" (trace w'') = constructions "g1" (trace w') + 1.
Proof.
  assert (development dev_world = true) as Hdev by reflexivity.
  assert (development sample_world = false) as Hprod by reflexivity.
  split; [exact Hdev|]. split; [reflexivity|]. split; [exact Hprod|].
  split; [exact (proj1 (C9_reset_in_development_mode sample_base teardown_ok sample_format_other
                          sample_exists sample_rmtree "g1" sample_world) Hprod)|].
  destruct (proj2 (C9_reset_in_development_mode sample_base teardown_ok sample_format_other
                     sample_exists sample_rmtree "g2" dev_world) Hdev)
    as [Habsent _].
  split; [apply Habsent; reflexivity|].
  destruct (proj2 (C9_reset_in_development_mode sample_base teardown_ok sample_format_other
                     sample_exists sample_rmtree "g1" dev_world) Hdev)
    as [_ Hpresent].
  destruct (Hpresent 0 eq_refl)
    as (resp & w' & evs & Hrun & Hgone & Htrace & _ & Hok & Hfresh & _).
  destruct (Hok eq_refl) as (Hpath & _ & Hpurge).
  destruct (Hpurge "local_rag_data/kb_indexes/g1" (Hpath eq_refl)) as [_ Hthere].
  destruct (Hthere eq_refl) as (Hrmtree & Hdisk & Hstatus & _).
  destruct (Hfresh registry_wf_dev_world eq_refl "ann@example.org" Omitted Omitted Omitted Omitted)
    as (w'' & Hresolve & _ & Hconstructed).
  exists resp, w', evs.
  split; [exact Hrun|]. split; [exact Hgone|]. split; [exact Htrace|].
  split; [exact (Hstatus eq_refl)|]. split; [exact Hrmtree|]. split; [exact Hdisk|].
  exists w''. split; assumption.
Defined.

(** ** Chat files *)

Definition sample_files : list UploadFile :=
  [{| filename := "notes.txt"; read := Returned "hello" |};
   {| filename := "bad.pdf"; read := Returned "%PDF" |};
   {| filename := "gone.txt"; read := Raised (Exception "client disconnected") |};
   {| filename := "plan.md"; read := Returned "# plan" |}].

Example chat_upload_engine_down :
  (upload_chat_files_endpoint sample_base sample_upload_file engine_down_kb engine_ok_user
     sample_files "ann@example.org" "g1" "helper" "kb_ann" "false" "false" "false"
     sample_registered).1
  = Returned
      (ok (JDict [("success", JBool false);
                  ("message", JStr "Failed to index 2 files: index unavailable");
                  ("file_urls", JList [JStr "uploads/notes.txt"; JStr "uploads/plan.md"]);
                  ("processing", JBool false)]),
       []).
Proof. vm_compute. reflexivity. Qed.

Lemma C10_witness :
  resolves sample_registered "g1" = true /\
  exists resp w' evs,
    upload_chat_files_endpoint sample_base sample_upload_file engine_ok_kb engine_ok_user
      sample_files "ann@example.org" "g1" "helper" "kb_ann" "true" "false" "false"
      sample_registered
    = (Returned (resp, []), w') /\
    trace w' = trace sample_registered ++ evs /\
    status_code resp = 200%Z /\
    engine_updates evs
    = [UpdateUserDocuments 0 "user_ann_example_org_gpt_g1" ["uploads/notes.txt"; "uploads/plan.md"]] /\
    content resp
    = JDict [("success", JBool true);
             ("message", JStr "Processed and indexed 2 files");
             ("file_urls", JList [JStr "uploads/notes.txt"; JStr "uploads/plan.md"]);
             ("processing", JBool true)].
Proof.
  assert (resolves sample_registered "g1" = true) as Hres by reflexivity.
  split; [exact Hres|].
  destruct (proj1 (C10_chat_files_are_indexed_before_the_response sample_base sample_upload_file
                     engine_ok_kb engine_ok_user sample_files "ann@example.org" "g1" "helper"
                     "kb_ann" "true" "false" "false" sample_registered) Hres)
    as (resp & w' & evs & Hrun & Htrace & Hstatus & _ & Hsome).
  exists resp, w', evs. split; [exact Hrun|]. split; [exact Htrace|]. split; [exact Hstatus|].
  destruct Hsome as (Hupd & Hok & _); [discriminate|].
  split; [exact Hupd|]. apply Hok. reflexivity.
Defined.

(** C10, where the code departs from it: in a process without
    credentials the one file of the upload fails to store, and the caller
    gets no response with [success] true: the resolve raises after the
    store was asked, and the [ValueError] leaves the handler. *)
Lemma C10_unresolved_tenant_gets_no_response :
  let files := [{| filename := "bad.pdf"; read := Returned "%PDF" |}] in
  let run := upload_chat_files_endpoint sample_base sample_upload_file engine_ok_kb engine_ok_user
               files "ann@example.org" "g1" "helper" "kb_ann" "true" "false" "false"
               bare_world in
  stored_locations sample_upload_file true files = [] /\
  resolves bare_world "g1" = false /\
  run.1 = Raised (ValueError "OPENAI_API_KEY not set in environment.") /\
  trace run.2
  = [Uploaded "bad.pdf" true;
     Printed "Failed to store file 'bad.pdf'. Error: quota exceeded";
     Printed "Creating new EnhancedRAG instance for gpt_id: g1"].
Proof. repeat split; vm_compute; reflexivity. Qed.

(** ** Runs from the start of the process *)

Definition dev_environ : gmap string string :=
  <["ENVIRONMENT_TYPE" := "development"]> sample_environ.

(** Two tenants are set up, a reset asks for a third that is not there,
    and the first tenant is resolved again with a system prompt. *)
Definition sample_ops : list registry_op :=
  [OpResolve call_a; OpResolve call_d; OpReset "g3"; OpResolve call_c].

Definition sample_run : world :=
  run_ops sample_base teardown_ok
      sample_format_other sample_exists sample_rmtree sample_ops (boot dev_environ ∅).

Example sample_run_registry :
  active_rag_sessions sample_run = {[ "g1" := 0; "g2" := 1 ]} /\
  default_system_prompt <$> heap sample_run !! 0 = Some (Some "Be brief.").
Proof. split; vm_compute; reflexivity. Qed.

Lemma registered_instances_hold_the_credentials_witness :
  active_rag_sessions sample_run !! "g1" = Some 0 /\
  exists r,
    heap sample_run !! 0 = Some r /\
    gpt_id r = "g1" /\
    holds_credentials sample_base dev_environ r.
Proof.
  assert (active_rag_sessions sample_run !! "g1" = Some 0) as Hg by (vm_compute; reflexivity).
  split; [exact Hg|].
  exact (registered_instances_hold_the_credentials sample_base teardown_ok
      sample_format_other sample_exists sample_rmtree dev_environ ∅
           sample_ops "g1" 0 Hg).
Defined.

Lemma resolve_again_changes_nothing_witness :
  let first := get_or_create_rag_instance sample_base "ann@example.org" "g1"
                 (Given (Some "helper")) (Given (Some "gpt-4o")) (Given None) (Given (Some true))
                 sample_world in
  first.1 = Returned 0 /\
  get_or_create_rag_instance sample_base "ann@example.org" "g1"
    (Given (Some "helper")) (Given (Some "gpt-4o")) (Given None) (Given (Some true)) first.2
  = (Returned 0,
     log [Printed "Reusing EnhancedRAG instance for gpt_id: g1. Updated defaults if provided."]
       first.2).
Proof.
  cbn zeta.
  assert ((get_or_create_rag_instance sample_base "ann@example.org" "g1"
             (Given (Some "helper")) (Given (Some "gpt-4o")) (Given None) (Given (Some true))
             sample_world).1 = Returned 0) as Hfirst by (vm_compute; reflexivity).
  split; [exact Hfirst|].
  exact (resolve_again_changes_nothing sample_base "ann@example.org" "g1"
           (Given (Some "helper")) (Given (Some "gpt-4o")) (Given None) (Given (Some true))
           sample_world 0 Hfirst).
Defined.

Lemma resolve_leaves_other_tenants_witness :
  "g2" <> call_gpt_id call_b /\
  active_rag_sessions (run_call sample_base call_b sample_run).2 !! "g2" = Some 1 /\
  forall l', active_rag_sessions sample_run !! "g2" = Some l' ->
             heap (run_call sample_base call_b sample_run).2 !! l' = heap sample_run !! l'.
Proof.
  assert ("g2" <> call_gpt_id call_b) as Hne by discriminate.
  destruct (resolve_leaves_other_tenants sample_base teardown_ok
      sample_format_other sample_exists sample_rmtree dev_environ ∅ sample_ops
              call_b "g2" Hne) as [Hentry Hobject].
  split; [exact Hne|]. split; [|exact Hobject].
  etrans; [exact Hentry|]. vm_compute. reflexivity.
Defined.

Lemma overrides_reach_every_holder_witness :
  let run := get_or_create_rag_instance sample_base "bob@example.org" "g1" Omitted
               (Given (Some "gpt-4o-mini")) (Given None) (Given (Some false)) sample_run in
  active_rag_sessions sample_run !! "g1" = Some 0 /\
  run.1 = Returned 0 /\
  exists r,
    heap run.2 !! 0 = Some r /\
    default_llm_model_name r = "gpt-4o-mini" /\
    default_use_hybrid_search r = Some false.
Proof.
  cbn zeta.
  assert (active_rag_sessions sample_run !! "g1" = Some 0) as Hg by (vm_compute; reflexivity).
  destruct (overrides_reach_every_holder sample_base teardown_ok
      sample_format_other sample_exists sample_rmtree dev_environ ∅ sample_ops
              "bob@example.org" "g1" Omitted (Some "gpt-4o-mini") None (Some false) 0 Hg)
    as (Hhandle & r & Hr & Hmodel & _ & Hhybrid).
  split; [exact Hg|]. split; [exact Hhandle|]. exists r. split; [exact Hr|].
  split; [|by apply Hhybrid].
  specialize (Hmodel eq_refl). by injection Hmodel.
Defined.

(** ** Uploads and URL jobs, end to end *)

Lemma upload_documents_accepted_witness :
  stored_locations sample_upload_file false sample_files = ["uploads/notes.txt"; "uploads/plan.md"] /\
  resolves sample_world "g1" = true /\
  exists w1 evs1 evs2 body,
    serve (upload_documents_endpoint sample_base sample_upload_file engine_ok_kb engine_ok_user
             sample_files "ann@example.org" "g1" "false") sample_world
    = (Returned {| status_code := 202; content := body |}, log evs2 w1) /\
    trace w1 = trace sample_world ++ evs1 /\
    engine_updates evs1 = [] /\
    effects evs2 = [UpdateKnowledgeBase 0 ["uploads/notes.txt"; "uploads/plan.md"]].
Proof.
  assert (stored_locations sample_upload_file (String.eqb (lower "false") "true") sample_files
          <> []) as Hstored by (vm_compute; discriminate).
  assert (resolves sample_world "g1" = true) as Hres by reflexivity.
  destruct (upload_documents_accepted sample_base sample_upload_file engine_ok_kb engine_ok_user
              sample_files "ann@example.org" "g1" "false" sample_world Hstored Hres)
    as (w1 & evs1 & evs2 & _ & Htrace & Hquiet & Hserve & Heff).
  split; [vm_compute; reflexivity|]. split; [exact Hres|].
  exists w1, evs1, evs2. eexists. split; [exact Hserve|].
  split; [exact Htrace|]. split; [exact Hquiet|]. exact Heff.
Defined.

Definition sample_setup_request : GptContextSetupRequest :=
  {| setup_user_email := "ann@example.org";
     setup_gpt_id := "g1";
     setup_gpt_name := Some "helper";
     kb_document_urls := Some ["https://example.org/a.pdf"; "ftp://example.org/b.pdf";
                               "https://example.org/missing.pdf"];
     default_model := None;
     setup_default_system_prompt := None;
     setup_default_use_hybrid_search := Some false |}.

Lemma setup_gpt_context_schedules_the_url_job_witness :
  resolves sample_world "g1" = true /\
  exists resp w1 evs2,
    serve (setup_gpt_context_endpoint sample_base sample_download engine_ok_kb
             sample_setup_request) sample_world
    = (Returned resp, log evs2 w1) /\
    status_code resp = 202%Z /\
    effects evs2
    = [Downloaded "https://example.org/a.pdf"; Downloaded "https://example.org/missing.pdf";
       UpdateKnowledgeBase 0 ["kb/https://example.org/a.pdf"]].
Proof.
  assert (resolves sample_world "g1" = true) as Hres by reflexivity.
  destruct (setup_gpt_context_schedules_the_url_job sample_base sample_download engine_ok_kb
              sample_setup_request sample_world Hres)
    as (resp & w1 & evs1 & evs2 & _ & Hstatus & _ & _ & _ & Hserve & Heff).
  split; [exact Hres|]. exists resp, w1, evs2.
  split; [exact Hserve|]. split; [exact Hstatus|]. exact Heff.
Defined.

(** ** Without configuration *)

Definition sample_query (rag : loc) (q : query_kwargs) : outcome json :=
  if String.eqb (q_query q) "crash"
  then Raised (Exception "model overloaded")
  else Returned (JDict [("answer", JStr "hello"); ("session", JStr (q_session_id q))]).

Definition sample_plain_request : ChatRequest :=
  {| req_user_email := "ann@example.org";
     req_gpt_id := "g1";
     req_gpt_name := Some "helper";
     req_message := "hi";
     req_history := Some [];
     req_user_document_keys := Some [];
     req_use_hybrid_search := Some false;
     req_model := None;
     req_system_prompt := None;
     req_web_search_enabled := Some false |}.

Lemma unresolvable_tenant_fails_the_request_witness :
  resolves bare_world "g1" = false /\
  chat_endpoint sample_base sample_query sample_plain_request bare_world
  = (Raised (ValueError "OPENAI_API_KEY not set in environment."),
     log [creating "g1"] bare_world) /\
  chat_stream sample_base sample_query_stream sample_chat_request bare_world
  = (Returned (JSONResponse (chat_error "OPENAI_API_KEY not set in environment.")),
     log [creating "g1";
          Printed "❌ Error in /chat-stream endpoint: OPENAI_API_KEY not set in environment."]
       bare_world) /\
  upload_chat_files_endpoint sample_base sample_upload_file engine_ok_kb engine_ok_user
    sample_files "ann@example.org" "g1" "helper" "kb_ann" "true" "false" "false" bare_world
  = (Raised (ValueError "OPENAI_API_KEY not set in environment."),
     log (flat_map (upload_events sample_upload_file true) sample_files ++ [creating "g1"])
       bare_world).
Proof.
  assert (resolves bare_world "g1" = false) as Hres by reflexivity.
  destruct (unresolvable_tenant_fails_the_request sample_base sample_upload_file sample_download
              engine_ok_kb engine_ok_user sample_query_stream sample_query "g1" bare_world Hres)
    as (_ & _ & Hfiles & Hchat & Hstream).
  split; [exact Hres|]. split; [exact (Hchat sample_plain_request eq_refl)|].
  split; [exact (Hstream sample_chat_request eq_refl)|].
  exact (Hfiles sample_files "ann@example.org" "helper" "kb_ann" "true" "false" "false").
Defined.


(** ** Reset, again *)

Lemma resolve_then_reset_restores_the_registry_witness :
  let w := boot dev_environ ∅ in
  let w1 := (get_or_create_rag_instance sample_base "ann@example.org" "g1"
               Omitted Omitted Omitted Omitted w).2 in
  let w2 := (dev_reset_gpt_context_endpoint sample_base teardown_ok
      sample_format_other sample_exists sample_rmtree "g1" w1).2 in
  development w = true /\
  configured w = true /\
  active_rag_sessions w !! "g1" = None /\
  active_rag_sessions w1 !! "g1" = Some 0 /\
  active_rag_sessions w2 = ∅ /\
  is_Some (heap w2 !! 0) /\
  next_loc w2 = 1 /\
  dev_reset_gpt_context_endpoint sample_base teardown_ok
      sample_format_other sample_exists sample_rmtree "g1" w2 = (Returned (not_found "g1"), w2).
Proof.
  cbn zeta.
  assert (development (boot dev_environ ∅) = true) as Hdev by reflexivity.
  assert (configured (boot dev_environ ∅) = true) as Hconf by reflexivity.
  assert (active_rag_sessions (boot dev_environ ∅) !! "g1" = None) as Hg by reflexivity.
  split; [exact Hdev|]. split; [exact Hconf|]. split; [exact Hg|].
  exact (resolve_then_reset_restores_the_registry sample_base teardown_ok
      sample_format_other sample_exists sample_rmtree "ann@example.org" "g1"
           Omitted Omitted Omitted Omitted (boot dev_environ ∅) Hdev Hconf Hg).
Defined.

Lemma kb_index_path_is_the_joined_path_witness :
  no_brace sample_base = true /\
  kb_index_path sample_base "g1" = "local_rag_data/kb_indexes/g1" /\
  (kb_index_path sample_base "g1" = kb_index_path sample_base "g2" <-> "g1" = "g2").
Proof.
  assert (no_brace sample_base = true) as Hbase by reflexivity.
  split; [exact Hbase|].
  exact (kb_index_path_is_the_joined_path sample_base "g1" "g2" Hbase).
Defined.

(** Tenant [g1] is registered; on the disk are its index directory, the
    one of a tenant [g1/archive] and the one of [g2]. *)
Definition nested_world : world :=
  {| environ := dev_environ;
     active_rag_sessions := active_rag_sessions sample_registered;
     heap := heap sample_registered;
     next_loc := next_loc sample_registered;
     fs := {[ "local_rag_data/kb_indexes/g1"; "local_rag_data/kb_indexes/g1/archive";
              "local_rag_data/kb_indexes/g2" ]};
     trace := [] |}.

(** On this disk, where a removal takes everything below the path, the
    directory of [g1/archive] goes with the one of [g1]. *)
Example nested_tenant_is_purged :
  fs (dev_reset_gpt_context_endpoint sample_base teardown_ok sample_format_other sample_exists
        sample_rmtree "g1" nested_world).2
  = {[ "local_rag_data/kb_indexes/g2" ]}.
Proof. vm_compute. reflexivity. Qed.

Lemma reset_removes_by_path_witness :
  let w' := (dev_reset_gpt_context_endpoint sample_base teardown_ok sample_format_other
               sample_exists sample_rmtree "g1" nested_world).2 in
  no_brace sample_base = true /\
  development nested_world = true /\
  active_rag_sessions nested_world !! "g1" = Some 0 /\
  teardown_ok 0 = Returned tt /\
  sample_exists "local_rag_data/kb_indexes/g1" (fs nested_world) = true /\
  exists evs,
    trace w' = trace nested_world ++ evs /\
    rmtrees evs = ["local_rag_data/kb_indexes/g1"] /\
    fs w' = (sample_rmtree "local_rag_data/kb_indexes/g1" (fs nested_world)).2 /\
    active_rag_sessions w' = delete "g1" (active_rag_sessions nested_world) /\
    kb_index_path sample_base "g1/archive" = "local_rag_data/kb_indexes/g1/archive".
Proof.
  cbn zeta.
  assert (no_brace sample_base = true) as Hbase by reflexivity.
  assert (development nested_world = true) as Hdev by reflexivity.
  assert (active_rag_sessions nested_world !! "g1" = Some 0) as Hg by reflexivity.
  assert (sample_exists "local_rag_data/kb_indexes/g1" (fs nested_world) = true) as Hthere
    by (vm_compute; reflexivity).
  split; [exact Hbase|]. split; [exact Hdev|]. split; [exact Hg|]. split; [reflexivity|].
  split; [exact Hthere|].
  destruct (reset_removes_by_path sample_base teardown_ok sample_format_other sample_exists
              sample_rmtree "g1" 0 nested_world Hbase Hdev Hg eq_refl Hthere)
    as (evs & Htrace & Hrmtree & Hdisk & Hgone & Hbelow).
  exists evs. split; [exact Htrace|]. split; [exact Hrmtree|]. split; [exact Hdisk|].
  split; [exact Hgone|]. exact (Hbelow "archive").
Defined.

Lemma task_after_reset_indexes_into_the_removed_handle_witness :
  let w1 := (dev_reset_gpt_context_endpoint sample_base teardown_ok
      sample_format_other sample_exists sample_rmtree "g1" sample_run).2 in
  active_rag_sessions sample_run !! "g1" = Some 0 /\
  development sample_run = true /\
  (forall g', active_rag_sessions w1 !! g' = Some 0 -> False) /\
  exists evs,
    _index_documents_task engine_ok_kb engine_ok_user 0 ["uploads/notes.txt"] false
      "ann@example.org" "g1" w1
    = (Returned tt, log evs w1) /\
    effects evs = [UpdateKnowledgeBase 0 ["uploads/notes.txt"]].
Proof.
  cbn zeta.
  assert (active_rag_sessions sample_run !! "g1" = Some 0) as Hg by (vm_compute; reflexivity).
  assert (development sample_run = true) as Hdev by (vm_compute; reflexivity).
  split; [exact Hg|]. split; [exact Hdev|].
  exact (task_after_reset_indexes_into_the_removed_handle sample_base engine_ok_kb engine_ok_user
           teardown_ok
               sample_format_other sample_exists sample_rmtree
               dev_environ ∅ sample_ops "g1" 0 ["uploads/notes.txt"] false
           "ann@example.org" Hg Hdev).
Defined.

(** ** A reset between two resolves *)

Definition sample_jobs : pool :=
  {| holder := None;
     jobs := [Pending (Resolving call_a); Pending (Resetting "g1"); Pending (Resolving call_b)];
     current := boot dev_environ ∅ |}.

(** The first resolve runs, the reset comes to its [await], and the
    second resolve finds the lock taken. *)
Definition sample_jobs_mid : pool := run_jobs sample_base teardown_ok
    sample_format_other sample_exists sample_rmtree [0; 1; 2] sample_jobs.

(** Then the reset ends and the second resolve runs. *)
Definition sample_jobs_end : pool := run_jobs sample_base teardown_ok
    sample_format_other sample_exists sample_rmtree [1; 2] sample_jobs_mid.

Example sample_jobs_mid_state :
  holder sample_jobs_mid = Some 1 /\
  jobs sample_jobs_mid
  = [Resolved call_a (Returned 0); Tearing "g1" 0; Pending (Resolving call_b)] /\
  active_rag_sessions (current sample_jobs_mid) = ∅.
Proof. repeat split; vm_compute; reflexivity. Qed.

Example sample_jobs_end_state :
  holder sample_jobs_end = None /\
  jobs sample_jobs_end
  = [Resolved call_a (Returned 0);
     Answered "g1"
       (Returned (ok (JDict [("status", JStr "success");
                             ("message",
                              JStr "RAG context for gpt_id 'g1' cleared from memory and local disk.")])));
     Resolved call_b (Returned 1)] /\
  active_rag_sessions (current sample_jobs_end) = {[ "g1" := 1 ]}.
Proof. repeat split; vm_compute; reflexivity. Qed.

Lemma resets_and_resolves_are_serialised_witness :
  holder sample_jobs = None /\
  forallb is_pending (jobs sample_jobs) = true /\
  psteps sample_base teardown_ok
      sample_format_other sample_exists sample_rmtree sample_jobs sample_jobs_end /\
  holder sample_jobs_end = None /\
  exists ops,
    ops ≡ₚ finished sample_jobs_end /\
    current sample_jobs_end = run_ops sample_base teardown_ok
        sample_format_other sample_exists sample_rmtree ops (current sample_jobs).
Proof.
  assert (psteps sample_base teardown_ok
      sample_format_other sample_exists sample_rmtree sample_jobs sample_jobs_end) as Hsteps.
  { unfold sample_jobs_end, sample_jobs_mid.
    etrans; apply run_jobs_steps. }
  assert (holder sample_jobs_end = None) as Hfree by (vm_compute; reflexivity).
  destruct (resets_and_resolves_are_serialised sample_base teardown_ok
      sample_format_other sample_exists sample_rmtree sample_jobs
              sample_jobs_end eq_refl eq_refl Hsteps) as (_ & Hserial & _).
  split; [reflexivity|]. split; [reflexivity|]. split; [exact Hsteps|].
  split; [exact Hfree|]. exact (Hserial Hfree).
Defined.
